(** * SentientAI: the diagnostic workflow and its two tools

    A shallow embedding of
      - [src/manual/manual_search_tool.py]  ([ManualSearchTool]),
      - [src/scada/scada_query_tool.py]     ([query_scada]),
      - [src/agents/orchestrator.py]        ([Orchestrator]),
    and the properties the specification states about them.

    Conventions.  A Python [str] is a [string] whose characters are read as
    code points below 256; the character classes of [str.strip],
    [str.lower], [repr] and the regular expression class [\w] are the ones
    Python uses on that range.  A call that can raise returns an [outcome].
    The collaborators that live outside these files (the four workflow
    agents, the vector store, the SQL engine, the HTTP client, the console)
    are parameters.  The answers of the agents are dictionaries of the
    declared shape, and an agent reads the state it is handed without
    changing it.

    The workflow is embedded twice.  Module [Orchestrator] is the workflow
    with its console output taken to succeed: the [print] calls are left
    out, and [input] yields a line or raises [EOFError].  Module
    [Terminal] is the same code with every [print] as a call that can
    raise and with an [input] that can raise any exception;
    [TerminalFacts.run_on_quiet_terminal] shows that the two run alike
    when nothing on the terminal fails.  That a run returns without an
    exception, and where an exception that leaves a run comes from, is
    stated in [Terminal]. *)

From Stdlib Require Import String Ascii List Bool Arith Lia.
Import ListNotations.
Local Open Scope string_scope.
Local Open Scope list_scope.
Local Open Scope nat_scope.
Set Warnings "-notation-for-abbreviation".

(* ===================================================================== *)
(** ** Python values shared by the three files *)
(* ===================================================================== *)

(** Exceptions that cross a function boundary: a [KeyError] of a lookup
    by a [str] key, the [EOFError] of [input] at the end of the input, and
    any other exception, given by the text [str(e)] yields. *)
Inductive exn : Type :=
| KeyError (key : string)
| EOFError
| Raised (message : string).

(** The result of a call that may raise. *)
Inductive outcome (A : Type) : Type :=
| Ok (a : A)
| Raise (e : exn).
Arguments Ok {A} a.
Arguments Raise {A} e.

(** [d.get(k, default)] on an optional key. *)
Definition get_or {A : Type} (o : option A) (default : A) : A :=
  match o with
  | Some a => a
  | None => default
  end.

(* ===================================================================== *)
(** ** The [str] methods the sources use *)
(* ===================================================================== *)

Module PyStr.

(** [c.isspace()] for a code point below 256. *)
Definition isspace (c : ascii) : bool :=
  let n := nat_of_ascii c in
  ((9 <=? n) && (n <=? 13)) || ((28 <=? n) && (n <=? 32))
  || (n =? 133) || (n =? 160).

(** The class [\w] of module [re] on [str] patterns, below 256:
    alphanumeric code points and the underscore. *)
Definition is_word (c : ascii) : bool :=
  let n := nat_of_ascii c in
  ((48 <=? n) && (n <=? 57)) || ((65 <=? n) && (n <=? 90)) || (n =? 95)
  || ((97 <=? n) && (n <=? 122))
  || (n =? 170) || (n =? 178) || (n =? 179) || (n =? 181) || (n =? 185)
  || (n =? 186) || ((188 <=? n) && (n <=? 190))
  || ((192 <=? n) && (n <=? 214)) || ((216 <=? n) && (n <=? 246))
  || (248 <=? n).

(** [c.lower()] for a code point below 256. *)
Definition lower_char (c : ascii) : ascii :=
  let n := nat_of_ascii c in
  if ((65 <=? n) && (n <=? 90))
     || ((192 <=? n) && (n <=? 222) && negb (n =? 215))
  then ascii_of_nat (n + 32) else c.

Fixpoint lower (s : string) : string :=
  match s with
  | EmptyString => EmptyString
  | String c r => String (lower_char c) (lower r)
  end.

Fixpoint lstrip (s : string) : string :=
  match s with
  | EmptyString => EmptyString
  | String c r => if isspace c then lstrip r else s
  end.

Fixpoint rstrip (s : string) : string :=
  match s with
  | EmptyString => EmptyString
  | String c r =>
      match rstrip r with
      | EmptyString => if isspace c then EmptyString else String c EmptyString
      | r' => String c r'
      end
  end.

(** [s.strip()] *)
Definition strip (s : string) : string := rstrip (lstrip s).

(** Truth value of a [str]: the empty string is false. *)
Definition truthy (s : string) : bool :=
  match s with
  | EmptyString => false
  | String _ _ => true
  end.

(** [s.split(sep)] for a one-character separator. *)
Fixpoint split (sep : ascii) (s : string) : list string :=
  match s with
  | EmptyString => [EmptyString]
  | String c r =>
      if Ascii.eqb c sep then EmptyString :: split sep r
      else match split sep r with
           | h :: t => String c h :: t
           | [] => [String c EmptyString]
           end
  end.

(** [sub in s] *)
Fixpoint contains (sub s : string) : bool :=
  if prefix sub s then true
  else match s with
       | EmptyString => false
       | String _ r => contains sub r
       end.

(** [x in [a, b, ...]] on strings. *)
Definition mem (x : string) (l : list string) : bool :=
  existsb (String.eqb x) l.

(** [any(word in q for word in words)] *)
Definition any_in (words : list string) (q : string) : bool :=
  existsb (fun word => contains word q) words.

Definition head (s : string) : option ascii :=
  match s with
  | EmptyString => None
  | String c _ => Some c
  end.

Fixpoint last_char (s : string) (before : option ascii) : option ascii :=
  match s with
  | EmptyString => before
  | String c r => last_char r (Some c)
  end.

Fixpoint drop (n : nat) (s : string) : string :=
  match n, s with
  | O, _ => s
  | S k, EmptyString => EmptyString
  | S k, String _ r => drop k r
  end.

Definition is_word_opt (o : option ascii) : bool :=
  match o with
  | Some c => is_word c
  | None => false
  end.

(** The assertion [\b] between two neighbouring positions: exactly one
    side is a word character (the ends of the string count as none). *)
Definition word_boundary (prev next : option ascii) : bool :=
  xorb (is_word_opt prev) (is_word_opt next).

(** Does [\b word \b] match at the start of [s], [prev] being the character
    just before it?  [word] is a literal without regex metacharacters. *)
Definition match_word_here (word : string) (prev : option ascii) (s : string) : bool :=
  word_boundary prev (head s)
  && prefix word s
  && word_boundary (last_char word prev) (head (drop (String.length word) s)).

(** The left-to-right scan of [re.sub]: [skip] characters of the current
    match are still to be passed over; matches do not overlap. *)
Fixpoint sub_scan (word repl : string) (prev : option ascii) (skip : nat)
         (s : string) : string :=
  match s with
  | EmptyString => EmptyString
  | String c r =>
      match skip with
      | S k => sub_scan word repl (Some c) k r
      | O =>
          if match_word_here word prev s
          then (repl ++ sub_scan word repl (Some c) (String.length word - 1) r)%string
          else String c (sub_scan word repl (Some c) 0 r)
      end
  end.

(** [re.sub(r'\b' + word + r'\b', repl, s)] for a non-empty literal [word]
    and a replacement without backslashes. *)
Definition re_sub_word (word repl s : string) : string :=
  sub_scan word repl None 0 s.

(** [c.isprintable()] for a code point below 256. *)
Definition isprintable (c : ascii) : bool :=
  let n := nat_of_ascii c in
  ((32 <=? n) && (n <=? 126)) || ((161 <=? n) && negb (n =? 173)).

Definition backslash : ascii := ascii_of_nat 92.
Definition single_quote : ascii := ascii_of_nat 39.
Definition double_quote : ascii := ascii_of_nat 34.

Definition hex_digit (n : nat) : ascii :=
  nth n (list_ascii_of_string "0123456789abcdef") "0"%char.

(** One character of [s] as [repr(s)] shows it between [quote]s. *)
Definition repr_char (quote c : ascii) : string :=
  let n := nat_of_ascii c in
  if Ascii.eqb c quote || Ascii.eqb c backslash then String backslash (String c EmptyString)
  else if n =? 9 then String backslash "t"
  else if n =? 10 then String backslash "n"
  else if n =? 13 then String backslash "r"
  else if isprintable c then String c EmptyString
  else String backslash
         (String "x" (String (hex_digit (n / 16)) (String (hex_digit (n mod 16)) EmptyString))).

Fixpoint repr_chars (quote : ascii) (s : string) : string :=
  match s with
  | EmptyString => EmptyString
  | String c r => (repr_char quote c ++ repr_chars quote r)%string
  end.

(** [repr(s)]: single quotes, unless [s] holds a single quote and no
    double quote. *)
Definition repr (s : string) : string :=
  let quote :=
    if contains (String single_quote EmptyString) s
       && negb (contains (String double_quote EmptyString) s)
    then double_quote else single_quote in
  String quote (repr_chars quote s ++ String quote EmptyString).

(** Empty, or whitespace only. *)
Fixpoint blank (s : string) : bool :=
  match s with
  | EmptyString => true
  | String c r => isspace c && blank r
  end.

(** Word characters only. *)
Fixpoint all_word (s : string) : bool :=
  match s with
  | EmptyString => true
  | String c r => is_word c && all_word r
  end.

(** No word character at all. *)
Fixpoint no_word (s : string) : bool :=
  match s with
  | EmptyString => true
  | String c r => negb (is_word c) && no_word r
  end.

End PyStr.

(* ===================================================================== *)
(** ** [manual/manual_search_tool.py] *)
(* ===================================================================== *)

Module ManualSearchTool.
Import PyStr.

(** The literal [query_mapping] of [_preprocess_query], in insertion
    order (the order [dict.items()] yields). *)
Definition query_mapping : list (string * string) :=
  [ ("temp", "temperature");
    ("press", "pressure");
    ("vib", "vibration");
    ("rpm", "rotations per minute");
    ("psi", "pressure");
    ("err", "error");
    ("troubleshoot", "troubleshooting diagnosis problem");
    ("fix", "repair solution troubleshooting");
    ("alarm", "error alarm warning");
    ("fault", "error fault problem");
    ("maintenance", "maintenance service repair");
    ("calibration", "calibration adjustment setup");
    ("installation", "installation setup configuration") ].

(** The [for abbr, full_form in ...] loop over a mapping. *)
Definition apply_mapping (mapping : list (string * string)) (s : string) : string :=
  fold_left (fun processed_query rule =>
               re_sub_word (fst rule) (snd rule) processed_query)
            mapping s.

Definition _preprocess_query (query : string) : string :=
  apply_mapping query_mapping (lower query).

Section Search.
(** The similarity score of the vector store is a float; the tool only
    computes [1 - score] from it. *)
Variable Score : Type.
Variable one_minus : Score -> Score.
(** [filter_metadata]: a dictionary, and its truth value (false for the
    empty dictionary). *)
Variable Filter : Type.
Variable filter_truthy : Filter -> bool.

(** A LangChain document: the text and the two metadata keys read. *)
Record Document : Type := mkDocument {
  page_content : string;
  source_file : option string;
  page_number : option string
}.

Record SearchResult : Type := mkSearchResult {
  content : string;
  source : string;
  page : string;
  relevance_score : Score;
  rank : nat
}.

(** What [search] does to the outside, in order. *)
Inductive Effect : Type :=
| Preprocessed (query : string)
| SimilaritySearch (processed_query : string) (k : nat) (filter : option Filter).

(** [vector_store.similarity_search_with_score] *)
Variable similarity_search_with_score :
  string -> nat -> option Filter -> outcome (list (Document * Score)).

(** The [for i, (doc, score) in enumerate(results)] loop; [i] counts
    from [0]. *)
Fixpoint format_results (i : nat) (results : list (Document * Score))
  : list SearchResult :=
  match results with
  | [] => []
  | (doc, score) :: rest =>
      {| content := page_content doc;
         source := get_or (source_file doc) "Unknown";
         page := get_or (page_number doc) "Unknown";
         relevance_score := one_minus score;
         rank := i + 1 |} :: format_results (S i) rest
  end.

(** [filter_metadata if filter_metadata else None] *)
Definition passed_filter (filter_metadata : option Filter) : option Filter :=
  match filter_metadata with
  | Some f => if filter_truthy f then Some f else None
  | None => None
  end.

(** [ManualSearchTool.search]: the value returned (or the exception
    that leaves it) and the effects performed.  The calls of the logger
    do not raise. *)
Definition search (query : string) (top_k : nat) (filter_metadata : option Filter)
  : outcome (list SearchResult) * list Effect :=
  if negb (truthy (strip query)) then (Ok [], [])
  else
    let processed_query := _preprocess_query query in
    let filter := passed_filter filter_metadata in
    match similarity_search_with_score processed_query top_k filter with
    | Raise e =>
        (Raise e, [Preprocessed query;
                   SimilaritySearch processed_query top_k filter])
    | Ok results =>
        (Ok (format_results 0 results),
         [Preprocessed query;
          SimilaritySearch processed_query top_k filter])
    end.

End Search.

End ManualSearchTool.

(* ===================================================================== *)
(** ** [scada/scada_query_tool.py] *)
(* ===================================================================== *)

Module ScadaQueryTool.
Import PyStr.

(** Literals outside the range of [ascii] are their UTF-8 bytes. *)
Definition utf8 (bytes : list nat) : string :=
  string_of_list_ascii (map ascii_of_nat bytes).
Definition cross_mark : string := utf8 [226; 157; 140].
Definition warning_sign : string := utf8 [226; 154; 160; 239; 184; 143].

(** [str(e)]: for a [KeyError] the [repr] of the key, for the [EOFError]
    of [input] its fixed message. *)
Definition str_exn (e : exn) : string :=
  match e with
  | KeyError key => repr key
  | EOFError => "EOF when reading a line"
  | Raised message => message
  end.

Definition month_map : list (string * string) :=
  [ ("january", "01"); ("february", "02"); ("march", "03"); ("april", "04");
    ("may", "05"); ("june", "06"); ("july", "07"); ("august", "08");
    ("september", "09"); ("october", "10"); ("november", "11");
    ("december", "12") ].

Fixpoint first_month (months : list (string * string)) (q : string) : option string :=
  match months with
  | [] => None
  | (month_name, month_num) :: rest =>
      if contains month_name q then Some month_num else first_month rest q
  end.

Definition extract_month (q : string) : option string := first_month month_map q.

(** The [if / elif] chain of [query_scada] that picks the SQL text. *)
Definition select_query (q : string) : option string :=
  if any_in ["pressure"; "psi"; "capper"; "compressor"; "bar"; "leak"] q then
    Some "SELECT * FROM scada_logs WHERE metric_name='pressure_psi'"
  else if any_in ["temperature"; "temp"; "celsius"; "overheat"; "boiler";
                  "furnace"; "chiller"] q then
    Some "SELECT * FROM scada_logs WHERE metric_name='temperature_celsius'"
  else if any_in ["vibration"; "shake"; "hz"; "unbalance"; "resonance";
                  "oscillation"] q then
    Some "SELECT * FROM scada_logs WHERE metric_name='vibration_hz'"
  else if any_in ["load"; "power"; "grid"; "electric"; "kw"; "average load";
                  "main supply"] q then
    Some "SELECT AVG(value) as avg_kw FROM scada_logs WHERE metric_name='load_kw'"
  else if any_in ["rpm"; "rotation"; "overspeed"; "underspeed"; "shaft speed"] q then
    Some "SELECT * FROM scada_logs WHERE metric_name='rpm'"
  else if any_in ["error"; "anomaly"; "fault"; "issue"; "warning"; "alarm";
                  "problem"; "503"; "504"; "505"] q then
    Some "SELECT * FROM scada_logs WHERE error_code IS NOT NULL"
  else None.

(** The [if query:] block that completes the SQL text. *)
Definition complete_query (query : string) (month_filter : option string) : string :=
  let query :=
    match month_filter with
    | Some month => (query ++ " AND strftime('%m', timestamp) = '" ++ month ++ "'")%string
    | None => query
    end in
  if negb (contains "AVG" query)
  then (query ++ " ORDER BY timestamp DESC LIMIT 10;")%string
  else (query ++ ";")%string.

(** The JSON body posted to the chat-completions endpoint (URL and
    headers are constants). *)
Record ChatRequest : Type := mkChatRequest {
  model : string;
  system_content : string;
  user_content : string;
  temperature : string
}.

(** What the code reads of a [requests] response: [json_content] is
    [response.json()["choices"][0]["message"]["content"]], which raises
    when the body has no such path. *)
Record Response : Type := mkResponse {
  status_code : nat;
  text : string;
  json_content : outcome string
}.

Section Query.
Variable DataFrame : Type.
Variable df_empty : DataFrame -> bool.
Variable df_to_string : DataFrame -> string.
(** [pd.read_sql(query, engine)] *)
Variable read_sql : string -> outcome DataFrame.
(** [requests.post(...)] *)
Variable post : ChatRequest -> outcome Response.

Definition fallback_request (nl_question : string) : ChatRequest :=
  {| model := "llama3-8b-8192";
     system_content := "You are a SCADA diagnostics assistant.";
     user_content := nl_question;
     temperature := "0.4" |}.

Definition fallback_response (nl_question : string) : outcome string :=
  match post (fallback_request nl_question) with
  | Raise e => Raise e
  | Ok response =>
      if status_code response =? 200 then json_content response
      else Ok (cross_mark ++ " Groq fallback error: " ++ text response)%string
  end.

Definition newline : string := String (ascii_of_nat 10) EmptyString.

Definition explain_request (data_str : string) : ChatRequest :=
  {| model := "llama3-8b-8192";
     system_content := "You are a helpful diagnostics assistant. Analyze the SCADA data and explain it simply.";
     user_content := ("Explain this data:" ++ newline ++ newline ++ data_str)%string;
     temperature := "0.3" |}.

Definition explain_data_with_llm (data_str : string) : outcome string :=
  match post (explain_request data_str) with
  | Raise e => Raise e
  | Ok response =>
      if status_code response =? 200 then json_content response
      else Ok (cross_mark ++ " Groq API error: " ++ text response)%string
  end.

(** [create_engine] only builds the engine object; the database is first
    touched by [pd.read_sql]. *)
Definition query_scada (nl_question : string) : outcome string :=
  let q := lower nl_question in
  let month_filter := extract_month q in
  match select_query q with
  | None => fallback_response nl_question
  | Some query =>
      let query := complete_query query month_filter in
      match read_sql query with
      | Raise e => Ok (cross_mark ++ " SQL Query Error: " ++ str_exn e)%string
      | Ok df =>
          if df_empty df
          then Ok (warning_sign ++ " No data matched your query.")%string
          else explain_data_with_llm (df_to_string df)
      end
  end.

End Query.

End ScadaQueryTool.

(* ===================================================================== *)
(** ** [agents/orchestrator.py] *)
(* ===================================================================== *)

Module Orchestrator.
Import PyStr.

(** The shared [DiagnosticState] dictionary. *)
Record DiagnosticState : Type := mkState {
  input : string;
  plan : list string;
  past_steps : list (string * string);
  response : string;
  ready_for_synthesis : bool
}.

Definition with_plan (st : DiagnosticState) (p : list string) : DiagnosticState :=
  mkState (input st) p (past_steps st) (response st) (ready_for_synthesis st).
Definition with_past_steps (st : DiagnosticState) (ps : list (string * string))
  : DiagnosticState :=
  mkState (input st) (plan st) ps (response st) (ready_for_synthesis st).
Definition with_response (st : DiagnosticState) (r : string) : DiagnosticState :=
  mkState (input st) (plan st) (past_steps st) r (ready_for_synthesis st).
Definition with_ready_for_synthesis (st : DiagnosticState) (b : bool)
  : DiagnosticState :=
  mkState (input st) (plan st) (past_steps st) (response st) b.

(** The dictionaries the agents return: a key may be absent. *)
Record PlannerOutput : Type := mkPlannerOutput {
  planner_plan : option (list string)
}.
Record ExecutorOutput : Type := mkExecutorOutput {
  executor_past_steps : option (list (string * string))
}.
Record ReplanOutput : Type := mkReplanOutput {
  replan_ready_for_synthesis : option bool;
  replan_response : option string;
  replan_plan : option (list string)
}.
Record SynthesizerOutput : Type := mkSynthesizerOutput {
  synthesizer_response : option string
}.

(** The dictionary [_human_in_the_loop_review] returns. *)
Record HumanDecision : Type := mkHumanDecision {
  action : string;
  new_plan : option (list string)
}.

Inductive Agent : Type := Planner | Executor | Replanner | Synthesizer.

(** What a run does, in order. *)
Inductive Event : Type :=
| Called (a : Agent) (st : DiagnosticState)
    (** an agent method is invoked on the state *)
| Stored (st : DiagnosticState)
    (** an assignment [state[key] = ...]; [st] is the state after it *)
| Iteration (current_iteration : nat)
    (** a loop pass starts and announces its number *)
| Review (st : DiagnosticState)
    (** the gate shows the overview of the state *)
| Prompted (line : option string)
    (** [input(...)] is read; [None] at the end of the input *)
| Decided (d : HumanDecision).
    (** the gate returns its decision *)

(** How a computation ends: with a value, with an exception, or not
    within the fuel given to its loops. *)
Inductive result (A : Type) : Type :=
| Val (a : A)
| Exc (e : exn)
| Timeout.
Arguments Val {A} a.
Arguments Exc {A} e.
Arguments Timeout {A}.

Definition max_iterations : nat := 5.

(** Truth value of a list: the empty list is false. *)
Definition truthy_list {A : Type} (l : list A) : bool :=
  match l with
  | [] => false
  | _ :: _ => true
  end.

Definition planner_failed : string :=
  "The planner could not create a valid plan. Please try a different query.".
Definition aborted_by_human : string := "Workflow aborted by human.".
Definition synthesis_error : string := "An error occurred during final synthesis.".
Definition inconclusive : string :=
  "The diagnostic process completed without a final synthesized response. Please review the past steps for information.".

(** [[step.strip() for step in new_plan_str.split(',') if step.strip()]] *)
Definition parse_plan (new_plan_str : string) : list string :=
  map strip (filter (fun step => truthy (strip step)) (split "," new_plan_str)).

Section Workflow.
(** Whatever the agents depend on besides the state they are handed
    (models, databases, their own memory). *)
Variable World : Type.

Record Agents : Type := mkAgents {
  create_plan : DiagnosticState -> World -> outcome PlannerOutput * World;
  execute_step : DiagnosticState -> World -> outcome ExecutorOutput * World;
  decide_next_action : DiagnosticState -> World -> outcome ReplanOutput * World;
  synthesize_response : DiagnosticState -> World -> outcome SynthesizerOutput * World
}.

Variable agents : Agents.
(** The lines typed at the console, in order; [None] once it is closed. *)
Variable console : nat -> option string.

Record Machine : Type := mkMachine {
  state : DiagnosticState;
  world : World;
  cursor : nat
}.

(** A computation: from a machine to how it ends, the machine then and
    the events it performed. *)
Definition M (A : Type) : Type := Machine -> result A * Machine * list Event.

Definition ret {A : Type} (a : A) : M A := fun m => (Val a, m, []).

Definition bind {A B : Type} (c : M A) (k : A -> M B) : M B :=
  fun m =>
    match c m with
    | (Val a, m1, t1) =>
        match k a m1 with
        | (r, m2, t2) => (r, m2, t1 ++ t2)
        end
    | (Exc e, m1, t1) => (Exc e, m1, t1)
    | (Timeout, m1, t1) => (Timeout, m1, t1)
    end.

Notation "x <- c ;; k" := (bind c (fun x => k))
  (at level 61, c at next level, right associativity).
Notation "c ;; k" := (bind c (fun _ => k))
  (at level 61, right associativity).

Definition raise {A : Type} (e : exn) : M A := fun m => (Exc e, m, []).
Definition timeout {A : Type} : M A := fun m => (Timeout, m, []).
Definition emit (e : Event) : M unit := fun m => (Val tt, m, [e]).
Definition get_state : M DiagnosticState := fun m => (Val (state m), m, []).

(** The machine after [state[key] = f(state)]. *)
Definition store (f : DiagnosticState -> DiagnosticState) (m : Machine) : Machine :=
  mkMachine (f (state m)) (world m) (cursor m).

(** The machine after an agent call that left the world as [w]. *)
Definition returned (w : World) (m : Machine) : Machine :=
  mkMachine (state m) w (cursor m).

(** The machine after one line was read from the console. *)
Definition advance (m : Machine) : Machine :=
  mkMachine (state m) (world m) (S (cursor m)).

(** [state[key] = f(state)] *)
Definition assign (f : DiagnosticState -> DiagnosticState) : M unit :=
  fun m => (Val tt, store f m, [Stored (f (state m))]).

(** [self.<agent>.<method>(state)] *)
Definition call {A : Type} (a : Agent)
           (method : DiagnosticState -> World -> outcome A * World) : M A :=
  fun m =>
    match method (state m) (world m) with
    | (Ok out, w) => (Val out, returned w m, [Called a (state m)])
    | (Raise e, w) => (Exc e, returned w m, [Called a (state m)])
    end.

(** [await asyncio.to_thread(input, prompt)]; at the end of the input
    [input] raises [EOFError]. *)
Definition input_line : M string :=
  fun m =>
    match console (cursor m) with
    | Some line => (Val line, advance m, [Prompted (Some line)])
    | None => (Exc EOFError, advance m, [Prompted None])
    end.

(** [human_decision[key]] *)
Definition lookup {A : Type} (key : string) (o : option A) : M A :=
  match o with
  | Some a => ret a
  | None => raise (KeyError key)
  end.

(** The [while True] loop of [_human_in_the_loop_review]. *)
Fixpoint ask (fuel : nat) : M HumanDecision :=
  match fuel with
  | O => timeout
  | S fuel' =>
      choice_raw <- input_line ;;
      let choice := lower (strip choice_raw) in
      if mem choice ["c"; "continue"] then
        ret {| action := "continue"; new_plan := None |}
      else if mem choice ["s"; "synthesize"] then
        ret {| action := "synthesize"; new_plan := None |}
      else if mem choice ["e"; "edit"] then
        new_plan_str_raw <- input_line ;;
        let new_plan_str := strip new_plan_str_raw in
        ret {| action := "edit"; new_plan := Some (parse_plan new_plan_str) |}
      else if mem choice ["q"; "quit"] then
        ret {| action := "quit"; new_plan := None |}
      else ask fuel'
  end.

Definition _human_in_the_loop_review (fuel : nat) (st : DiagnosticState)
  : M HumanDecision :=
  emit (Review st) ;;
  human_decision <- ask fuel ;;
  emit (Decided human_decision) ;;
  ret human_decision.

(** [if not state["plan"]: state["ready_for_synthesis"] = True] *)
Definition force_on_empty_plan : M unit :=
  st <- get_state ;;
  if negb (truthy_list (plan st))
  then assign (fun st => with_ready_for_synthesis st true)
  else ret tt.

(** "2. Executor Step": the [if state["plan"]:] block. *)
Definition executor_step : M unit :=
  st <- get_state ;;
  if truthy_list (plan st) then
    executor_output <- call Executor (execute_step agents) ;;
    assign (fun st => with_past_steps st
              (past_steps st ++ get_or (executor_past_steps executor_output) [])) ;;
    assign (fun st => with_plan st (tl (plan st)))
  else ret tt.

(** "3. Replan Step": the call and the merge of its answer. *)
Definition replan_step : M unit :=
  replan_output <- call Replanner (decide_next_action agents) ;;
  (match replan_ready_for_synthesis replan_output with
   | Some b => assign (fun st => with_ready_for_synthesis st b)
   | None => ret tt
   end) ;;
  (match replan_response replan_output with
   | Some r => assign (fun st => with_response st r)
   | None => ret tt
   end) ;;
  st <- get_state ;;
  match replan_plan replan_output with
  | Some (step :: steps) => assign (fun st => with_plan st (plan st ++ step :: steps))
  | Some [] =>
      if negb (ready_for_synthesis st) && negb (truthy (response st))
      then assign (fun st => with_ready_for_synthesis st true)
      else ret tt
  | None => ret tt
  end.

(** "HUMAN IN THE LOOP INTEGRATION".  The value is the iteration counter
    to go on with, or [None] after [break]. *)
Definition human_review_step (fuel : nat) (current_iteration : nat) : M (option nat) :=
  st <- get_state ;;
  if negb (ready_for_synthesis st) && negb (truthy (response st)) then
    human_decision <- _human_in_the_loop_review fuel st ;;
    if (action human_decision =? "quit")%string then
      assign (fun st => with_response st aborted_by_human) ;;
      ret None
    else if (action human_decision =? "synthesize")%string then
      assign (fun st => with_ready_for_synthesis st true) ;;
      ret (Some current_iteration)
    else if (action human_decision =? "edit")%string then
      edited <- lookup "new_plan" (new_plan human_decision) ;;
      assign (fun st => with_plan st edited) ;;
      ret (Some 0)
    else ret (Some current_iteration)
  else ret (Some current_iteration).

(** One pass through the body of the [while] loop. *)
Definition loop_body (fuel : nat) (current_iteration : nat) : M (option nat) :=
  let current_iteration := current_iteration + 1 in
  emit (Iteration current_iteration) ;;
  force_on_empty_plan ;;
  executor_step ;;
  replan_step ;;
  human_review_step fuel current_iteration.

(** The [while] loop; each pass takes one unit of fuel. *)
Fixpoint main_loop (fuel : nat) (current_iteration : nat) : M unit :=
  st <- get_state ;;
  if negb (ready_for_synthesis st) && negb (truthy (response st))
     && (current_iteration <? max_iterations)
  then
    match fuel with
    | O => timeout
    | S fuel' =>
        next <- loop_body fuel' current_iteration ;;
        match next with
        | None => ret tt
        | Some current_iteration => main_loop fuel' current_iteration
        end
    end
  else ret tt.

(** The statements after the loop, up to [return state["response"]]. *)
Definition conclude : M string :=
  st <- get_state ;;
  (if ready_for_synthesis st && negb (truthy (response st)) then
     synthesizer_output <- call Synthesizer (synthesize_response agents) ;;
     assign (fun st => with_response st
               (get_or (synthesizer_response synthesizer_output) synthesis_error))
   else if negb (truthy (response st)) then
     assign (fun st => with_response st inconclusive)
   else ret tt) ;;
  st <- get_state ;;
  ret (response st).

Definition run_diagnostic_workflow (fuel : nat) (initial_query : string) : M string :=
  assign (fun _ => mkState initial_query [] [] "" false) ;;
  planner_output <- call Planner (create_plan agents) ;;
  assign (fun st => with_plan st (get_or (planner_plan planner_output) [])) ;;
  st <- get_state ;;
  if negb (truthy_list (plan st)) then
    assign (fun st => with_response st planner_failed) ;;
    st <- get_state ;;
    ret (response st)
  else
    main_loop fuel 0 ;;
    conclude.

(** A fresh run: nothing typed yet, the agents' world as it is. *)
Definition start (w : World) : Machine :=
  mkMachine (mkState "" [] [] "" false) w 0.

Definition run (fuel : nat) (initial_query : string) (w : World)
  : result string * Machine * list Event :=
  run_diagnostic_workflow fuel initial_query (start w).

End Workflow.

Arguments mkMachine {World} state world cursor.
Arguments state {World} m.
Arguments world {World} m.
Arguments cursor {World} m.
Arguments ret {World A} a m.
Arguments bind {World A B} c k m.
Arguments raise {World A} e m.
Arguments timeout {World A} m.
Arguments emit {World} e m.
Arguments get_state {World} m.
Arguments assign {World} f m.
Arguments call {World A} a method m.
Arguments lookup {World A} key o.
Arguments start {World} w.
Arguments store {World} f m.
Arguments returned {World} w m.
Arguments advance {World} m.

End Orchestrator.

(* ===================================================================== *)
(** ** What the statements about a run speak of *)
(* ===================================================================== *)

Module Trace.
Import Orchestrator.

(** The agents invoked, in order. *)
Fixpoint agent_calls (t : list Event) : list Agent :=
  match t with
  | [] => []
  | Called a _ :: r => a :: agent_calls r
  | _ :: r => agent_calls r
  end.

(** The numbers announced by the loop passes, in order. *)
Fixpoint iterations (t : list Event) : list nat :=
  match t with
  | [] => []
  | Iteration n :: r => n :: iterations r
  | _ :: r => iterations r
  end.

Definition is_edit (d : HumanDecision) : bool := (action d =? "edit")%string.
Definition is_quit (d : HumanDecision) : bool := (action d =? "quit")%string.

(** How many times the gate returned an edit. *)
Fixpoint edits (t : list Event) : nat :=
  match t with
  | [] => 0
  | Decided d :: r => (if is_edit d then 1 else 0) + edits r
  | _ :: r => edits r
  end.

(** How many times the console was read. *)
Fixpoint prompts (t : list Event) : nat :=
  match t with
  | [] => 0
  | Prompted _ :: r => 1 + prompts r
  | _ :: r => prompts r
  end.

(** What follows the first quit decision in a trace, if there is one. *)
Fixpoint after_quit (t : list Event) : option (list Event) :=
  match t with
  | [] => None
  | Decided d :: r => if is_quit d then Some r else after_quit r
  | _ :: r => after_quit r
  end.

(** The line is one of the tokens for "quit". *)
Definition says_quit (line : string) : bool :=
  PyStr.mem (PyStr.lower (PyStr.strip line)) ["q"; "quit"].

(** The observation points of a run: every event that shows the state,
    with [past_steps] as it is there. *)
Fixpoint observed_past_steps (t : list Event) : list (list (string * string)) :=
  match t with
  | [] => []
  | Called _ st :: r => past_steps st :: observed_past_steps r
  | Stored st :: r => past_steps st :: observed_past_steps r
  | Review st :: r => past_steps st :: observed_past_steps r
  | _ :: r => observed_past_steps r
  end.

(** Events of the automatic steps: agent calls and assignments. *)
Definition is_auto (e : Event) : bool :=
  match e with
  | Called _ _ | Stored _ => true
  | _ => false
  end.

Definition is_prompt (e : Event) : bool :=
  match e with
  | Prompted _ => true
  | _ => false
  end.

(** The four dictionaries the gate can return. *)
Definition well_formed (d : HumanDecision) : Prop :=
  d = mkHumanDecision "continue" None
  \/ d = mkHumanDecision "synthesize" None
  \/ (exists edited, d = mkHumanDecision "edit" (Some edited))
  \/ d = mkHumanDecision "quit" None.

Definition is_prefix {A : Type} (l1 l2 : list A) : Prop :=
  exists rest, l2 = l1 ++ rest.

(** Each element extends the one before it, starting from [p]. *)
Fixpoint append_only {A : Type} (p : list A) (l : list (list A)) : Prop :=
  match l with
  | [] => True
  | x :: r => is_prefix p x /\ append_only x r
  end.

(** The three merges of the Replan step, as functions of the state. *)
Definition merged_ready (out : ReplanOutput) (st : DiagnosticState) : DiagnosticState :=
  match replan_ready_for_synthesis out with
  | Some b => with_ready_for_synthesis st b
  | None => st
  end.

Definition merged_response (out : ReplanOutput) (st : DiagnosticState) : DiagnosticState :=
  match replan_response out with
  | Some r => with_response st r
  | None => st
  end.

Definition merged_plan (out : ReplanOutput) (st : DiagnosticState) : DiagnosticState :=
  match replan_plan out with
  | Some (step :: steps) => with_plan st (plan st ++ step :: steps)
  | Some [] =>
      if negb (ready_for_synthesis st) && negb (PyStr.truthy (response st))
      then with_ready_for_synthesis st true
      else st
  | None => st
  end.

Definition merged (out : ReplanOutput) (st : DiagnosticState) : DiagnosticState :=
  merged_plan out (merged_response out (merged_ready out st)).

(** The assignments the Replan step performs while merging. *)
Definition merge_events (out : ReplanOutput) (st : DiagnosticState) : list Event :=
  (match replan_ready_for_synthesis out with
   | Some _ => [Stored (merged_ready out st)]
   | None => []
   end)
  ++ (match replan_response out with
      | Some _ => [Stored (merged_response out (merged_ready out st))]
      | None => []
      end)
  ++ (let st2 := merged_response out (merged_ready out st) in
      match replan_plan out with
      | Some (_ :: _) => [Stored (merged out st)]
      | Some [] =>
          if negb (ready_for_synthesis st2) && negb (PyStr.truthy (response st2))
          then [Stored (merged out st)]
          else []
      | None => []
      end).

(** The state after the Executor step recorded [out] and popped the head. *)
Definition recorded (out : ExecutorOutput) (st : DiagnosticState) : DiagnosticState :=
  with_past_steps st (past_steps st ++ get_or (executor_past_steps out) []).

Definition popped (st : DiagnosticState) : DiagnosticState :=
  with_plan st (tl (plan st)).

(** The Replanner leaves [ready_for_synthesis] alone: key absent, or false. *)
Definition unset_ready (out : ReplanOutput) : Prop :=
  replan_ready_for_synthesis out = None \/ replan_ready_for_synthesis out = Some false.

(** The Replanner gives no [response]: key absent, or the empty text. *)
Definition unset_response (out : ReplanOutput) : Prop :=
  replan_response out = None \/ replan_response out = Some EmptyString.

(** The Replanner supplies no new step: key [plan] absent, or an empty list. *)
Definition no_new_steps (out : ReplanOutput) : Prop :=
  replan_plan out = None \/ replan_plan out = Some [].

(** The line is one of the tokens for "continue". *)
Definition says_continue (line : string) : bool :=
  PyStr.mem (PyStr.lower (PyStr.strip line)) ["c"; "continue"].

(** The dictionary [run_diagnostic_workflow] starts from. *)
Definition initial_state (initial_query : string) : DiagnosticState :=
  mkState initial_query [] [] "" false.

(** The loop test on the state. *)
Definition open_ended (st : DiagnosticState) : bool :=
  negb (ready_for_synthesis st) && negb (PyStr.truthy (response st)).

End Trace.

(* ===================================================================== *)
(** ** Scripted collaborators, for concrete runs *)
(* ===================================================================== *)

Module Scenarios.
Import Orchestrator.

(** An Executor that reports "done" for the head of the plan. *)
Definition echo_executor (st : DiagnosticState) (w : unit)
  : outcome ExecutorOutput * unit :=
  (Ok (mkExecutorOutput (Some [(hd EmptyString (plan st), "done")])), w).

(** Agents with fixed answers: the plan of the Planner, the dictionary of
    the Replanner, the response of the Synthesizer. *)
Definition crew (initial_plan : list string) (replan : ReplanOutput)
           (final : option string) : Agents unit :=
  mkAgents unit
    (fun _ w => (Ok (mkPlannerOutput (Some initial_plan)), w))
    echo_executor
    (fun _ w => (Ok replan, w))
    (fun _ w => (Ok (mkSynthesizerOutput final), w)).

(** The same, with an Executor whose tool crashes. *)
Definition broken_crew (initial_plan : list string) : Agents unit :=
  mkAgents unit
    (fun _ w => (Ok (mkPlannerOutput (Some initial_plan)), w))
    (fun _ w => (Raise (Raised "tool crashed"), w))
    (fun _ w => (Ok (mkReplanOutput None None None), w))
    (fun _ w => (Ok (mkSynthesizerOutput (Some "final answer")), w)).

(** The same, with an Executor whose answer lacks the key [past_steps]. *)
Definition forgetful_crew (initial_plan : list string) : Agents unit :=
  mkAgents unit
    (fun _ w => (Ok (mkPlannerOutput (Some initial_plan)), w))
    (fun _ w => (Ok (mkExecutorOutput None), w))
    (fun _ w => (Ok (mkReplanOutput None None None), w))
    (fun _ w => (Ok (mkSynthesizerOutput (Some "final answer")), w)).

(** A console on which the same line is typed for ever. *)
Definition always (line : string) : nat -> option string := fun _ => Some line.

(** A console on which [lines] are typed and which is then closed. *)
Definition script (lines : list string) : nat -> option string :=
  fun i => nth_error lines i.

(** A console on which [lines] are typed, then [line] for ever. *)
Definition script_then (lines : list string) (line : string) : nat -> option string :=
  fun i => match nth_error lines i with
           | Some l => Some l
           | None => Some line
           end.

(** The Replanner says nothing at all. *)
Definition silent : ReplanOutput := mkReplanOutput None None None.

(** The Replanner only adds one step. *)
Definition one_more : ReplanOutput := mkReplanOutput None None (Some ["MANUAL: check"]).

(** The Replanner answers with an explicitly empty plan. *)
Definition empty_update : ReplanOutput := mkReplanOutput None None (Some []).

End Scenarios.

(* ===================================================================== *)
(** ** The assumptions and the sentences of the specification *)
(* ===================================================================== *)

Module Claims.
Import PyStr Orchestrator Trace.

(** *** The SCADA query tool *)

(** The sentence as the specification has it: whatever the database and
    the HTTP client do, [query_scada] returns a string. *)
Definition never_raises : Prop :=
  forall (DataFrame : Type) (df_empty : DataFrame -> bool)
         (df_to_string : DataFrame -> string)
         (read_sql : string -> outcome DataFrame)
         (post : ScadaQueryTool.ChatRequest -> outcome ScadaQueryTool.Response)
         (nl_question : string),
  exists s,
    ScadaQueryTool.query_scada DataFrame df_empty df_to_string read_sql post nl_question
    = Ok s.

(** The HTTP client answers every request, and an answer with status
    200 carries the message content. *)
Definition http_answers
  (post : ScadaQueryTool.ChatRequest -> outcome ScadaQueryTool.Response) : Prop :=
  forall request, exists response,
    post request = Ok response
    /\ (ScadaQueryTool.status_code response = 200 ->
        exists s, ScadaQueryTool.json_content response = Ok s).

(** *** Whole-word substitution *)

(** What whole-word substitution makes of one word: the full form of an
    abbreviation of the dictionary, and any other word as it is. *)
Definition expansion (word : string) : string :=
  match find (fun rule => (fst rule =? word)%string) ManualSearchTool.query_mapping with
  | Some rule => snd rule
  | None => word
  end.

(** [word] stands in [before ++ word ++ after] as a whole word: it is a
    run of word characters, not empty, with no word character next to it
    on either side. *)
Definition whole_word (before word after : string) : bool :=
  truthy word && all_word word
  && negb (is_word_opt (last_char before None))
  && negb (is_word_opt (head after)).

(** *** The contract of the agents *)

(** The agents keep their contract: a call returns a dictionary, it does
    not raise. *)
Definition agents_answer {World : Type} (agents : Agents World) : Prop :=
  (forall st w, exists out w', create_plan World agents st w = (Ok out, w'))
  /\ (forall st w, exists out w', execute_step World agents st w = (Ok out, w'))
  /\ (forall st w, exists out w', decide_next_action World agents st w = (Ok out, w'))
  /\ (forall st w, exists out w', synthesize_response World agents st w = (Ok out, w')).

(** The Executor answers every call. *)
Definition executor_answers {World : Type} (agents : Agents World) : Prop :=
  forall st w, exists out w', execute_step World agents st w = (Ok out, w').

(** The Synthesizer keeps its contract: a response it gives is not empty. *)
Definition synthesizer_speaks {World : Type} (agents : Agents World) : Prop :=
  forall st w out w',
    synthesize_response World agents st w = (Ok out, w') ->
    synthesizer_response out <> Some EmptyString.

(** The Replanner answers every call and never sets the flag or a response. *)
Definition replanner_never_concludes {World : Type} (agents : Agents World) : Prop :=
  forall st w, exists out w',
    decide_next_action World agents st w = (Ok out, w')
    /\ unset_ready out /\ unset_response out.

(** Every answer of the Replanner brings at least one new step. *)
Definition replanner_always_supplies {World : Type} (agents : Agents World) : Prop :=
  forall st w out w',
    decide_next_action World agents st w = (Ok out, w') ->
    exists step steps, replan_plan out = Some (step :: steps).

(** No answer of the Replanner is an explicitly empty plan. *)
Definition replanner_never_empties {World : Type} (agents : Agents World) : Prop :=
  forall st w out w',
    decide_next_action World agents st w = (Ok out, w') ->
    replan_plan out <> Some [].

(** The plan will not run empty before the budget does. *)
Definition stocked {World : Type} (agents : Agents World)
           (current_iteration : nat) (st : DiagnosticState) : Prop :=
  (replanner_always_supplies agents /\ plan st <> [])
  \/ max_iterations - current_iteration <= length (plan st).

(** *** The human at the console *)

(** The human answers every prompt with "continue". *)
Definition human_always_continues (console : nat -> option string) : Prop :=
  forall i, exists line, console i = Some line /\ says_continue line = true.

(** The line is a directive the gate accepts, other than edit. *)
Definition settled (line : string) : bool :=
  mem (lower (strip line)) ["c"; "continue"]
  || mem (lower (strip line)) ["s"; "synthesize"]
  || mem (lower (strip line)) ["q"; "quit"].

(** The console stays open, and from its line [n] on the human types
    only accepted directives other than edit. *)
Definition human_settles (console : nat -> option string) (n : nat) : Prop :=
  forall i, exists line, console i = Some line /\ (n <= i -> settled line = true).

(** *** Properties of a trace *)

(** The numbers announced by the passes stay within the budget. *)
Definition within_budget (t : list Event) : Prop :=
  Forall (fun n => 1 <= n <= max_iterations) (iterations t).

(** From [p] the events [t] only extend [past_steps], and lead to [p']. *)
Definition grows (p : list (string * string)) (t : list Event)
           (p' : list (string * string)) : Prop :=
  append_only p (observed_past_steps t) /\ p' = last (observed_past_steps t) p.

(** *** Sentences of the specification that the code does not meet *)

(** Whatever the console does, a run with agents that keep their contract
    returns a text. *)
Definition always_returns_text : Prop :=
  forall (World : Type) (agents : Agents World) (console : nat -> option string)
         (initial_query : string) (w : World),
    agents_answer agents -> synthesizer_speaks agents ->
    exists fuel s m t,
      run World agents console fuel initial_query w = (Val s, m, t).

(** Whenever the Replanner's answer sets neither flag nor response and
    brings no new step, the Replan step of that pass leaves
    [ready_for_synthesis] true. *)
Definition nothing_actionable_forces_synthesis : Prop :=
  forall (World : Type) (agents : Agents World) (m : Machine World)
         (out : ReplanOutput) (w' : World),
    open_ended (state m) = true ->
    decide_next_action World agents (state m) (world m) = (Ok out, w') ->
    unset_ready out -> unset_response out -> no_new_steps out ->
    exists m' t,
      replan_step World agents m = (Val tt, m', t)
      /\ ready_for_synthesis (state m') = true.

(** Whenever the Executor answers in a pass with a non-empty plan, the
    Executor step removes the head from [plan] and adds exactly one pair
    to [past_steps]. *)
Definition every_step_records_one_pair : Prop :=
  forall (World : Type) (agents : Agents World) (m : Machine World)
         (step : string) (rest : list string) (out : ExecutorOutput) (w' : World),
    plan (state m) = step :: rest ->
    execute_step World agents (state m) (world m) = (Ok out, w') ->
    exists pair m' t,
      executor_step World agents m = (Val tt, m', t)
      /\ plan (state m') = rest
      /\ past_steps (state m') = past_steps (state m) ++ [pair].

(** With a Replanner that never concludes and a human who always
    continues, the loop makes five passes and the run returns the
    inconclusive text without a call of the Synthesizer. *)
Definition five_passes_then_inconclusive : Prop :=
  forall (World : Type) (agents : Agents World) (console : nat -> option string)
         (initial_query : string) (w w1 : World) (plan0 : list string),
    create_plan World agents (initial_state initial_query) w
      = (Ok (mkPlannerOutput (Some plan0)), w1) ->
    plan0 <> [] ->
    executor_answers agents ->
    replanner_never_concludes agents ->
    human_always_continues console ->
    exists fuel m t,
      run World agents console fuel initial_query w = (Val inconclusive, m, t)
      /\ iterations t = [1; 2; 3; 4; 5]
      /\ ~ In Synthesizer (agent_calls t).

End Claims.

(* ===================================================================== *)
(** ** More [str] operations *)
(* ===================================================================== *)

Module PyText.

(** [s[:n]] *)
Fixpoint take (n : nat) (s : string) : string :=
  match n, s with
  | O, _ => EmptyString
  | S k, EmptyString => EmptyString
  | S k, String c r => String c (take k r)
  end.

(** [sep.join(parts)] *)
Fixpoint join (sep : string) (parts : list string) : string :=
  match parts with
  | [] => EmptyString
  | [p] => p
  | p :: rest => (p ++ sep ++ join sep rest)%string
  end.

(** The decimal digits of [n], most significant first, before [acc]. *)
Fixpoint digits (fuel n : nat) (acc : string) : string :=
  match fuel with
  | O => acc
  | S fuel' =>
      let acc' := String (ascii_of_nat (48 + n mod 10)) acc in
      if n <? 10 then acc' else digits fuel' (n / 10) acc'
  end.

(** [str(n)] for a natural number. *)
Definition str_nat (n : nat) : string := digits (S n) n EmptyString.

Definition newline : string := String (ascii_of_nat 10) EmptyString.

(** The string has no occurrence of the character. *)
Fixpoint lacks (c : ascii) (s : string) : bool :=
  match s with
  | EmptyString => true
  | String a r => negb (Ascii.eqb a c) && lacks c r
  end.

End PyText.

(* ===================================================================== *)
(** ** [manual/manual_search_tool.py]: the specialised searches *)
(* ===================================================================== *)

Module ManualQueries.
Import PyStr ManualSearchTool.

(** The metadata filter is a dictionary; the empty one is false. *)
Definition Filter : Type := list (string * string).

Definition filter_truthy (filter : Filter) : bool :=
  match filter with
  | [] => false
  | _ :: _ => true
  end.

Section Queries.
Variable Score : Type.
Variable one_minus : Score -> Score.
Variable similarity_search_with_score :
  string -> nat -> option Filter -> outcome (list (Document * Score)).

Definition search :=
  search Score one_minus Filter filter_truthy similarity_search_with_score.

Definition error_code_query (error_code : string) : string :=
  ("error code " ++ error_code ++ " troubleshooting diagnosis solution")%string.

Definition search_by_error_code (error_code : string) (top_k : nat) :=
  search (error_code_query error_code) top_k None.

Definition search_by_equipment_type (equipment_type query : string) (top_k : nat) :=
  search query top_k (Some [("equipment_type", equipment_type)]).

Definition procedure_query (procedure_name : string) : string :=
  (procedure_name ++ " procedure steps instructions method process")%string.

Definition get_procedure_steps (procedure_name : string) (top_k : nat) :=
  search (procedure_query procedure_name) top_k None.

Definition safety_query (context : string) : string :=
  (context ++ " safety precautions warning danger hazard protection")%string.

Definition get_safety_information (context : string) (top_k : nat) :=
  search (safety_query context) top_k None.

Definition specification_query (equipment_name spec_type : string) : string :=
  (equipment_name ++ " " ++ spec_type ++ " specification limits range parameters")%string.

Definition get_specifications (equipment_name spec_type : string) (top_k : nat) :=
  search (specification_query equipment_name spec_type) top_k None.

End Queries.

End ManualQueries.

(* ===================================================================== *)
(** ** Console output *)
(* ===================================================================== *)

Module Console.

(** A value that an f-string formats into the text of a [print]. *)
Inductive Value : Type :=
| Text (s : string)
| Number (n : nat)
| Items (l : list string).

(** One call of [print]: the line of the source file it stands on, which
    fixes the literal parts of its text, and the values formatted into
    the text, in order. *)
Record Output : Type := mkOutput {
  source_line : nat;
  values : list Value
}.

End Console.

(* ===================================================================== *)
(** ** [agents/manual_agent.py] *)
(* ===================================================================== *)

Module ManualAgent.
Import PyStr PyText ManualSearchTool Console.

(** [res['content'][:200] + "..." if len(res['content']) > 200 else res['content']] *)
Definition content_preview (content : string) : string :=
  if 200 <? String.length content
  then (take 200 content ++ "...")%string
  else content.

Section Agent.
Variable Score : Type.
Variable one_minus : Score -> Score.
Variable similarity_search_with_score :
  string -> nat -> option ManualQueries.Filter -> outcome (list (Document * Score)).

(** One line of the answer.  The tool always fills the key [source] of the
    metadata, so the default of [.get('source', 'Unknown')] is never used. *)
Definition format_entry (i : nat) (res : SearchResult Score) : string :=
  (str_nat i ++ ". " ++ content_preview (content Score res)
     ++ " (Source: " ++ source Score res ++ ")")%string.

(** The [for i, res in enumerate(search_results, 1)] loop. *)
Fixpoint format_entries (i : nat) (search_results : list (SearchResult Score))
  : list string :=
  match search_results with
  | [] => []
  | res :: rest => format_entry i res :: format_entries (S i) rest
  end.

(** [ManualAgent.search] with every [print] taken to succeed: the text
    returned and what the tool did. *)
Definition search (user_query : string) (top_k : nat)
  : string * list (Effect ManualQueries.Filter) :=
  match ManualQueries.search Score one_minus similarity_search_with_score
          user_query top_k None with
  | (Ok search_results, effects) =>
      let formatted_results := format_entries 1 search_results in
      (match formatted_results with
       | [] => "No relevant information found."
       | _ :: _ => join newline formatted_results
       end, effects)
  | (Raise e, effects) =>
      (("Manual search error: " ++ ScadaQueryTool.str_exn e)%string, effects)
  end.

(** [print(text)]: [None] when the text is written, or the exception the
    call raises. *)
Variable stdout : Output -> option exn.

(** The handler [except Exception as e]: it prints (line 32) and returns
    the error text. *)
Definition reported (e : exn) : outcome string :=
  match stdout (mkOutput 32 [Text (ScadaQueryTool.str_exn e)]) with
  | None => Ok ("Manual search error: " ++ ScadaQueryTool.str_exn e)%string
  | Some e' => Raise e'
  end.

(** [ManualAgent.search] with its [print] calls: the one of line 19
    stands before the [try], the one of line 29 inside it. *)
Definition search_printing (user_query : string) (top_k : nat)
  : outcome string * list (Effect ManualQueries.Filter) :=
  match stdout (mkOutput 19 [Text user_query; Number top_k]) with
  | Some e => (Raise e, [])
  | None =>
      match ManualQueries.search Score one_minus similarity_search_with_score
              user_query top_k None with
      | (Ok search_results, effects) =>
          let formatted_results := format_entries 1 search_results in
          let result :=
            match formatted_results with
            | [] => "No relevant information found."
            | _ :: _ => join newline formatted_results
            end in
          match stdout (mkOutput 29 []) with
          | None => (Ok result, effects)
          | Some e => (reported e, effects)
          end
      | (Raise e, effects) => (reported e, effects)
      end
  end.

End Agent.

End ManualAgent.

(* ===================================================================== *)
(** ** [scada/scada_query_tool.py]: the statements it can issue *)
(* ===================================================================== *)

Module ScadaStatements.
Import ScadaQueryTool.

(** The one statement that aggregates. *)
Definition aggregate_statement : string :=
  "SELECT AVG(value) as avg_kw FROM scada_logs WHERE metric_name='load_kw'".

(** The SQL texts of the [if / elif] chain. *)
Definition metric_statements : list string :=
  [ "SELECT * FROM scada_logs WHERE metric_name='pressure_psi'";
    "SELECT * FROM scada_logs WHERE metric_name='temperature_celsius'";
    "SELECT * FROM scada_logs WHERE metric_name='vibration_hz'";
    aggregate_statement;
    "SELECT * FROM scada_logs WHERE metric_name='rpm'";
    "SELECT * FROM scada_logs WHERE error_code IS NOT NULL" ].

(** No month, or one of the twelve codes of [month_map]. *)
Definition known_months : list (option string) :=
  None :: map (fun entry => Some (snd entry)) month_map.

(** The condition on the month, when there is one. *)
Definition month_clause (month_filter : option string) : string :=
  match month_filter with
  | Some month => (" AND strftime('%m', timestamp) = '" ++ month ++ "'")%string
  | None => EmptyString
  end.

(** Every statement [query_scada] can build. *)
Definition all_statements : list string :=
  flat_map (fun base => map (complete_query base) known_months) metric_statements.

(** The statement as it should end: the aggregate with a semicolon, the
    others with the order and the limit. *)
Definition closed_statement (base : string) (month_filter : option string) : string :=
  if (base =? aggregate_statement)%string
  then (base ++ month_clause month_filter ++ ";")%string
  else (base ++ month_clause month_filter ++ " ORDER BY timestamp DESC LIMIT 10;")%string.

End ScadaStatements.

(* ===================================================================== *)
(** ** More to say about the gate and about a run *)
(* ===================================================================== *)

Module WorkflowSpec.
Import PyStr PyText Orchestrator Trace.

(** The line is one of the tokens for "edit". *)
Definition says_edit (line : string) : bool :=
  mem (lower (strip line)) ["e"; "edit"].

(** The line is one of the tokens for "synthesize". *)
Definition says_synthesize (line : string) : bool :=
  mem (lower (strip line)) ["s"; "synthesize"].

(** The line is none of the directives: the gate asks again. *)
Definition rejected (line : string) : bool :=
  negb (mem (lower (strip line)) ["c"; "continue"]
        || mem (lower (strip line)) ["s"; "synthesize"]
        || mem (lower (strip line)) ["e"; "edit"]
        || mem (lower (strip line)) ["q"; "quit"]).

(** A step as the gate stores it: not empty, without blanks around it,
    without a comma. *)
Definition clean (step : string) : bool :=
  truthy step && (strip step =? step)%string && lacks "," step.

(** A step as it stands after the comma and the blank that separate it
    from the step before. *)
Definition spaced (step : string) : string := String " " step.

(** The prompts of the lines [first], ..., [first + count - 1]. *)
Definition prompted (console : nat -> option string) (first count : nat) : list Event :=
  map (fun i => Prompted (console i)) (seq first count).

Definition agent_eqb (a b : Agent) : bool :=
  match a, b with
  | Planner, Planner | Executor, Executor
  | Replanner, Replanner | Synthesizer, Synthesizer => true
  | _, _ => false
  end.

(** How often the agent was called. *)
Definition calls_to (a : Agent) (t : list Event) : nat :=
  length (filter (agent_eqb a) (agent_calls t)).

(** The [input] of the state at the observation points of a run. *)
Fixpoint observed_inputs (t : list Event) : list string :=
  match t with
  | [] => []
  | Called _ st :: r => input st :: observed_inputs r
  | Stored st :: r => input st :: observed_inputs r
  | Review st :: r => input st :: observed_inputs r
  | _ :: r => observed_inputs r
  end.

(** The Executor keeps its contract: an answer carries exactly one pair. *)
Definition executor_returns_one_pair {World : Type} (agents : Agents World) : Prop :=
  forall st w out w',
    execute_step World agents st w = (Ok out, w') ->
    exists pair, executor_past_steps out = Some [pair].

End WorkflowSpec.

(* ===================================================================== *)
(** ** [agents/orchestrator.py] with its console output *)
(* ===================================================================== *)

(** Module [Orchestrator] above is the workflow with every [print] taken
    to succeed and with a console that either yields a line or is at the
    end of its input.  This module is the workflow as the terminal sees
    it: each [print] of the source is a call that returns or raises, and
    [input] may raise any exception.  [TerminalFacts.run_on_quiet_terminal]
    relates the two. *)

Module Terminal.
Import PyStr PyText Orchestrator Console.

Section Workflow.
Variable World : Type.
Variable agents : Agents World.
(** [input(prompt)]: what its n-th call returns, or the exception it
    raises ([EOFError] at the end of the input). *)
Variable stdin : nat -> outcome string.
(** [print(text)]: [None] when the text is written, or the exception the
    call raises (the stream cannot encode the text, or is closed). *)
Variable stdout : Output -> option exn.

Local Notation M := (M World).
Local Notation "x <- c ;; k" := (bind c (fun x => k))
  (at level 61, c at next level, right associativity).
Local Notation "c ;; k" := (bind c (fun _ => k))
  (at level 61, right associativity).

(** [print(f"...")] on the given line of [orchestrator.py]. *)
Definition print (source_line : nat) (values : list Value) : M unit :=
  fun m =>
    match stdout (mkOutput source_line values) with
    | None => (Val tt, m, [])
    | Some e => (Exc e, m, [])
    end.

(** [await asyncio.to_thread(input, prompt)] *)
Definition input_line : M string :=
  fun m =>
    match stdin (cursor m) with
    | Ok line => (Val line, advance m, [Prompted (Some line)])
    | Raise e => (Exc e, advance m, [Prompted None])
    end.

(** [str(result)[:100] + "..." if result else "No result"] *)
Definition result_preview (result : string) : string :=
  if truthy result then (take 100 result ++ "...")%string else "No result".

(** The loop over [enumerate(state['past_steps'], 1)]. *)
Fixpoint print_past_steps (i : nat) (past : list (string * string)) : M unit :=
  match past with
  | [] => ret tt
  | (step, result) :: rest =>
      print 52 [Number i; Text step] ;;
      print 55 [Text (result_preview result)] ;;
      print_past_steps (S i) rest
  end.

(** The loop over [enumerate(state['plan'], 1)]. *)
Fixpoint print_plan (i : nat) (steps : list string) : M unit :=
  match steps with
  | [] => ret tt
  | step :: rest =>
      print 62 [Number i; Text step] ;;
      print_plan (S i) rest
  end.

(** The overview and the options, lines 46 to 70. *)
Definition print_overview (st : DiagnosticState) : M unit :=
  print 46 [] ;;
  print 47 [] ;;
  print 48 [Text (input st)] ;;
  print 49 [Number (length (past_steps st))] ;;
  (if truthy_list (past_steps st)
   then print_past_steps 1 (past_steps st)
   else print 57 []) ;;
  print 59 [Number (length (plan st))] ;;
  (if truthy_list (plan st)
   then print_plan 1 (plan st)
   else print 64 []) ;;
  print 66 [] ;;
  print 67 [] ;;
  print 68 [] ;;
  print 69 [] ;;
  print 70 [].

(** The [while True] loop of [_human_in_the_loop_review]. *)
Fixpoint ask (fuel : nat) : M HumanDecision :=
  match fuel with
  | O => timeout
  | S fuel' =>
      choice_raw <- input_line ;;
      let choice := lower (strip choice_raw) in
      if mem choice ["c"; "continue"] then
        ret {| action := "continue"; new_plan := None |}
      else if mem choice ["s"; "synthesize"] then
        ret {| action := "synthesize"; new_plan := None |}
      else if mem choice ["e"; "edit"] then
        print 82 [] ;;
        new_plan_str_raw <- input_line ;;
        let new_plan_str := strip new_plan_str_raw in
        ret {| action := "edit"; new_plan := Some (parse_plan new_plan_str) |}
      else if mem choice ["q"; "quit"] then
        ret {| action := "quit"; new_plan := None |}
      else
        print 90 [] ;;
        ask fuel'
  end.

Definition _human_in_the_loop_review (fuel : nat) (st : DiagnosticState)
  : M HumanDecision :=
  emit (Review st) ;;
  print_overview st ;;
  human_decision <- ask fuel ;;
  emit (Decided human_decision) ;;
  ret human_decision.

(** [if not state["plan"]:], lines 122 to 124. *)
Definition force_on_empty_plan : M unit :=
  st <- get_state ;;
  if negb (truthy_list (plan st))
  then
    print 123 [] ;;
    assign (fun st => with_ready_for_synthesis st true)
  else ret tt.

(** "2. Executor Step", lines 126 to 134. *)
Definition executor_step : M unit :=
  st <- get_state ;;
  if truthy_list (plan st) then
    print 128 [] ;;
    executor_output <- call Executor (execute_step World agents) ;;
    assign (fun st => with_past_steps st
              (past_steps st ++ get_or (executor_past_steps executor_output) [])) ;;
    assign (fun st => with_plan st (tl (plan st))) ;;
    st <- get_state ;;
    print 134 [Items (plan st)]
  else ret tt.

(** "3. Replan Step", lines 136 to 150. *)
Definition replan_step : M unit :=
  print 137 [] ;;
  replan_output <- call Replanner (decide_next_action World agents) ;;
  (match replan_ready_for_synthesis replan_output with
   | Some b => assign (fun st => with_ready_for_synthesis st b)
   | None => ret tt
   end) ;;
  (match replan_response replan_output with
   | Some r => assign (fun st => with_response st r)
   | None => ret tt
   end) ;;
  st <- get_state ;;
  match replan_plan replan_output with
  | Some (step :: steps) =>
      assign (fun st => with_plan st (plan st ++ step :: steps)) ;;
      st <- get_state ;;
      print 147 [Number (length (step :: steps)); Items (plan st)]
  | Some [] =>
      if negb (ready_for_synthesis st) && negb (truthy (response st))
      then
        print 149 [] ;;
        assign (fun st => with_ready_for_synthesis st true)
      else ret tt
  | None => ret tt
  end.

(** "HUMAN IN THE LOOP INTEGRATION", lines 152 to 167. *)
Definition human_review_step (fuel : nat) (current_iteration : nat) : M (option nat) :=
  st <- get_state ;;
  if negb (ready_for_synthesis st) && negb (truthy (response st)) then
    human_decision <- _human_in_the_loop_review fuel st ;;
    if (action human_decision =? "quit")%string then
      assign (fun st => with_response st aborted_by_human) ;;
      print 158 [] ;;
      ret None
    else if (action human_decision =? "synthesize")%string then
      assign (fun st => with_ready_for_synthesis st true) ;;
      print 162 [] ;;
      ret (Some current_iteration)
    else if (action human_decision =? "edit")%string then
      edited <- lookup "new_plan" (new_plan human_decision) ;;
      assign (fun st => with_plan st edited) ;;
      st <- get_state ;;
      print 165 [Items (plan st)] ;;
      ret (Some 0)
    else ret (Some current_iteration)
  else ret (Some current_iteration).

(** One pass through the body of the [while] loop. *)
Definition loop_body (fuel : nat) (current_iteration : nat) : M (option nat) :=
  let current_iteration := current_iteration + 1 in
  emit (Iteration current_iteration) ;;
  print 120 [Number current_iteration] ;;
  force_on_empty_plan ;;
  executor_step ;;
  replan_step ;;
  human_review_step fuel current_iteration.

(** The [while] loop; each pass takes one unit of fuel. *)
Fixpoint main_loop (fuel : nat) (current_iteration : nat) : M unit :=
  st <- get_state ;;
  if negb (ready_for_synthesis st) && negb (truthy (response st))
     && (current_iteration <? max_iterations)
  then
    match fuel with
    | O => timeout
    | S fuel' =>
        next <- loop_body fuel' current_iteration ;;
        match next with
        | None => ret tt
        | Some current_iteration => main_loop fuel' current_iteration
        end
    end
  else ret tt.

(** The statements after the loop, lines 169 to 180. *)
Definition conclude : M string :=
  st <- get_state ;;
  (if ready_for_synthesis st && negb (truthy (response st)) then
     print 171 [] ;;
     synthesizer_output <- call Synthesizer (synthesize_response World agents) ;;
     assign (fun st => with_response st
               (get_or (synthesizer_response synthesizer_output) synthesis_error)) ;;
     print 174 []
   else if negb (truthy (response st)) then
     assign (fun st => with_response st inconclusive) ;;
     print 177 []
   else ret tt) ;;
  print 179 [] ;;
  st <- get_state ;;
  ret (response st).

Definition run_diagnostic_workflow (fuel : nat) (initial_query : string) : M string :=
  assign (fun _ => mkState initial_query [] [] "" false) ;;
  print 104 [Text initial_query] ;;
  print 107 [] ;;
  planner_output <- call Planner (create_plan World agents) ;;
  assign (fun st => with_plan st (get_or (planner_plan planner_output) [])) ;;
  st <- get_state ;;
  if negb (truthy_list (plan st)) then
    assign (fun st => with_response st planner_failed) ;;
    print 112 [] ;;
    st <- get_state ;;
    ret (response st)
  else
    main_loop fuel 0 ;;
    conclude.

Definition run (fuel : nat) (initial_query : string) (w : World)
  : result string * Machine World * list Event :=
  run_diagnostic_workflow fuel initial_query (start w).

(** *** Where an exception comes from *)

(** The call of the agent's method on [st], in the world [w], raises [e]
    and leaves the world [w']. *)
Definition raises (a : Agent) (st : DiagnosticState) (w : World) (e : exn) (w' : World)
  : Prop :=
  match a with
  | Planner => create_plan World agents st w = (Raise e, w')
  | Executor => execute_step World agents st w = (Raise e, w')
  | Replanner => decide_next_action World agents st w = (Raise e, w')
  | Synthesizer => synthesize_response World agents st w = (Raise e, w')
  end.

(** The exception [e], with which the computation stopped in the machine
    [m] after the events [t], was raised by the [input] that was the last
    thing read, by a [print], or by the agent call that is the last event. *)
Definition caused (e : exn) (m : Machine World) (t : list Event) : Prop :=
  (exists i, stdin i = Raise e /\ cursor m = S i)
  \/ (exists o, stdout o = Some e)
  \/ (exists t0 a st w,
        t = t0 ++ [Called a st] /\ raises a st w e (world m)).

(** Every exception the computation stops with has such a cause. *)
Definition explained {A : Type} (c : M A) : Prop :=
  forall m e m' t, c m = (Exc e, m', t) -> caused e m' t.

(** Every value the computation returns satisfies [Q]. *)
Definition returns {A : Type} (c : M A) (Q : A -> Prop) : Prop :=
  forall m a m' t, c m = (Val a, m', t) -> Q a.

End Workflow.

(** The console the gate of module [Orchestrator] reads, for an [input]
    that does not fail except at the end of the input. *)
Definition console_of (stdin : nat -> outcome string) : nat -> option string :=
  fun i =>
    match stdin i with
    | Ok line => Some line
    | Raise _ => None
    end.

(** Every [print] succeeds. *)
Definition prints_succeed (stdout : Output -> option exn) : Prop :=
  forall o, stdout o = None.

(** A terminal on which everything can be printed. *)
Definition quiet : Output -> option exn := fun _ => None.

(** A terminal that cannot encode the text of the given line. *)
Definition failing_at (line : nat) (e : exn) : Output -> option exn :=
  fun o => if source_line o =? line then Some e else None.

(** The lines typed, then the end of the input. *)
Definition typed (lines : list string) : nat -> outcome string :=
  fun i =>
    match nth_error lines i with
    | Some line => Ok line
    | None => Raise EOFError
    end.

(** The lines typed, then the same line for ever. *)
Definition typed_then (lines : list string) (line : string) : nat -> outcome string :=
  fun i =>
    match nth_error lines i with
    | Some l => Ok l
    | None => Ok line
    end.

End Terminal.

(* ===================================================================== *)
(** ** Facts about the string methods *)
(* ===================================================================== *)

Module PyStrFacts.
Import PyStr.

Lemma lstrip_blank (s : string) : blank s = true -> lstrip s = EmptyString.
Proof.
  induction s as [|c r IH]; simpl; intros H.
  - reflexivity.
  - apply andb_true_iff in H as [Hc Hr]. rewrite Hc. auto.
Qed.

Lemma lstrip_head (s : string) :
  blank s = false -> exists c r, lstrip s = String c r /\ isspace c = false.
Proof.
  induction s as [|c r IH]; simpl; intros H.
  - discriminate.
  - destruct (isspace c) eqn:Hc; simpl in H.
    + auto.
    + exists c, r. auto.
Qed.

Lemma rstrip_keeps_text (c : ascii) (r : string) :
  isspace c = false -> truthy (rstrip (String c r)) = true.
Proof.
  intros Hc. simpl. rewrite Hc. destruct (rstrip r); reflexivity.
Qed.

(** [s.strip()] is falsy exactly on the blank strings. *)
Lemma strip_truthy (s : string) : truthy (strip s) = negb (blank s).
Proof.
  unfold strip. destruct (blank s) eqn:Hb; simpl.
  - rewrite lstrip_blank by assumption. reflexivity.
  - destruct (lstrip_head s Hb) as (c & r & -> & Hc).
    now apply rstrip_keeps_text.
Qed.

Lemma append_empty (s : string) : (s ++ "")%string = s.
Proof. induction s; simpl; congruence. Qed.

Lemma prefix_split (word s : string) :
  prefix word s = true ->
  s = (word ++ drop (String.length word) s)%string.
Proof.
  revert s. induction word as [|a w IH]; intros s H.
  - reflexivity.
  - destruct s as [|b r]; simpl in H; [discriminate|].
    destruct (ascii_dec a b) as [->|]; [|discriminate].
    simpl. f_equal. auto.
Qed.

Lemma all_word_append (s t : string) :
  all_word (s ++ t) = all_word s && all_word t.
Proof.
  induction s as [|c r IH]; simpl.
  - reflexivity.
  - rewrite IH. apply andb_assoc.
Qed.

Lemma last_char_word (word : string) (before : option ascii) :
  all_word word = true ->
  word <> EmptyString \/ is_word_opt before = true ->
  is_word_opt (last_char word before) = true.
Proof.
  revert before. induction word as [|c r IH]; simpl; intros before Hw Hb.
  - destruct Hb; [congruence | assumption].
  - apply andb_true_iff in Hw as [Hc Hr]. apply IH; auto.
Qed.

(** After a word character, inside a run of word characters, the
    pattern never matches: there is no boundary to start at. *)
Lemma sub_scan_inside (word repl : string) (s : string) (c : ascii) :
  is_word c = true -> all_word s = true ->
  sub_scan word repl (Some c) 0 s = s.
Proof.
  revert c. induction s as [|a r IH]; intros c Hc Hs; simpl.
  - reflexivity.
  - simpl in Hs. apply andb_true_iff in Hs as [Ha Hr].
    unfold match_word_here, word_boundary. simpl.
    rewrite Hc, Ha. simpl. f_equal. auto.
Qed.

(** A string of word characters is rewritten only when it is the
    word itself. *)
Lemma re_sub_word_inside (word repl s : string) :
  word <> EmptyString -> all_word word = true -> all_word s = true ->
  s <> word -> re_sub_word word repl s = s.
Proof.
  intros Hne Hw Hs Hdiff. unfold re_sub_word.
  destruct s as [|a r]; [reflexivity|].
  assert (Hm : match_word_here word None (String a r) = false).
  { unfold match_word_here.
    destruct (prefix word (String a r)) eqn:Hp.
    - apply prefix_split in Hp.
      set (rest := drop (String.length word) (String a r)) in *.
      assert (Hrest : all_word rest = true).
      { rewrite Hp, all_word_append in Hs.
        now apply andb_true_iff in Hs. }
      destruct rest as [|b rest'].
      + rewrite append_empty in Hp. congruence.
      + simpl in Hrest. apply andb_true_iff in Hrest as [Hb _].
        unfold word_boundary at 2.
        rewrite last_char_word by auto. simpl. rewrite Hb.
        apply andb_false_r.
    - rewrite andb_false_r. reflexivity. }
  simpl sub_scan. rewrite Hm. f_equal.
  simpl in Hs. apply andb_true_iff in Hs as [Ha Hr].
  now apply sub_scan_inside.
Qed.

(** *** Cutting a string where no word goes across *)

Lemma is_word_lower_char (c : ascii) : is_word (lower_char c) = is_word c.
Proof. destruct c as [[] [] [] [] [] [] [] []]; reflexivity. Qed.

Lemma lower_char_not_word (c : ascii) : is_word c = false -> lower_char c = c.
Proof.
  destruct c as [[] [] [] [] [] [] [] []]; intros H; try reflexivity; discriminate H.
Qed.

Lemma lower_append (s t : string) : lower (s ++ t) = (lower s ++ lower t)%string.
Proof. induction s as [|c r IH]; simpl; [reflexivity | now rewrite IH]. Qed.

Lemma append_assoc (s t u : string) : ((s ++ t) ++ u = s ++ (t ++ u))%string.
Proof. induction s as [|c r IH]; simpl; [reflexivity | now rewrite IH]. Qed.

Lemma prefix_length (word s : string) :
  prefix word s = true -> String.length word <= String.length s.
Proof.
  revert s. induction word as [|a w IH]; intros s H; simpl; [lia|].
  destruct s as [|b r]; simpl in H; [discriminate|].
  destruct (ascii_dec a b); [|discriminate].
  apply IH in H. simpl. lia.
Qed.

Lemma prefix_cut (word : string) :
  all_word word = true ->
  forall x y, is_word_opt (head y) = false ->
    prefix word (x ++ y) = prefix word x.
Proof.
  intros Hw. induction word as [|a w IH]; intros x y Hy.
  { destruct x, y; reflexivity. }
  simpl in Hw. apply andb_true_iff in Hw as [Ha Hw].
  destruct x as [|b x].
  - destruct y as [|d y]; [reflexivity|]. simpl in Hy. simpl.
    destruct (ascii_dec a d) as [->|]; [congruence | reflexivity].
  - simpl. destruct (ascii_dec a b); [|reflexivity]. now apply IH.
Qed.

Lemma drop_append (n : nat) (x y : string) :
  n <= String.length x -> drop n (x ++ y) = (drop n x ++ y)%string.
Proof.
  revert x. induction n as [|n IH]; intros x H; [reflexivity|].
  destruct x as [|c r]; simpl in H; [lia|].
  simpl. apply IH. lia.
Qed.

Lemma head_append_word (x y : string) :
  is_word_opt (head y) = false ->
  is_word_opt (head (x ++ y)) = is_word_opt (head x).
Proof. intros Hy. destruct x; [exact Hy | reflexivity]. Qed.

Lemma match_word_here_cut (word : string) (prev : option ascii) (x y : string) :
  all_word word = true -> is_word_opt (head y) = false ->
  match_word_here word prev (x ++ y) = match_word_here word prev x.
Proof.
  intros Hw Hy. unfold match_word_here, word_boundary.
  rewrite head_append_word, prefix_cut by assumption.
  destruct (prefix word x) eqn:Hp.
  - rewrite drop_append by now apply prefix_length.
    rewrite head_append_word by assumption. reflexivity.
  - rewrite !andb_false_r. reflexivity.
Qed.

(** A cut in front of a character that is not a word character: the scan
    of the whole is the scan of the two parts. *)
Lemma sub_scan_cut (word repl : string) (y : string) :
  all_word word = true -> is_word_opt (head y) = false ->
  forall x prev skip, skip <= String.length x ->
    sub_scan word repl prev skip (x ++ y)
    = (sub_scan word repl prev skip x
         ++ sub_scan word repl (last_char x prev) 0 y)%string.
Proof.
  intros Hw Hy. induction x as [|c r IH]; intros prev skip Hskip.
  - simpl in Hskip. replace skip with 0 by lia. reflexivity.
  - cbn [append sub_scan last_char]. destruct skip as [|k].
    + change (String c (r ++ y)) with (String c r ++ y)%string.
      rewrite match_word_here_cut by assumption.
      destruct (match_word_here word prev (String c r)) eqn:Hm.
      * rewrite IH.
        -- now rewrite append_assoc.
        -- unfold match_word_here in Hm.
           apply andb_true_iff in Hm as [Hm _]. apply andb_true_iff in Hm as [_ Hp].
           apply prefix_length in Hp. simpl in Hp. lia.
      * rewrite IH by lia. reflexivity.
    + apply IH. simpl in Hskip. lia.
Qed.

(** Of the character before, the scan only looks at whether it is a
    word character. *)
Lemma sub_scan_prev (word repl : string) (p p' : option ascii) :
  word <> EmptyString -> is_word_opt p = is_word_opt p' ->
  forall skip s, sub_scan word repl p skip s = sub_scan word repl p' skip s.
Proof.
  intros Hne Hp skip s. destruct s as [|c r]; [reflexivity|].
  cbn [sub_scan]. destruct skip; [|reflexivity].
  assert (Hm : match_word_here word p (String c r) = match_word_here word p' (String c r)).
  { unfold match_word_here, word_boundary. rewrite Hp.
    destruct word as [|a w]; [congruence|]. reflexivity. }
  rewrite Hm. reflexivity.
Qed.

Lemma unsnoc (x : string) :
  x <> EmptyString ->
  exists x' c, x = (x' ++ String c EmptyString)%string.
Proof.
  induction x as [|a r IH]; intros H; [congruence|].
  destruct r as [|b r'].
  - exists EmptyString, a. reflexivity.
  - destruct IH as (x' & c & E); [discriminate|].
    exists (String a x'), c. simpl. now rewrite <- E.
Qed.

Lemma last_char_append (x y : string) (prev : option ascii) :
  last_char (x ++ y) prev = last_char y (last_char x prev).
Proof.
  revert prev. induction x as [|c r IH]; intros prev; [reflexivity|].
  simpl. apply IH.
Qed.

Lemma re_sub_word_cut (word repl x y : string) :
  word <> EmptyString -> all_word word = true ->
  is_word_opt (last_char x None) = false \/ is_word_opt (head y) = false ->
  re_sub_word word repl (x ++ y)
  = (re_sub_word word repl x ++ re_sub_word word repl y)%string.
Proof.
  intros Hne Hw Hcut. unfold re_sub_word.
  assert (Hfront : forall x y, is_word_opt (head y) = false ->
            sub_scan word repl None 0 (x ++ y)
            = (sub_scan word repl None 0 x ++ sub_scan word repl None 0 y)%string).
  { intros x0 y0 Hy. rewrite sub_scan_cut by (auto; lia). f_equal.
    destruct y0 as [|d r]; [reflexivity|]. simpl in Hy.
    cbn [sub_scan]. unfold match_word_here.
    assert (Hp : prefix word (String d r) = false).
    { destruct word as [|a w]; [congruence|]. simpl.
      simpl in Hw. apply andb_true_iff in Hw as [Ha _].
      destruct (ascii_dec a d) as [->|]; [congruence | reflexivity]. }
    rewrite Hp, !andb_false_r. reflexivity. }
  destruct Hcut as [Hx | Hy]; [|now apply Hfront].
  destruct x as [|a r]; [reflexivity|].
  destruct (unsnoc (String a r)) as (x' & c & E); [discriminate|].
  rewrite E in *. rewrite last_char_append in Hx. simpl in Hx.
  rewrite append_assoc. cbn [append].
  rewrite (Hfront x' (String c y)) by exact Hx.
  rewrite (Hfront x' (String c EmptyString)) by exact Hx.
  rewrite append_assoc. f_equal.
  cbn [sub_scan append]. unfold match_word_here.
  assert (Hp : forall r, prefix word (String c r) = false).
  { intros r0. destruct word as [|a0 w]; [congruence|]. simpl.
    simpl in Hw. apply andb_true_iff in Hw as [Ha _].
    destruct (ascii_dec a0 c) as [->|]; [congruence | reflexivity]. }
  rewrite !Hp, !andb_false_r. cbn [andb append]. f_equal.
  apply sub_scan_prev; auto.
Qed.

Lemma re_sub_word_head (word repl y : string) :
  word <> EmptyString -> all_word word = true ->
  is_word_opt (head y) = false ->
  is_word_opt (head (re_sub_word word repl y)) = false.
Proof.
  intros Hne Hw Hy. destruct y as [|d r]; [reflexivity|]. simpl in Hy.
  unfold re_sub_word. cbn [sub_scan]. unfold match_word_here.
  assert (Hp : prefix word (String d r) = false).
  { destruct word as [|a w]; [congruence|]. simpl.
    simpl in Hw. apply andb_true_iff in Hw as [Ha _].
    destruct (ascii_dec a d) as [->|]; [congruence | reflexivity]. }
  rewrite Hp, !andb_false_r. cbn [andb]. exact Hy.
Qed.

Lemma re_sub_word_last (word repl x : string) :
  word <> EmptyString -> all_word word = true ->
  is_word_opt (last_char x None) = false ->
  is_word_opt (last_char (re_sub_word word repl x) None) = false.
Proof.
  intros Hne Hw Hx. destruct x as [|a r]; [reflexivity|].
  destruct (unsnoc (String a r)) as (x' & c & E); [discriminate|].
  rewrite E in *. rewrite last_char_append in Hx. simpl in Hx.
  rewrite re_sub_word_cut by auto.
  rewrite last_char_append.
  unfold re_sub_word at 1. cbn [sub_scan]. unfold match_word_here.
  assert (Hp : prefix word (String c EmptyString) = false).
  { destruct word as [|a0 w]; [congruence|]. simpl.
    simpl in Hw. apply andb_true_iff in Hw as [Ha _].
    destruct (ascii_dec a0 c) as [->|]; [congruence | reflexivity]. }
  rewrite Hp, !andb_false_r. cbn [andb]. exact Hx.
Qed.

Lemma re_sub_word_no_word (word repl s : string) :
  word <> EmptyString -> all_word word = true -> no_word s = true ->
  re_sub_word word repl s = s.
Proof.
  intros Hne Hw. unfold re_sub_word. generalize (@None ascii) as prev.
  induction s as [|c r IH]; intros prev Hs; [reflexivity|].
  simpl in Hs. apply andb_true_iff in Hs as [Hc Hr]. apply negb_true_iff in Hc.
  cbn [sub_scan]. unfold match_word_here.
  assert (Hp : prefix word (String c r) = false).
  { destruct word as [|a w]; [congruence|]. simpl.
    simpl in Hw. apply andb_true_iff in Hw as [Ha _].
    destruct (ascii_dec a c) as [->|]; [congruence | reflexivity]. }
  rewrite Hp, !andb_false_r. cbn [andb]. f_equal. now apply IH.
Qed.

Lemma lower_no_word (s : string) : no_word s = true -> lower s = s.
Proof.
  induction s as [|c r IH]; intros H; [reflexivity|].
  simpl in H. apply andb_true_iff in H as [Hc Hr]. apply negb_true_iff in Hc.
  simpl. rewrite lower_char_not_word, IH by assumption. reflexivity.
Qed.

Lemma all_word_lower (s : string) : all_word (lower s) = all_word s.
Proof.
  induction s as [|c r IH]; [reflexivity|].
  simpl. now rewrite is_word_lower_char, IH.
Qed.

Lemma head_lower (s : string) : is_word_opt (head (lower s)) = is_word_opt (head s).
Proof. destruct s; [reflexivity|]. simpl. apply is_word_lower_char. Qed.

Lemma last_char_lower (s : string) :
  forall prev,
    is_word_opt (last_char (lower s) (option_map lower_char prev))
    = is_word_opt (last_char s prev).
Proof.
  induction s as [|c r IH]; intros prev.
  - destruct prev; [apply is_word_lower_char | reflexivity].
  - simpl. apply (IH (Some c)).
Qed.

End PyStrFacts.

(* ===================================================================== *)
(** ** Facts about the manual search tool *)
(* ===================================================================== *)

Module ManualSearchToolFacts.
Import PyStr PyStrFacts ManualSearchTool Claims.

Lemma query_mapping_words (rule : string * string) :
  In rule query_mapping ->
  fst rule <> EmptyString /\ all_word (fst rule) = true.
Proof.
  unfold query_mapping. simpl.
  intros H.
  repeat (destruct H as [<-|H]; [split; [discriminate | reflexivity]|]).
  contradiction.
Qed.

(** *** Whole words *)

Lemma apply_mapping_cut (mapping : list (string * string)) :
  (forall rule, In rule mapping ->
     fst rule <> EmptyString /\ all_word (fst rule) = true) ->
  forall x y,
    is_word_opt (last_char x None) = false \/ is_word_opt (head y) = false ->
    apply_mapping mapping (x ++ y)
    = (apply_mapping mapping x ++ apply_mapping mapping y)%string.
Proof.
  unfold apply_mapping.
  induction mapping as [|rule mapping IH]; intros Hrules x y Hcut; [reflexivity|].
  cbn [fold_left].
  destruct (Hrules rule (or_introl eq_refl)) as [Hne Hw].
  rewrite re_sub_word_cut by auto.
  apply IH.
  - intros r Hr. apply Hrules. now right.
  - destruct Hcut as [Hx | Hy]; [left | right].
    + now apply re_sub_word_last.
    + now apply re_sub_word_head.
Qed.

Lemma preprocess_query_cut (x y : string) :
  is_word_opt (last_char x None) = false \/ is_word_opt (head y) = false ->
  _preprocess_query (x ++ y) = (_preprocess_query x ++ _preprocess_query y)%string.
Proof.
  intros Hcut. unfold _preprocess_query. rewrite lower_append.
  apply apply_mapping_cut; [exact query_mapping_words|].
  destruct Hcut as [Hx | Hy]; [left | right].
  - rewrite <- Hx. apply (last_char_lower x None).
  - rewrite head_lower. exact Hy.
Qed.

Lemma apply_mapping_other_word (mapping : list (string * string)) (s : string) :
  (forall rule, In rule mapping ->
     fst rule <> EmptyString /\ all_word (fst rule) = true /\ fst rule <> s) ->
  all_word s = true ->
  apply_mapping mapping s = s.
Proof.
  unfold apply_mapping. intros Hrules Hs.
  induction mapping as [|rule mapping IH]; [reflexivity|].
  cbn [fold_left].
  destruct (Hrules rule (or_introl eq_refl)) as (Hne & Hw & Hdiff).
  rewrite re_sub_word_inside by auto.
  apply IH. intros r Hr. apply Hrules. now right.
Qed.

Lemma preprocess_query_word (w : string) :
  all_word w = true -> _preprocess_query w = expansion (lower w).
Proof.
  intros Hw. unfold _preprocess_query, expansion.
  destruct (find _ query_mapping) as [rule|] eqn:Hfind.
  - apply find_some in Hfind as [Hin Heq].
    apply String.eqb_eq in Heq. rewrite <- Heq. clear Heq.
    unfold query_mapping in Hin. simpl in Hin.
    repeat (destruct Hin as [<-|Hin]; [vm_compute; reflexivity|]). contradiction.
  - apply apply_mapping_other_word; [|now rewrite all_word_lower].
    intros rule Hin. destruct (query_mapping_words rule Hin) as [Hne Hrule].
    split; [exact Hne|]. split; [exact Hrule|].
    intros E. apply (find_none _ _ Hfind) in Hin. cbv beta in Hin.
    rewrite E, String.eqb_refl in Hin. discriminate.
Qed.

Lemma preprocess_query_no_word (s : string) :
  no_word s = true -> _preprocess_query s = s.
Proof.
  intros Hs. unfold _preprocess_query, apply_mapping.
  rewrite lower_no_word by assumption.
  assert (H : forall mapping,
            (forall rule, In rule mapping ->
               fst rule <> EmptyString /\ all_word (fst rule) = true) ->
            fold_left (fun processed_query rule =>
                         re_sub_word (fst rule) (snd rule) processed_query) mapping s = s).
  { induction mapping as [|rule mapping IH]; intros Hrules; [reflexivity|].
    cbn [fold_left]. destruct (Hrules rule (or_introl eq_refl)) as [Hne Hw].
    rewrite re_sub_word_no_word by auto.
    apply IH. intros r Hr. apply Hrules. now right. }
  apply H. exact query_mapping_words.
Qed.

(** C9.  Query normalisation replaces an abbreviation only where it
    stands as a whole word.  Under the rule "temp" -> "temperature" the
    input "temperature" stays as it is, under that rule alone and under
    the whole of [_preprocess_query]; "check temp now" becomes
    "check temperature now"; and no rule of the dictionary rewrites a
    run of word characters other than its own abbreviation.  In any
    query, a whole word is treated on its own: what stands before it and
    after it is normalised as it would be alone, and the word itself
    becomes, in lower case, the full form if it is an abbreviation and
    itself if it is not, however many abbreviations it contains.  Text
    without word characters stays as it is. *)
Theorem abbreviation_expansion_whole_word :
  re_sub_word "temp" "temperature" "temperature" = "temperature"
  /\ _preprocess_query "temperature" = "temperature"
  /\ re_sub_word "temp" "temperature" "check temp now" = "check temperature now"
  /\ _preprocess_query "check temp now" = "check temperature now"
  /\ (forall rule s,
        In rule query_mapping -> all_word s = true -> s <> fst rule ->
        re_sub_word (fst rule) (snd rule) s = s)
  /\ (forall before word after,
        whole_word before word after = true ->
        _preprocess_query (before ++ word ++ after)
        = (_preprocess_query before ++ expansion (lower word)
             ++ _preprocess_query after)%string)
  /\ (forall s, no_word s = true -> _preprocess_query s = s).
Proof.
  split; [vm_compute; reflexivity|]. split; [vm_compute; reflexivity|].
  split; [vm_compute; reflexivity|]. split; [vm_compute; reflexivity|].
  split; [|split; [|exact preprocess_query_no_word]].
  - intros rule s Hin Hs Hdiff.
    destruct (query_mapping_words rule Hin) as [Hne Hw].
    now apply re_sub_word_inside.
  - intros before word after H. unfold whole_word in H.
    apply andb_true_iff in H as [H Hafter]. apply andb_true_iff in H as [H Hbefore].
    apply andb_true_iff in H as [_ Hword].
    apply negb_true_iff in Hafter, Hbefore.
    rewrite preprocess_query_cut by (left; exact Hbefore).
    rewrite preprocess_query_cut by (right; exact Hafter).
    rewrite (preprocess_query_word word Hword). reflexivity.
Qed.

(** The theorem at work: the abbreviation inside a longer word, after a
    blank, is left alone. *)
Lemma abbreviation_expansion_whole_word_witness :
  _preprocess_query ("check " ++ "Temperature" ++ " now")
  = (_preprocess_query "check " ++ "temperature" ++ _preprocess_query " now")%string.
Proof.
  apply (proj1 (proj2 (proj2 (proj2 (proj2 (proj2 abbreviation_expansion_whole_word)))))
           "check " "Temperature" " now").
  reflexivity.
Defined.

Section Search.
Variable Score : Type.
Variable one_minus : Score -> Score.
Variable Filter : Type.
Variable filter_truthy : Filter -> bool.
Variable similarity_search_with_score :
  string -> nat -> option Filter -> outcome (list (Document * Score)).

Local Notation search :=
  (search Score one_minus Filter filter_truthy similarity_search_with_score).
Local Notation passed_filter := (passed_filter Filter filter_truthy).

(** A query with text in it is preprocessed and sent to the store. *)
Lemma search_text_query (query : string) (top_k : nat) (filter : option Filter) :
  blank query = false ->
  snd (search query top_k filter) =
    [Preprocessed Filter query;
     SimilaritySearch Filter (_preprocess_query query) top_k (passed_filter filter)].
Proof.
  intros Hb. unfold search, ManualSearchTool.search.
  rewrite strip_truthy, Hb. simpl.
  destruct (similarity_search_with_score _ _ _); reflexivity.
Qed.

(** C10.  On a query that is empty or whitespace only, [search] returns
    the empty list and has performed nothing: no query preprocessing
    and no similarity search. *)
Theorem search_blank_query (query : string) (top_k : nat) (filter : option Filter) :
  blank query = true ->
  search query top_k filter = (Ok [], []).
Proof.
  intros Hb. unfold search, ManualSearchTool.search.
  rewrite strip_truthy, Hb. reflexivity.
Qed.

End Search.

Lemma search_blank_query_witness :
  blank "  " = true
  /\ ManualSearchTool.search nat (fun x => x) unit (fun _ => true)
       (fun _ _ _ => Raise EOFError) "  " 5 None = (Ok [], []).
Proof.
  split; [reflexivity|].
  apply (search_blank_query nat (fun x => x) unit (fun _ => true)
           (fun _ _ _ => Raise EOFError) "  " 5 None).
  reflexivity.
Defined.

End ManualSearchToolFacts.

(* ===================================================================== *)
(** ** Facts about the SCADA query tool *)
(* ===================================================================== *)

Module ScadaQueryToolFacts.
Import PyStr ScadaQueryTool Claims.


Section Query.
Variable DataFrame : Type.
Variable df_empty : DataFrame -> bool.
Variable df_to_string : DataFrame -> string.
Variable read_sql : string -> outcome DataFrame.
Variable post : ChatRequest -> outcome Response.

Local Notation query_scada := (query_scada DataFrame df_empty df_to_string read_sql post).

Lemma fallback_response_returns (nl_question : string) :
  http_answers post -> exists s, fallback_response post nl_question = Ok s.
Proof.
  intros H. unfold fallback_response.
  destruct (H (fallback_request nl_question)) as (response & -> & Hjson).
  destruct (Nat.eqb_spec (status_code response) 200) as [E|E]; eauto.
Qed.

Lemma explain_data_with_llm_returns (data_str : string) :
  http_answers post -> exists s, explain_data_with_llm post data_str = Ok s.
Proof.
  intros H. unfold explain_data_with_llm.
  match goal with |- context [post ?r] => destruct (H r) as (response & -> & Hjson) end.
  destruct (Nat.eqb_spec (status_code response) 200) as [E|E]; eauto.
Qed.


End Query.


End ScadaQueryToolFacts.

(* ===================================================================== *)
(** ** Facts about the orchestrator *)
(* ===================================================================== *)

Module OrchestratorFacts.
Import PyStr Orchestrator Trace.

Section Workflow.
Variable World : Type.
Variable agents : Agents World.
Variable console : nat -> option string.

Local Notation M := (M World).
Local Notation Machine := (Machine World).
Local Notation run := (run World agents console).
Local Notation run_diagnostic_workflow := (run_diagnostic_workflow World agents console).
Local Notation main_loop := (main_loop World agents console).
Local Notation loop_body := (loop_body World agents console).
Local Notation conclude := (conclude World agents).
Local Notation executor_step := (executor_step World agents).
Local Notation replan_step := (replan_step World agents).
Local Notation force_on_empty_plan := (force_on_empty_plan World).
Local Notation human_review_step := (human_review_step World console).
Local Notation _human_in_the_loop_review := (_human_in_the_loop_review World console).
Local Notation ask := (ask World console).

(** *** Running a sequence *)

Lemma bind_val {A B : Type} (c : M A) (k : A -> M B) (m m1 : Machine) a t1 :
  c m = (Val a, m1, t1) ->
  bind c k m = (let '(r, m2, t2) := k a m1 in (r, m2, t1 ++ t2)).
Proof. intros H. unfold Orchestrator.bind. rewrite H. reflexivity. Qed.

Lemma bind_exc {A B : Type} (c : M A) (k : A -> M B) (m m1 : Machine) e t1 :
  c m = (Exc e, m1, t1) -> bind c k m = (Exc e, m1, t1).
Proof. intros H. unfold Orchestrator.bind. rewrite H. reflexivity. Qed.

Lemma bind_timeout {A B : Type} (c : M A) (k : A -> M B) (m m1 : Machine) t1 :
  c m = (Timeout, m1, t1) -> bind c k m = (Timeout, m1, t1).
Proof. intros H. unfold Orchestrator.bind. rewrite H. reflexivity. Qed.

(** Every way a sequence can end. *)
Lemma bind_inv {A B : Type} (c : M A) (k : A -> M B) (m m2 : Machine) r t :
  bind c k m = (r, m2, t) ->
  (exists a m1 t1 t2,
      c m = (Val a, m1, t1) /\ k a m1 = (r, m2, t2) /\ t = t1 ++ t2)
  \/ (exists e, c m = (Exc e, m2, t) /\ r = Exc e)
  \/ (c m = (Timeout, m2, t) /\ r = Timeout).
Proof.
  unfold Orchestrator.bind. destruct (c m) as [[[a|e|] m1] t1].
  - destruct (k a m1) as [[r2 m3] t2] eqn:Hk. intros H. inversion H; subst.
    left. exists a, m1, t1, t2. auto.
  - intros H. inversion H; subst. right. left. eauto.
  - intros H. inversion H; subst. right. right. auto.
Qed.

(** *** Projections of a trace *)

Lemma agent_calls_app (t1 t2 : list Event) :
  agent_calls (t1 ++ t2) = agent_calls t1 ++ agent_calls t2.
Proof.
  induction t1 as [|e t1 IH]; simpl; [reflexivity|].
  destruct e; simpl; rewrite ?IH; reflexivity.
Qed.

Lemma iterations_app (t1 t2 : list Event) :
  iterations (t1 ++ t2) = iterations t1 ++ iterations t2.
Proof.
  induction t1 as [|e t1 IH]; simpl; [reflexivity|].
  destruct e; simpl; rewrite ?IH; reflexivity.
Qed.

Lemma edits_app (t1 t2 : list Event) : edits (t1 ++ t2) = edits t1 + edits t2.
Proof.
  induction t1 as [|e t1 IH]; simpl; [reflexivity|].
  destruct e; simpl; rewrite ?IH; lia.
Qed.

Lemma prompts_app (t1 t2 : list Event) : prompts (t1 ++ t2) = prompts t1 + prompts t2.
Proof.
  induction t1 as [|e t1 IH]; simpl; [reflexivity|].
  destruct e; simpl; rewrite ?IH; lia.
Qed.

Lemma observed_past_steps_app (t1 t2 : list Event) :
  observed_past_steps (t1 ++ t2) = observed_past_steps t1 ++ observed_past_steps t2.
Proof.
  induction t1 as [|e t1 IH]; simpl; [reflexivity|].
  destruct e; simpl; rewrite ?IH; reflexivity.
Qed.

Lemma prompts_only (t : list Event) :
  forallb is_prompt t = true ->
  agent_calls t = [] /\ iterations t = [] /\ edits t = 0
  /\ observed_past_steps t = [] /\ prompts t = length t.
Proof.
  induction t as [|e t IH]; simpl; intros H.
  - auto.
  - apply andb_true_iff in H as [He Ht]. destruct (IH Ht) as (? & ? & ? & ? & ?).
    destruct e; try discriminate. simpl. repeat split; auto.
Qed.

Lemma auto_only (t : list Event) :
  forallb is_auto t = true ->
  iterations t = [] /\ edits t = 0 /\ prompts t = 0.
Proof.
  induction t as [|e t IH]; simpl; intros H.
  - auto.
  - apply andb_true_iff in H as [He Ht]. destruct (IH Ht) as (? & ? & ?).
    destruct e; try discriminate; simpl; repeat split; auto.
Qed.

(** *** The Human Review Gate *)

Lemma mem_inv (x a b : string) : mem x [a; b] = true -> x = a \/ x = b.
Proof.
  unfold mem. simpl. rewrite orb_false_r. intros H.
  apply orb_true_iff in H as [H|H]; apply String.eqb_eq in H; auto.
Qed.

(** One turn of the gate's loop, written out. *)
Lemma ask_S (fuel : nat) (m : Machine) :
  ask (S fuel) m =
    match console (cursor m) with
    | None => (Exc EOFError, advance m, [Prompted None])
    | Some line =>
        let choice := lower (strip line) in
        if mem choice ["c"; "continue"] then
          (Val (mkHumanDecision "continue" None), advance m, [Prompted (Some line)])
        else if mem choice ["s"; "synthesize"] then
          (Val (mkHumanDecision "synthesize" None), advance m, [Prompted (Some line)])
        else if mem choice ["e"; "edit"] then
          match console (S (cursor m)) with
          | None =>
              (Exc EOFError, advance (advance m), [Prompted (Some line); Prompted None])
          | Some line2 =>
              (Val (mkHumanDecision "edit" (Some (parse_plan (strip line2)))),
               advance (advance m), [Prompted (Some line); Prompted (Some line2)])
          end
        else if mem choice ["q"; "quit"] then
          (Val (mkHumanDecision "quit" None), advance m, [Prompted (Some line)])
        else
          let '(r, m2, t2) := ask fuel (advance m) in
          (r, m2, Prompted (Some line) :: t2)
    end.
Proof.
  cbn [Orchestrator.ask]. unfold Orchestrator.bind at 1, input_line at 1.
  destruct (console (cursor m)) as [line|]; [|reflexivity].
  cbv zeta.
  destruct (mem (lower (strip line)) ["c"; "continue"]); [reflexivity|].
  destruct (mem (lower (strip line)) ["s"; "synthesize"]); [reflexivity|].
  destruct (mem (lower (strip line)) ["e"; "edit"]).
  { unfold Orchestrator.bind, input_line. cbn [cursor state world advance].
    unfold advance. cbn [cursor state world].
    destruct (console (S (cursor m))); reflexivity. }
  destruct (mem (lower (strip line)) ["q"; "quit"]); [reflexivity|].
  unfold advance. destruct (ask fuel _) as [[r2 m2] t2]. reflexivity.
Qed.

Ltac gate_answer H :=
  inversion H; subst; simpl; repeat split; try lia; try discriminate;
  match goal with
  | E : Val _ = Val _ |- _ => inversion E; subst; unfold well_formed; eauto 6
  end.

(** The loop of the gate only reads the console; it hands back one of
    the four decisions. *)
Lemma ask_inv (fuel : nat) (m m' : Machine) r t :
  ask fuel m = (r, m', t) ->
  state m' = state m /\ world m' = world m
  /\ forallb is_prompt t = true
  /\ cursor m' = cursor m + length t
  /\ (forall d, r = Val d -> well_formed d /\ 0 < length t).
Proof.
  revert m m' r t. induction fuel as [|fuel IH]; intros m m' r t H.
  - inversion H; subst. simpl. repeat split; try lia; discriminate.
  - rewrite ask_S in H.
    destruct (console (cursor m)) as [line|].
    2:{ inversion H; subst. simpl. repeat split; try lia; discriminate. }
    cbv zeta in H.
    destruct (mem _ ["c"; "continue"]); [gate_answer H|].
    destruct (mem _ ["s"; "synthesize"]); [gate_answer H|].
    destruct (mem _ ["e"; "edit"]).
    { destruct (console (S (cursor m))) as [line2|]; gate_answer H. }
    destruct (mem _ ["q"; "quit"]); [gate_answer H|].
    destruct (ask fuel _) as [[r2 m2] t2] eqn:Hask.
    apply IH in Hask as (Hst & Hw & Hp & Hc & Hd). simpl in *.
    inversion H; subst. simpl. repeat split; auto; try lia;
      match goal with
      | E : _ = Val ?d |- _ => destruct (Hd d E); auto; lia
      end.
Qed.

Lemma review_eq (fuel : nat) (st : DiagnosticState) (m : Machine) :
  _human_in_the_loop_review fuel st m =
    let '(r, m', t) := ask fuel m in
    match r with
    | Val d => (Val d, m', Review st :: t ++ [Decided d])
    | Exc e => (Exc e, m', Review st :: t)
    | Timeout => (Timeout, m', Review st :: t)
    end.
Proof.
  unfold Orchestrator._human_in_the_loop_review, Orchestrator.bind, emit, ret.
  destruct (ask fuel m) as [[[d|e|] m'] t]; reflexivity.
Qed.

(** *** The steps of a loop pass, written out *)

Lemma force_on_empty_plan_eq (m : Machine) :
  force_on_empty_plan m =
    if truthy_list (plan (state m)) then (Val tt, m, [])
    else (Val tt, store (fun st => with_ready_for_synthesis st true) m,
          [Stored (with_ready_for_synthesis (state m) true)]).
Proof.
  unfold Orchestrator.force_on_empty_plan, Orchestrator.bind, get_state, assign, ret.
  destruct (truthy_list (plan (state m))); reflexivity.
Qed.

Lemma executor_step_eq (m : Machine) :
  executor_step m =
    if truthy_list (plan (state m)) then
      match execute_step World agents (state m) (world m) with
      | (Ok out, w) =>
          (Val tt,
           mkMachine (popped (recorded out (state m))) w (cursor m),
           [Called Executor (state m);
            Stored (recorded out (state m));
            Stored (popped (recorded out (state m)))])
      | (Raise e, w) => (Exc e, returned w m, [Called Executor (state m)])
      end
    else (Val tt, m, []).
Proof.
  unfold Orchestrator.executor_step, Orchestrator.bind, get_state, assign, call, ret.
  destruct (truthy_list (plan (state m))); [|reflexivity].
  destruct (execute_step World agents (state m) (world m)) as [[out|e] w]; reflexivity.
Qed.

Lemma replan_step_eq (m : Machine) :
  replan_step m =
    match decide_next_action World agents (state m) (world m) with
    | (Ok out, w) =>
        (Val tt, mkMachine (merged out (state m)) w (cursor m),
         Called Replanner (state m) :: merge_events out (state m))
    | (Raise e, w) => (Exc e, returned w m, [Called Replanner (state m)])
    end.
Proof.
  unfold Orchestrator.replan_step, Orchestrator.bind at 1, call.
  destruct (decide_next_action World agents (state m) (world m)) as [[out|e] w];
    [|reflexivity].
  unfold merge_events, merged, merged_plan, merged_response, merged_ready.
  destruct out as [[b|] [r|] [[|step steps]|]];
    cbn [replan_ready_for_synthesis replan_response replan_plan];
    unfold Orchestrator.bind, assign, ret, get_state, store, returned;
    cbn [state world cursor app];
    try reflexivity;
    match goal with
    | |- context [if ?c then _ else _] => destruct c; reflexivity
    end.
Qed.

Lemma human_review_step_eq (fuel current_iteration : nat) (m : Machine) :
  human_review_step fuel current_iteration m =
    if open_ended (state m) then
      let '(r, m', t) := ask fuel m in
      match r with
      | Val d =>
          if (action d =? "quit")%string then
            (Val None, store (fun st => with_response st aborted_by_human) m',
             Review (state m) :: t
               ++ [Decided d; Stored (with_response (state m') aborted_by_human)])
          else if (action d =? "synthesize")%string then
            (Val (Some current_iteration),
             store (fun st => with_ready_for_synthesis st true) m',
             Review (state m) :: t
               ++ [Decided d; Stored (with_ready_for_synthesis (state m') true)])
          else if (action d =? "edit")%string then
            match new_plan d with
            | Some edited =>
                (Val (Some 0), store (fun st => with_plan st edited) m',
                 Review (state m) :: t
                   ++ [Decided d; Stored (with_plan (state m') edited)])
            | None =>
                (Exc (KeyError "new_plan"), m', Review (state m) :: t ++ [Decided d])
            end
          else (Val (Some current_iteration), m', Review (state m) :: t ++ [Decided d])
      | Exc e => (Exc e, m', Review (state m) :: t)
      | Timeout => (Timeout, m', Review (state m) :: t)
      end
    else (Val (Some current_iteration), m, []).
Proof.
  unfold Orchestrator.human_review_step, Orchestrator.bind at 1, get_state, open_ended.
  destruct (negb (ready_for_synthesis (state m)) && negb (truthy (response (state m))));
    [|reflexivity].
  unfold Orchestrator.bind at 1. rewrite review_eq.
  destruct (ask fuel m) as [[[d|e|] m'] t]; try reflexivity.
  destruct (action d =? "quit")%string.
  { unfold Orchestrator.bind, assign, ret. simpl. rewrite <- app_assoc. reflexivity. }
  destruct (action d =? "synthesize")%string.
  { unfold Orchestrator.bind, assign, ret. simpl. rewrite <- app_assoc. reflexivity. }
  destruct (action d =? "edit")%string.
  { destruct (new_plan d) as [edited|];
      unfold Orchestrator.bind, assign, ret, lookup, raise; simpl;
      rewrite <- ?app_assoc, ?app_nil_r; reflexivity. }
  unfold ret. rewrite app_nil_r. reflexivity.
Qed.

Lemma loop_body_eq (fuel current_iteration : nat) (m : Machine) :
  loop_body fuel current_iteration m =
    let '(_, m1, t1) := force_on_empty_plan m in
    match executor_step m1 with
    | (Val _, m2, t2) =>
        match replan_step m2 with
        | (Val _, m3, t3) =>
            let '(r, m4, t4) := human_review_step fuel (current_iteration + 1) m3 in
            (r, m4, Iteration (current_iteration + 1) :: t1 ++ t2 ++ t3 ++ t4)
        | (Exc e, m3, t3) =>
            (Exc e, m3, Iteration (current_iteration + 1) :: t1 ++ t2 ++ t3)
        | (Timeout, m3, t3) =>
            (Timeout, m3, Iteration (current_iteration + 1) :: t1 ++ t2 ++ t3)
        end
    | (Exc e, m2, t2) => (Exc e, m2, Iteration (current_iteration + 1) :: t1 ++ t2)
    | (Timeout, m2, t2) => (Timeout, m2, Iteration (current_iteration + 1) :: t1 ++ t2)
    end.
Proof.
  unfold Orchestrator.loop_body, Orchestrator.bind, emit.
  rewrite force_on_empty_plan_eq.
  destruct (truthy_list (plan (state m)));
    (destruct (executor_step _) as [[[[]|e|] m2] t2]; try reflexivity;
     destruct (replan_step m2) as [[[[]|e|] m3] t3]; try reflexivity;
     destruct (human_review_step _ _ m3) as [[r m4] t4]; reflexivity).
Qed.

Lemma main_loop_eq (fuel current_iteration : nat) (m : Machine) :
  main_loop fuel current_iteration m =
    if open_ended (state m) && (current_iteration <? max_iterations) then
      match fuel with
      | O => (Timeout, m, [])
      | S fuel' =>
          match loop_body fuel' current_iteration m with
          | (Val None, m1, t1) => (Val tt, m1, t1)
          | (Val (Some next), m1, t1) =>
              let '(r, m2, t2) := main_loop fuel' next m1 in (r, m2, t1 ++ t2)
          | (Exc e, m1, t1) => (Exc e, m1, t1)
          | (Timeout, m1, t1) => (Timeout, m1, t1)
          end
      end
    else (Val tt, m, []).
Proof.
  destruct fuel as [|fuel']; cbn [Orchestrator.main_loop];
    unfold Orchestrator.bind at 1, get_state, open_ended;
    destruct (negb (ready_for_synthesis (state m)) && negb (truthy (response (state m)))
              && (current_iteration <? max_iterations)); try reflexivity.
  unfold Orchestrator.bind.
  destruct (loop_body fuel' current_iteration m) as [[[[next|]|e|] m1] t1];
    try reflexivity.
  - destruct (main_loop fuel' next m1) as [[r m2] t2]. reflexivity.
  - unfold ret. cbn [app]. rewrite app_nil_r. reflexivity.
Qed.

Lemma conclude_eq (m : Machine) :
  conclude m =
    if ready_for_synthesis (state m) && negb (truthy (response (state m))) then
      match synthesize_response World agents (state m) (world m) with
      | (Ok out, w) =>
          let answer := get_or (synthesizer_response out) synthesis_error in
          (Val answer, mkMachine (with_response (state m) answer) w (cursor m),
           [Called Synthesizer (state m); Stored (with_response (state m) answer)])
      | (Raise e, w) => (Exc e, returned w m, [Called Synthesizer (state m)])
      end
    else if negb (truthy (response (state m))) then
      (Val inconclusive, store (fun st => with_response st inconclusive) m,
       [Stored (with_response (state m) inconclusive)])
    else (Val (response (state m)), m, []).
Proof.
  unfold Orchestrator.conclude, Orchestrator.bind, get_state, assign, call, ret.
  destruct (ready_for_synthesis (state m) && negb (truthy (response (state m)))).
  - destruct (synthesize_response World agents (state m) (world m)) as [[out|e] w];
      reflexivity.
  - destruct (negb (truthy (response (state m)))); reflexivity.
Qed.

Lemma run_eq (fuel : nat) (initial_query : string) (w : World) :
  run fuel initial_query w =
    let st0 := initial_state initial_query in
    match create_plan World agents st0 w with
    | (Ok out, w1) =>
        let st1 := with_plan st0 (get_or (planner_plan out) []) in
        if truthy_list (plan st1) then
          let '(r, m2, t2) := main_loop fuel 0 (mkMachine st1 w1 0) in
          match r with
          | Val _ =>
              let '(r3, m3, t3) := conclude m2 in
              (r3, m3, [Stored st0; Called Planner st0; Stored st1] ++ t2 ++ t3)
          | Exc e => (Exc e, m2, [Stored st0; Called Planner st0; Stored st1] ++ t2)
          | Timeout => (Timeout, m2, [Stored st0; Called Planner st0; Stored st1] ++ t2)
          end
        else
          (Val planner_failed, mkMachine (with_response st1 planner_failed) w1 0,
           [Stored st0; Called Planner st0; Stored st1;
            Stored (with_response st1 planner_failed)])
    | (Raise e, w1) => (Exc e, mkMachine st0 w1 0, [Stored st0; Called Planner st0])
    end.
Proof.
  unfold Orchestrator.run, Orchestrator.run_diagnostic_workflow, start, initial_state.
  unfold Orchestrator.bind at 1, assign at 1, store. cbn [state world cursor].
  unfold Orchestrator.bind at 1, call at 1, returned. cbn [state world cursor].
  destruct (create_plan World agents _ w) as [[out|e] w1]; [|reflexivity].
  unfold Orchestrator.bind at 1, assign at 1, store. cbn [state world cursor].
  unfold Orchestrator.bind at 1, get_state at 1. cbn [state world cursor].
  set (st1 := with_plan _ _).
  destruct (truthy_list (plan st1)); cbn [negb].
  - unfold Orchestrator.bind.
    destruct (main_loop fuel 0 _) as [[[[]|e|] m2] t2]; try reflexivity.
    destruct (conclude m2) as [[r3 m3] t3]. reflexivity.
  - reflexivity.
Qed.

(** *** What the steps leave alone *)

Lemma past_steps_merged (out : ReplanOutput) (st : DiagnosticState) :
  past_steps (merged out st) = past_steps st.
Proof.
  unfold merged, merged_plan, merged_response, merged_ready.
  destruct out as [[b|] [r|] [[|step steps]|]]; simpl; try reflexivity;
    match goal with
    | |- context [if ?c then _ else _] => destruct c; reflexivity
    end.
Qed.

Lemma merge_events_auto (out : ReplanOutput) (st : DiagnosticState) :
  forallb is_auto (merge_events out st) = true
  /\ agent_calls (merge_events out st) = [].
Proof.
  unfold merge_events.
  destruct out as [[b|] [r|] [[|step steps]|]]; simpl; auto;
    match goal with
    | |- context [if ?c then _ else _] => destruct c; simpl; auto
    end.
Qed.

Lemma replan_step_inv (m m' : Machine) r t :
  replan_step m = (r, m', t) ->
  past_steps (state m') = past_steps (state m)
  /\ cursor m' = cursor m
  /\ agent_calls t = [Replanner]
  /\ forallb is_auto t = true.
Proof.
  rewrite replan_step_eq.
  destruct (decide_next_action World agents (state m) (world m)) as [[out|e] w];
    intros H; inversion H; subst; simpl.
  - destruct (merge_events_auto out (state m)) as [Ha Hc].
    rewrite past_steps_merged, Ha, Hc. auto.
  - auto.
Qed.

End Workflow.

(** Splits a result of the review step into the cases of the gate. *)
Ltac review_cases H :=
  rewrite human_review_step_eq in H;
  match type of H with
  | context [open_ended ?st] => destruct (open_ended st) eqn:Hopen
  end;
  [ match type of H with
    | context [Orchestrator.ask _ _ ?fuel ?m] =>
        let Hask := fresh "Hask" in
        let d := fresh "d" in
        destruct (Orchestrator.ask _ _ fuel m) as [[[d| |] ?ma] ?tp] eqn:Hask;
        apply ask_inv in Hask;
        destruct Hask as (Hst & Hw & Hp & Hcur & Hd);
        [ destruct (Hd d eq_refl) as [[->|[->|[[?edited ->]| ->]]] Hlen];
          cbn [action new_plan String.eqb Ascii.eqb Bool.eqb] in H
        | | ];
        inversion H; subst; clear H
    end
  | inversion H; subst; clear H ].

(** An Executor whose answer has no key [past_steps]: the head of the
    plan is removed although nothing was recorded for it. *)
Lemma answer_without_pairs_pops_unrecorded :
  ~ Claims.every_step_records_one_pair
  /\ (let '(_, m, t) :=
        executor_step unit (Scenarios.forgetful_crew [])
          (mkMachine (mkState "q" ["SCADA: pressure"; "MANUAL: valve"] [] "" false) tt 0) in
      plan (state m) = ["MANUAL: valve"] /\ past_steps (state m) = []
      /\ agent_calls t = [Executor]).
Proof.
  split; [|vm_compute; auto].
  intros H.
  destruct (H unit (Scenarios.forgetful_crew [])
              (mkMachine (mkState "q" ["SCADA: pressure"; "MANUAL: valve"] [] "" false) tt 0)
              "SCADA: pressure" ["MANUAL: valve"] (mkExecutorOutput None) tt
              eq_refl eq_refl)
    as (pair & m' & t & Hrun & _ & Hpast).
  vm_compute in Hrun. inversion Hrun; subst. simpl in Hpast. discriminate.
Qed.

Section Passes.
Variable World : Type.
Variable agents : Agents World.
Variable console : nat -> option string.

Local Notation Machine := (Machine World).
Local Notation run := (run World agents console).
Local Notation loop_body := (loop_body World agents console).
Local Notation replan_step := (replan_step World agents).
Local Notation human_review_step := (human_review_step World console).

Lemma human_review_step_inv (fuel current_iteration : nat) (m m' : Machine) r t :
  human_review_step fuel current_iteration m = (r, m', t) ->
  past_steps (state m') = past_steps (state m)
  /\ world m' = world m
  /\ cursor m' = cursor m + prompts t
  /\ agent_calls t = []
  /\ iterations t = []
  /\ edits t <= 1
  /\ (forall next, r = Val (Some next) ->
        (next = current_iteration /\ edits t = 0) \/ (next = 0 /\ edits t = 1)).
Proof.
  intros H. review_cases H;
    try (destruct (prompts_only _ Hp) as (Hc & Hi & He & Ho & Hn));
    cbn [state world cursor store agent_calls iterations edits prompts app];
    rewrite ?agent_calls_app, ?iterations_app, ?edits_app, ?prompts_app;
    cbn [state world cursor store agent_calls iterations edits prompts app
         is_edit action String.eqb Ascii.eqb Bool.eqb];
    rewrite ?Hc, ?Hi, ?He, ?Hn, ?Hst, ?Hw;
    repeat split; auto; try lia;
    intros next E; inversion E; subst; auto.
Qed.

(** C3, as the code has it.  In a loop pass that starts with a non-empty
    plan and in which the Executor answers, the pass first appends to
    [past_steps] the pairs the answer carries under [past_steps] (exactly
    one when the Executor keeps its contract, none when the key is
    missing), the head still in [plan], and only then removes the head,
    and nothing but the head, from [plan].  The Executor is not called
    again in the pass and nothing later in the pass touches [past_steps].
    When the Executor raises, nothing is recorded and nothing is removed:
    the exception ends the pass. *)
Theorem executor_step_records_then_pops
  (fuel current_iteration : nat) (m : Machine)
  (step : string) (rest : list string) :
  plan (state m) = step :: rest ->
  (forall (out : ExecutorOutput) (w' : World),
     execute_step World agents (state m) (world m) = (Ok out, w') ->
     let recorded_state :=
       with_past_steps (state m)
         (past_steps (state m) ++ get_or (executor_past_steps out) []) in
     exists r m' t',
       loop_body fuel current_iteration m
         = (r, m',
            Iteration (current_iteration + 1)
              :: Called Executor (state m)
              :: Stored recorded_state
              :: Stored (with_plan recorded_state rest)
              :: t')
       /\ plan recorded_state = step :: rest
       /\ ~ In Executor (agent_calls t')
       /\ past_steps (state m')
          = past_steps (state m) ++ get_or (executor_past_steps out) []
       /\ (forall pair, executor_past_steps out = Some [pair] ->
             past_steps (state m') = past_steps (state m) ++ [pair])
       /\ (executor_past_steps out = None ->
             past_steps (state m') = past_steps (state m)))
  /\ (forall (e : exn) (w' : World),
       execute_step World agents (state m) (world m) = (Raise e, w') ->
       loop_body fuel current_iteration m
         = (Exc e, mkMachine (state m) w' (cursor m),
            [Iteration (current_iteration + 1); Called Executor (state m)])).
Proof.
  intros Hplan. split.
  - intros out w' Hexec. cbv zeta.
    rewrite loop_body_eq, force_on_empty_plan_eq, Hplan. cbn [truthy_list].
    rewrite executor_step_eq, Hplan, Hexec. cbn [truthy_list].
    unfold recorded, popped. cbn [with_past_steps plan].
    rewrite Hplan. cbn [tl].
    set (st1 := with_past_steps (state m)
                  (past_steps (state m) ++ get_or (executor_past_steps out) [])).
    set (m2 := mkMachine (with_plan st1 rest) w' (cursor m)).
    assert (Hpast2 : past_steps (state m2)
                     = past_steps (state m) ++ get_or (executor_past_steps out) [])
      by reflexivity.
    assert (Hend : forall m' : Machine,
              past_steps (state m') = past_steps (state m2) ->
              past_steps (state m')
              = past_steps (state m) ++ get_or (executor_past_steps out) []
              /\ (forall pair, executor_past_steps out = Some [pair] ->
                    past_steps (state m') = past_steps (state m) ++ [pair])
              /\ (executor_past_steps out = None ->
                    past_steps (state m') = past_steps (state m))).
    { intros m' E. rewrite E, Hpast2. split; [reflexivity|]. split.
      - intros pair ->. reflexivity.
      - intros ->. cbn [get_or]. apply app_nil_r. }
    destruct (replan_step m2) as [[[[]|e|] m3] t3] eqn:Hreplan;
      apply replan_step_inv in Hreplan as (Hpast3 & _ & Hcalls3 & _).
    + destruct (human_review_step fuel (current_iteration + 1) m3)
        as [[r m4] t4] eqn:Hrev.
      apply human_review_step_inv in Hrev as (Hpast4 & _ & _ & Hcalls4 & _).
      exists r, m4, (t3 ++ t4). split; [reflexivity|]. split; [reflexivity|]. split.
      * rewrite agent_calls_app, Hcalls3, Hcalls4. simpl. intros [E|[]]. discriminate.
      * apply Hend. congruence.
    + exists (Exc e), m3, t3. split; [reflexivity|]. split; [reflexivity|]. split.
      * rewrite Hcalls3. simpl. intros [E|[]]. discriminate.
      * apply Hend. exact Hpast3.
    + exists Timeout, m3, t3. split; [reflexivity|]. split; [reflexivity|]. split.
      * rewrite Hcalls3. simpl. intros [E|[]]. discriminate.
      * apply Hend. exact Hpast3.
  - intros e w' Hexec.
    rewrite loop_body_eq, force_on_empty_plan_eq, Hplan. cbn [truthy_list].
    rewrite executor_step_eq, Hplan, Hexec. cbn [truthy_list]. reflexivity.
Qed.

(** C6.  When the Planner hands back no plan (the key absent or the list
    empty), the run ends there on every invocation: it returns the fixed
    planner-failure text, no loop pass starts, the console is not read,
    and the Planner is the only agent that was called. *)
Theorem empty_plan_ends_run
  (fuel : nat) (initial_query : string) (w w' : World) (out : PlannerOutput) :
  create_plan World agents (initial_state initial_query) w = (Ok out, w') ->
  get_or (planner_plan out) [] = [] ->
  exists m t,
    run fuel initial_query w
      = (Val "The planner could not create a valid plan. Please try a different query.",
         m, t)
    /\ agent_calls t = [Planner]
    /\ iterations t = []
    /\ prompts t = 0.
Proof.
  intros Hplanner Hplan.
  rewrite run_eq. cbv zeta. rewrite Hplanner.
  unfold with_plan at 1. cbn [plan]. rewrite Hplan. cbn [truthy_list].
  eexists. eexists. split; [reflexivity|]. simpl. auto.
Qed.

End Passes.

(** The theorem at work: two steps planned, the first one executed. *)
Lemma executor_step_records_then_pops_witness :
  exists r m' t',
    loop_body unit (Scenarios.crew [] Scenarios.one_more (Some "final answer"))
      (Scenarios.always "c") 3 0
      (mkMachine (mkState "q" ["SCADA: pressure"; "MANUAL: valve"] [] "" false) tt 0)
    = (r, m',
       Iteration 1
         :: Called Executor (mkState "q" ["SCADA: pressure"; "MANUAL: valve"] [] "" false)
         :: Stored (mkState "q" ["SCADA: pressure"; "MANUAL: valve"]
                      [("SCADA: pressure", "done")] "" false)
         :: Stored (mkState "q" ["MANUAL: valve"] [("SCADA: pressure", "done")] "" false)
         :: t')
    /\ past_steps (state m') = [("SCADA: pressure", "done")].
Proof.
  destruct (proj1 (executor_step_records_then_pops unit
              (Scenarios.crew [] Scenarios.one_more (Some "final answer"))
              (Scenarios.always "c") 3 0
              (mkMachine (mkState "q" ["SCADA: pressure"; "MANUAL: valve"] [] "" false) tt 0)
              "SCADA: pressure" ["MANUAL: valve"] eq_refl)
              (mkExecutorOutput (Some [("SCADA: pressure", "done")])) tt eq_refl)
    as (r & m' & t' & Hrun & _ & _ & Hpast & _).
  exists r, m', t'. split; [exact Hrun | exact Hpast].
Defined.

(** The theorem at work: a Planner that returns an empty list. *)
Lemma empty_plan_ends_run_witness :
  exists m t,
    run unit (Scenarios.crew [] Scenarios.one_more (Some "final answer"))
      (Scenarios.always "c") 0 "no plan" tt
    = (Val "The planner could not create a valid plan. Please try a different query.",
       m, t)
    /\ agent_calls t = [Planner].
Proof.
  destruct (empty_plan_ends_run unit
              (Scenarios.crew [] Scenarios.one_more (Some "final answer"))
              (Scenarios.always "c") 0 "no plan" tt tt
              (mkPlannerOutput (Some [])) eq_refl eq_refl)
    as (m & t & Hrun & Hcalls & _).
  exists m, t. split; [exact Hrun | exact Hcalls].
Defined.

End OrchestratorFacts.

(* ===================================================================== *)
(** ** The Replan step and the forced synthesis *)
(* ===================================================================== *)

Module ReplanFacts.
Import PyStr Orchestrator Trace Claims OrchestratorFacts.

(** A Replanner that returns the empty dictionary while one step is still
    planned: the flag stays false, the human is asked, and the loop goes on
    to a second pass. *)
Lemma silent_replanner_does_not_force_synthesis :
  ~ nothing_actionable_forces_synthesis
  /\ (let '(_, _, t) :=
        run unit (Scenarios.crew ["SCADA: pressure"; "MANUAL: valve"]
                    Scenarios.silent (Some "final answer"))
            (Scenarios.always "c") 10 "why is the pressure low?" tt in
      firstn 2 (iterations t) = [1; 2] /\ 0 < prompts t).
Proof.
  split.
  - intros H.
    destruct (H unit (Scenarios.crew [] Scenarios.silent None)
                (mkMachine (mkState "q" ["MANUAL: valve"] [] "" false) tt 0)
                Scenarios.silent tt)
      as (m' & t & Hrun & Hready);
      try reflexivity; try (left; reflexivity).
    vm_compute in Hrun. inversion Hrun; subst. discriminate.
  - vm_compute. split; [reflexivity | lia].
Qed.

Section Workflow.
Variable World : Type.
Variable agents : Agents World.
Variable console : nat -> option string.

Local Notation Machine := (Machine World).
Local Notation main_loop := (main_loop World agents console).
Local Notation loop_body := (loop_body World agents console).
Local Notation conclude := (conclude World agents).
Local Notation executor_step := (executor_step World agents).
Local Notation replan_step := (replan_step World agents).
Local Notation force_on_empty_plan := (force_on_empty_plan World).
Local Notation human_review_step := (human_review_step World console).

Lemma merged_empty_update (out : ReplanOutput) (st : DiagnosticState) :
  response st = EmptyString ->
  replan_plan out = Some [] -> unset_ready out -> unset_response out ->
  ready_for_synthesis (merged out st) = true
  /\ response (merged out st) = EmptyString.
Proof.
  intros Hresp Hplan Hready Hresponse.
  unfold merged, merged_plan, merged_response, merged_ready, unset_ready,
    unset_response in *.
  destruct out as [rd rs pl], st as [i p ps resp ready]; simpl in *; subst.
  destruct Hready as [-> | ->], Hresponse as [-> | ->], ready; simpl; auto.
Qed.

Lemma force_on_empty_plan_inv (m m' : Machine) r t :
  force_on_empty_plan m = (r, m', t) ->
  r = Val tt
  /\ response (state m') = response (state m)
  /\ past_steps (state m') = past_steps (state m)
  /\ world m' = world m /\ cursor m' = cursor m
  /\ agent_calls t = []
  /\ forallb is_auto t = true.
Proof.
  rewrite force_on_empty_plan_eq.
  destruct (truthy_list (plan (state m))); intros H; inversion H; subst; simpl;
    repeat split; auto.
Qed.

Lemma executor_step_response (m m' : Machine) r t :
  executor_step m = (r, m', t) ->
  response (state m') = response (state m)
  /\ ready_for_synthesis (state m') = ready_for_synthesis (state m)
  /\ cursor m' = cursor m
  /\ forallb is_auto t = true.
Proof.
  rewrite executor_step_eq.
  destruct (truthy_list (plan (state m))).
  - destruct (execute_step World agents (state m) (world m)) as [[out|e] w];
      intros H; inversion H; subst; simpl; auto.
  - intros H; inversion H; subst; simpl; auto.
Qed.

(** C2, as the code has it.  Take a loop pass that has reached its Replan
    step, and a Replanner that sets neither flag nor response.  If it
    answers with an explicitly empty plan (the key [plan] present, the list
    empty), the Orchestrator sets [ready_for_synthesis] in that same pass:
    the pass ends without consulting the human, the loop stops there, and
    the Synthesizer is what runs next.  If its answer has no key [plan],
    the Replan step forces nothing: it returns with the flag false when
    the Replanner gave the flag (as false), and otherwise with the flag as
    the pass had it before the call, true exactly when the pass had
    started with an empty plan. *)
Theorem empty_plan_update_forces_synthesis
  (fuel current_iteration : nat) (m m1 : Machine) (t1 : list Event)
  (out : ReplanOutput) (w2 : World) :
  open_ended (state m) = true ->
  bind force_on_empty_plan (fun _ => executor_step) m = (Val tt, m1, t1) ->
  decide_next_action World agents (state m1) (world m1) = (Ok out, w2) ->
  unset_ready out -> unset_response out ->
  (replan_plan out = Some [] ->
   exists m2 t,
     loop_body fuel current_iteration m = (Val (Some (current_iteration + 1)), m2, t)
     /\ ready_for_synthesis (state m2) = true
     /\ response (state m2) = EmptyString
     /\ prompts t = 0
     /\ (forall fuel', main_loop fuel' (current_iteration + 1) m2 = (Val tt, m2, []))
     /\ exists r m3 t3, conclude m2 = (r, m3, Called Synthesizer (state m2) :: t3))
  /\ (replan_plan out = None ->
      exists m2 t,
        replan_step m1 = (Val tt, m2, t)
        /\ (replan_ready_for_synthesis out = Some false ->
              ready_for_synthesis (state m2) = false)
        /\ (replan_ready_for_synthesis out = None ->
              ready_for_synthesis (state m2) = ready_for_synthesis (state m1)
              /\ ready_for_synthesis (state m1) = negb (truthy_list (plan (state m))))).
Proof.
  intros Hopen Hpre Hdecide Hready Hresponse.
  assert (Hresp0 : response (state m) = EmptyString).
  { unfold open_ended in Hopen. apply andb_true_iff in Hopen as [_ H].
    destruct (response (state m)); [reflexivity | discriminate]. }
  assert (Hready0 : ready_for_synthesis (state m) = false).
  { unfold open_ended in Hopen. apply andb_true_iff in Hopen as [H _].
    destruct (ready_for_synthesis (state m)); [discriminate | reflexivity]. }
  apply bind_inv in Hpre as [(a & m0 & t0 & t0' & Hforce & Hexec & ->) | [(e & _ & E) | [_ E]]];
    try discriminate.
  destruct (force_on_empty_plan_inv _ _ _ _ Hforce) as (_ & Hr0 & _ & _ & Hc0 & _ & Ha0).
  destruct (executor_step_response _ _ _ _ Hexec) as (Hr1 & Hflag1 & Hc1 & Ha1).
  assert (Hresp1 : response (state m1) = EmptyString) by congruence.
  split.
  - intros Hplan.
    destruct (merged_empty_update out (state m1) Hresp1 Hplan Hready Hresponse)
      as [Hforced Hquiet].
    set (m2 := mkMachine (merged out (state m1)) w2 (cursor m1)).
    assert (Hclosed : open_ended (state m2) = false).
    { unfold open_ended. simpl. rewrite Hforced. reflexivity. }
    exists m2, (Iteration (current_iteration + 1)
                  :: t0 ++ t0' ++ (Called Replanner (state m1) :: merge_events out (state m1)) ++ []).
    split; [|split; [exact Hforced | split; [exact Hquiet | split; [|split]]]].
    + rewrite loop_body_eq, Hforce, Hexec, replan_step_eq, Hdecide.
      fold m2. rewrite human_review_step_eq, Hclosed. reflexivity.
    + destruct (merge_events_auto out (state m1)) as [Hm _].
      assert (Hauto : forallb is_auto
                        (t0 ++ t0' ++ (Called Replanner (state m1)
                                         :: merge_events out (state m1)) ++ []) = true).
      { rewrite !forallb_app, Ha0, Ha1. simpl. rewrite Hm. reflexivity. }
      simpl. apply auto_only in Hauto. tauto.
    + intros fuel'. rewrite main_loop_eq, Hclosed. reflexivity.
    + rewrite conclude_eq. simpl. rewrite Hforced, Hquiet. simpl.
      destruct (synthesize_response World agents _ w2) as [[so|e] w3]; eauto.
  - intros Hplan. rewrite replan_step_eq, Hdecide.
    eexists. eexists. split; [reflexivity|]. cbn [state].
    unfold merged, merged_plan, merged_response, merged_ready. rewrite Hplan.
    split.
    + intros Hgiven. rewrite Hgiven.
      destruct (replan_response out); reflexivity.
    + intros Hgiven. rewrite Hgiven. split.
      * destruct (replan_response out); reflexivity.
      * rewrite Hflag1. rewrite force_on_empty_plan_eq in Hforce.
        destruct (truthy_list (plan (state m))); inversion Hforce; subst.
        -- exact Hready0.
        -- reflexivity.
Qed.

End Workflow.

(** The theorem at work: two steps planned, the Replanner answers with an
    empty plan after the first. *)
Lemma empty_plan_update_forces_synthesis_witness :
  exists m2 t,
    loop_body unit (Scenarios.crew [] Scenarios.empty_update (Some "final answer"))
      (Scenarios.always "c") 3 0
      (mkMachine (mkState "q" ["SCADA: pressure"; "MANUAL: valve"] [] "" false) tt 0)
    = (Val (Some 1), m2, t)
    /\ ready_for_synthesis (state m2) = true
    /\ prompts t = 0.
Proof.
  destruct (empty_plan_update_forces_synthesis unit
              (Scenarios.crew [] Scenarios.empty_update (Some "final answer"))
              (Scenarios.always "c") 3 0
              (mkMachine (mkState "q" ["SCADA: pressure"; "MANUAL: valve"] [] "" false) tt 0)
              (mkMachine (mkState "q" ["MANUAL: valve"] [("SCADA: pressure", "done")] "" false) tt 0)
              [Called Executor (mkState "q" ["SCADA: pressure"; "MANUAL: valve"] [] "" false);
               Stored (mkState "q" ["SCADA: pressure"; "MANUAL: valve"]
                         [("SCADA: pressure", "done")] "" false);
               Stored (mkState "q" ["MANUAL: valve"] [("SCADA: pressure", "done")] "" false)]
              Scenarios.empty_update tt)
    as [Hforced _].
  - reflexivity.
  - reflexivity.
  - reflexivity.
  - left; reflexivity.
  - left; reflexivity.
  - destruct (Hforced eq_refl) as (m2 & t & Hrun & Hready & _ & Hprompts & _).
    exists m2, t. auto.
Defined.

End ReplanFacts.

(* ===================================================================== *)
(** ** Fuel: a finished run does not depend on it *)
(* ===================================================================== *)

Module FuelFacts.
Import PyStr Orchestrator Trace OrchestratorFacts.

Section Workflow.
Variable World : Type.
Variable agents : Agents World.
Variable console : nat -> option string.

Local Notation Machine := (Machine World).
Local Notation run := (run World agents console).
Local Notation main_loop := (main_loop World agents console).
Local Notation loop_body := (loop_body World agents console).
Local Notation human_review_step := (human_review_step World console).
Local Notation ask := (ask World console).

Lemma ask_more_fuel (fuel fuel' : nat) (m m' : Machine) r t :
  fuel <= fuel' -> ask fuel m = (r, m', t) -> r <> Timeout ->
  ask fuel' m = (r, m', t).
Proof.
  revert fuel' m m' r t. induction fuel as [|fuel IH]; intros fuel' m m' r t Hle H Hr.
  - inversion H; subst. congruence.
  - destruct fuel' as [|fuel']; [lia|].
    assert (Hle' : fuel <= fuel') by lia.
    rewrite ask_S in *.
    destruct (console (cursor m)) as [line|]; [|exact H].
    cbv zeta in *.
    destruct (mem _ ["c"; "continue"]); [exact H|].
    destruct (mem _ ["s"; "synthesize"]); [exact H|].
    destruct (mem _ ["e"; "edit"]); [exact H|].
    destruct (mem _ ["q"; "quit"]); [exact H|].
    destruct (ask fuel (advance m)) as [[r2 m2] t2] eqn:Hask.
    inversion H; subst.
    rewrite (IH fuel' _ _ _ _ Hle' Hask Hr). reflexivity.
Qed.

Lemma human_review_step_more_fuel
  (fuel fuel' current_iteration : nat) (m m' : Machine) r t :
  fuel <= fuel' ->
  human_review_step fuel current_iteration m = (r, m', t) -> r <> Timeout ->
  human_review_step fuel' current_iteration m = (r, m', t).
Proof.
  intros Hle H Hr. rewrite human_review_step_eq in *.
  destruct (open_ended (state m)); [|exact H].
  destruct (ask fuel m) as [[ra ma] ta] eqn:Hask.
  assert (Hra : ra <> Timeout).
  { intros ->. inversion H; subst. congruence. }
  rewrite (ask_more_fuel _ _ _ _ _ _ Hle Hask Hra). exact H.
Qed.

Lemma loop_body_more_fuel
  (fuel fuel' current_iteration : nat) (m m' : Machine) r t :
  fuel <= fuel' ->
  loop_body fuel current_iteration m = (r, m', t) -> r <> Timeout ->
  loop_body fuel' current_iteration m = (r, m', t).
Proof.
  intros Hle H Hr. rewrite loop_body_eq in *.
  destruct (force_on_empty_plan World m) as [[r1 m1] t1].
  destruct (executor_step World agents m1) as [[[[]|e|] m2] t2]; try exact H.
  destruct (replan_step World agents m2) as [[[[]|e|] m3] t3]; try exact H.
  destruct (human_review_step fuel _ m3) as [[r4 m4] t4] eqn:Hrev.
  inversion H; subst.
  rewrite (human_review_step_more_fuel _ _ _ _ _ _ _ Hle Hrev Hr). reflexivity.
Qed.

Lemma main_loop_more_fuel
  (fuel fuel' current_iteration : nat) (m m' : Machine) r t :
  fuel <= fuel' ->
  main_loop fuel current_iteration m = (r, m', t) -> r <> Timeout ->
  main_loop fuel' current_iteration m = (r, m', t).
Proof.
  revert fuel' current_iteration m m' r t.
  induction fuel as [|fuel IH]; intros fuel' c m m' r t Hle H Hr;
    rewrite main_loop_eq in H; rewrite main_loop_eq;
    destruct (open_ended (state m) && (c <? max_iterations)); try exact H.
  - inversion H; subst. congruence.
  - destruct fuel' as [|fuel']; [lia|].
    assert (Hle' : fuel <= fuel') by lia.
    destruct (loop_body fuel c m) as [[rb mb] tb] eqn:Hbody.
    assert (Hrb : rb <> Timeout).
    { intros ->. inversion H; subst. congruence. }
    rewrite (loop_body_more_fuel _ fuel' _ _ _ _ _ Hle' Hbody Hrb).
    destruct rb as [[next|]|e|]; try exact H.
    destruct (main_loop fuel next mb) as [[r2 m2] t2] eqn:Hloop.
    inversion H; subst.
    rewrite (IH fuel' _ _ _ _ _ Hle' Hloop Hr). reflexivity.
Qed.

(** A run that ended keeps its result, machine and trace under more fuel. *)
Lemma run_more_fuel (fuel fuel' : nat) (initial_query : string) (w : World)
      (m' : Machine) r t :
  fuel <= fuel' ->
  run fuel initial_query w = (r, m', t) -> r <> Timeout ->
  run fuel' initial_query w = (r, m', t).
Proof.
  intros Hle H Hr. rewrite run_eq in *. cbv zeta in *.
  destruct (create_plan World agents _ w) as [[out|e] w1]; [|exact H].
  destruct (truthy_list _); [|exact H].
  destruct (main_loop fuel 0 _) as [[rl ml] tl] eqn:Hloop.
  assert (Hrl : rl <> Timeout).
  { intros ->. inversion H; subst. congruence. }
  rewrite (main_loop_more_fuel _ _ _ _ _ _ _ Hle Hloop Hrl). exact H.
Qed.

End Workflow.

End FuelFacts.

(* ===================================================================== *)
(** ** Exhausting the iteration budget *)
(* ===================================================================== *)

Module ExhaustionFacts.
Import PyStr Orchestrator Trace Claims OrchestratorFacts FuelFacts.

(** One step planned, a Replanner that returns the empty dictionary, a
    human who always continues: the plan is empty at the second pass, the
    Orchestrator forces synthesis there, and the Synthesizer's answer is
    what the run returns. *)
Lemma short_plan_is_synthesized_after_two_passes :
  ~ five_passes_then_inconclusive
  /\ (let '(r, _, t) :=
        run unit (Scenarios.crew ["SCADA: pressure"] Scenarios.silent
                    (Some "final answer"))
            (Scenarios.always "c") 10 "why is the pressure low?" tt in
      r = Val "final answer" /\ iterations t = [1; 2]
      /\ agent_calls t = [Planner; Executor; Replanner; Replanner; Synthesizer]).
Proof.
  split; [|vm_compute; auto].
  intros H.
  destruct (H unit (Scenarios.crew ["SCADA: pressure"] Scenarios.silent
                      (Some "final answer"))
              (Scenarios.always "c") "q" tt tt ["SCADA: pressure"])
    as (fuel & m & t & Hrun & _).
  - reflexivity.
  - discriminate.
  - intros st w. eexists. eexists. reflexivity.
  - intros st w. eexists. eexists. split; [reflexivity|]. split; left; reflexivity.
  - intros i. exists "c". split; reflexivity.
  - assert (H10 : exists m' t',
               run unit (Scenarios.crew ["SCADA: pressure"] Scenarios.silent
                           (Some "final answer"))
                 (Scenarios.always "c") 10 "q" tt = (Val "final answer", m', t')).
    { eexists. eexists. vm_compute. reflexivity. }
    destruct H10 as (m' & t' & H10).
    apply (run_more_fuel _ _ _ _ (fuel + 10)) in Hrun; [|lia|discriminate].
    apply (run_more_fuel _ _ _ _ (fuel + 10)) in H10; [|lia|discriminate].
    rewrite Hrun in H10. inversion H10.
Qed.

Section Workflow.
Variable World : Type.
Variable agents : Agents World.
Variable console : nat -> option string.

Local Notation Machine := (Machine World).
Local Notation run := (run World agents console).
Local Notation main_loop := (main_loop World agents console).
Local Notation loop_body := (loop_body World agents console).
Local Notation conclude := (conclude World agents).
Local Notation ask := (ask World console).

Hypothesis Hexecutor : executor_answers agents.
Hypothesis Hreplanner : replanner_never_concludes agents.
Hypothesis Hnonempty : replanner_never_empties agents.
Hypothesis Hhuman : human_always_continues console.

Lemma ask_continue (fuel : nat) (m : Machine) :
  exists line,
    ask (S fuel) m
      = (Val (mkHumanDecision "continue" None), advance m, [Prompted (Some line)]).
Proof.
  destruct (Hhuman (cursor m)) as (line & Hline & Hc).
  exists line. rewrite ask_S, Hline. cbv zeta.
  unfold says_continue in Hc. rewrite Hc. reflexivity.
Qed.

Lemma merged_keeps_open (out : ReplanOutput) (st : DiagnosticState) :
  open_ended st = true -> unset_ready out -> unset_response out ->
  replan_plan out <> Some [] ->
  open_ended (merged out st) = true
  /\ plan (merged out st) = plan st ++ get_or (replan_plan out) [].
Proof.
  intros Hopen Hready Hresponse Hplan.
  unfold open_ended, merged, merged_plan, merged_response, merged_ready,
    unset_ready, unset_response in *.
  destruct out as [rd rs pl], st as [i p ps resp ready]; simpl in *.
  apply andb_true_iff in Hopen as [Hr Hs].
  destruct ready; [discriminate|]. destruct resp; [|discriminate].
  destruct Hready as [-> | ->], Hresponse as [-> | ->],
    pl as [[|step steps]|]; simpl; rewrite ?app_nil_r; auto; congruence.
Qed.

(** A pass under these hypotheses: the head is executed, the Replanner
    asked, the human continues. *)
Lemma pass_continues (fuel current_iteration : nat) (m : Machine) :
  open_ended (state m) = true ->
  current_iteration < max_iterations ->
  stocked agents current_iteration (state m) ->
  exists m' t,
    loop_body (S fuel) current_iteration m
      = (Val (Some (current_iteration + 1)), m', t)
    /\ open_ended (state m') = true
    /\ stocked agents (current_iteration + 1) (state m')
    /\ iterations t = [current_iteration + 1]
    /\ agent_calls t = [Executor; Replanner].
Proof.
  intros Hopen Hlt Hstock.
  assert (Hplan : exists step rest, plan (state m) = step :: rest).
  { destruct (plan (state m)) as [|step rest] eqn:E; [|eauto].
    exfalso. destruct Hstock as [[_ Hne] | Hlen].
    - rewrite E in Hne. congruence.
    - rewrite E in Hlen. cbn [length] in Hlen. lia. }
  destruct Hplan as (step & rest & Hplan).
  destruct (Hexecutor (state m) (world m)) as (eo & w1 & Hexec).
  rewrite loop_body_eq, force_on_empty_plan_eq, Hplan. cbn [truthy_list].
  rewrite executor_step_eq, Hplan, Hexec. cbn [truthy_list].
  set (st2 := popped (recorded eo (state m))).
  assert (Hopen2 : open_ended st2 = true) by exact Hopen.
  assert (Hplan2 : plan st2 = rest).
  { unfold st2, popped, recorded. simpl. rewrite Hplan. reflexivity. }
  rewrite replan_step_eq. cbn [state world cursor].
  destruct (Hreplanner st2 w1) as (ro & w2 & Hdecide & Hready & Hresponse).
  rewrite Hdecide.
  destruct (merged_keeps_open ro st2 Hopen2 Hready Hresponse
              (Hnonempty _ _ _ _ Hdecide)) as [Hopen3 Hplan3].
  rewrite human_review_step_eq. cbn [state world cursor]. rewrite Hopen3.
  destruct (ask_continue fuel (mkMachine (merged ro st2) w2 (cursor m)))
    as (line & Hask).
  rewrite Hask. cbn [action String.eqb Ascii.eqb Bool.eqb].
  eexists. eexists. split; [reflexivity|].
  cbn [state advance]. split; [exact Hopen3|]. split; [|split].
  - unfold stocked. rewrite Hplan3, Hplan2.
    destruct Hstock as [[Hsup _] | Hlen].
    + left. split; [exact Hsup|].
      destruct (Hsup _ _ _ _ Hdecide) as (s & l & ->). simpl.
      destruct rest; discriminate.
    + right. rewrite Hplan in Hlen. cbn [length] in Hlen. rewrite length_app. lia.
  - destruct (merge_events_auto ro st2) as [Hauto _].
    apply auto_only in Hauto as (Hi & _ & _).
    cbn [iterations app]. rewrite iterations_app, Hi. reflexivity.
  - destruct (merge_events_auto ro st2) as [_ Hcalls].
    cbn [agent_calls app]. rewrite agent_calls_app, Hcalls. reflexivity.
Qed.

(** The passes left in the budget all run. *)
Lemma loop_runs_out (n : nat) :
  forall (fuel current_iteration : nat) (m : Machine),
    current_iteration + n = max_iterations ->
    n < fuel ->
    open_ended (state m) = true ->
    stocked agents current_iteration (state m) ->
    exists m' t,
      main_loop fuel current_iteration m = (Val tt, m', t)
      /\ open_ended (state m') = true
      /\ iterations t = seq (current_iteration + 1) n
      /\ agent_calls t = concat (repeat [Executor; Replanner] n).
Proof.
  induction n as [|n IH]; intros fuel c m Hsum Hfuel Hopen Hstock.
  - exists m, []. rewrite main_loop_eq, Hopen.
    replace (c <? max_iterations) with false
      by (symmetry; apply Nat.ltb_ge; lia).
    auto.
  - destruct fuel as [|[|fuel]]; try lia.
    assert (Hlt : c < max_iterations) by lia.
    destruct (pass_continues fuel c m Hopen Hlt Hstock)
      as (m1 & t1 & Hbody & Hopen1 & Hstock1 & Hi1 & Hc1).
    assert (Hsum1 : c + 1 + n = max_iterations) by lia.
    assert (Hfuel1 : n < S fuel) by lia.
    destruct (IH (S fuel) (c + 1) m1 Hsum1 Hfuel1 Hopen1 Hstock1)
      as (m2 & t2 & Hloop & Hopen2 & Hi2 & Hc2).
    exists m2, (t1 ++ t2).
    rewrite main_loop_eq, Hopen.
    replace (c <? max_iterations) with true
      by (symmetry; apply Nat.ltb_lt; lia).
    cbn [andb]. rewrite Hbody, Hloop.
    rewrite iterations_app, agent_calls_app, Hi1, Hc1, Hi2, Hc2.
    repeat split; auto.
    simpl. replace (c + 1 + 1) with (S (c + 1)) by lia. reflexivity.
Qed.

(** C7, as the code has it.  Let the Planner answer with a plan that is
    not empty, let the Executor and the Replanner answer every call
    instead of raising, let the Replanner never set [ready_for_synthesis]
    or [response] and never answer with an empty plan, let the human
    always continue, and let the plan not run empty before the budget does
    (the Replanner supplies a step on every call, or the initial plan has
    at least [max_iterations] steps).  Then the loop makes exactly
    [max_iterations] passes, numbered 1 to 5, and the run returns the fixed
    inconclusive text; the Synthesizer is never called. *)
Theorem budget_exhausted_is_inconclusive
  (fuel : nat) (initial_query : string) (w w1 : World) (po : PlannerOutput) :
  create_plan World agents (initial_state initial_query) w = (Ok po, w1) ->
  get_or (planner_plan po) [] <> [] ->
  replanner_always_supplies agents
    \/ max_iterations <= length (get_or (planner_plan po) []) ->
  max_iterations < fuel ->
  exists m t,
    run fuel initial_query w
      = (Val "The diagnostic process completed without a final synthesized response. Please review the past steps for information.",
         m, t)
    /\ iterations t = [1; 2; 3; 4; 5]
    /\ agent_calls t = Planner :: concat (repeat [Executor; Replanner] max_iterations)
    /\ ~ In Synthesizer (agent_calls t).
Proof.
  intros Hplanner Hplan Hsupply Hfuel.
  rewrite run_eq. cbv zeta. rewrite Hplanner.
  set (st1 := with_plan (initial_state initial_query) (get_or (planner_plan po) [])).
  assert (Htruthy : truthy_list (plan st1) = true).
  { unfold st1. cbn [plan with_plan].
    destruct (get_or (planner_plan po) []) eqn:E; [congruence | reflexivity]. }
  rewrite Htruthy.
  destruct (loop_runs_out max_iterations fuel 0 (mkMachine st1 w1 0))
    as (m2 & t2 & Hloop & Hopen2 & Hi2 & Hc2); auto.
  { unfold stocked. cbn [state]. destruct Hsupply as [Hs | Hl]; [left | right].
    - split; [exact Hs | exact Hplan].
    - unfold st1. cbn [plan with_plan]. lia. }
  rewrite Hloop, conclude_eq.
  unfold open_ended in Hopen2. apply andb_true_iff in Hopen2 as [Hready Hresp].
  apply negb_true_iff in Hready. rewrite Hready, Hresp. cbn [andb].
  eexists. eexists. split; [reflexivity|].
  cbn [app iterations agent_calls].
  rewrite iterations_app, agent_calls_app, Hi2, Hc2. simpl.
  repeat split; auto.
  intros [E|[E|[E|[E|[E|[E|[E|[E|[E|[E|[E|[]]]]]]]]]]]]; discriminate.
Qed.

End Workflow.

(** The theorem at work: one step planned, one more step supplied after
    every execution, "c" typed at every prompt. *)
Lemma budget_exhausted_is_inconclusive_witness :
  exists m t,
    run unit (Scenarios.crew ["SCADA: pressure"] Scenarios.one_more (Some "final answer"))
      (Scenarios.always "c") 6 "why is the pressure low?" tt
    = (Val inconclusive, m, t)
    /\ iterations t = [1; 2; 3; 4; 5].
Proof.
  destruct (budget_exhausted_is_inconclusive unit
              (Scenarios.crew ["SCADA: pressure"] Scenarios.one_more (Some "final answer"))
              (Scenarios.always "c")
              ltac:(intros st w; eexists; eexists; reflexivity)
              ltac:(intros st w; eexists; eexists;
                    split; [reflexivity | split; left; reflexivity])
              ltac:(intros st w out w' E; inversion E; discriminate)
              ltac:(intros i; exists "c"; split; reflexivity)
              6 "why is the pressure low?" tt tt
              (mkPlannerOutput (Some ["SCADA: pressure"])))
    as (m & t & Hrun & Hi & _).
  - reflexivity.
  - discriminate.
  - left. intros st w out w' E. inversion E. eexists. eexists. reflexivity.
  - unfold max_iterations. lia.
  - exists m, t. auto.
Defined.

End ExhaustionFacts.

(* ===================================================================== *)
(** ** The quit directive *)
(* ===================================================================== *)

Module QuitFacts.
Import PyStr Orchestrator Trace Claims OrchestratorFacts ReplanFacts.

Lemma after_quit_app (t1 t2 : list Event) :
  after_quit (t1 ++ t2) =
    match after_quit t1 with
    | Some post => Some (post ++ t2)
    | None => after_quit t2
    end.
Proof.
  induction t1 as [|e t1 IH]; simpl; [reflexivity|].
  destruct e; auto. destruct (is_quit d); auto.
Qed.

Lemma after_quit_auto (t : list Event) :
  forallb is_auto t = true -> after_quit t = None.
Proof.
  induction t as [|e t IH]; simpl; intros H; [reflexivity|].
  apply andb_true_iff in H as [He Ht]. destruct e; try discriminate; auto.
Qed.

Lemma after_quit_prompts (t : list Event) :
  forallb is_prompt t = true -> after_quit t = None.
Proof.
  induction t as [|e t IH]; simpl; intros H; [reflexivity|].
  apply andb_true_iff in H as [He Ht]. destruct e; try discriminate; auto.
Qed.

(** A quit decision anywhere in a trace: the first one is at that place
    or before it. *)
Lemma after_quit_found (pre post : list Event) (d : HumanDecision) :
  is_quit d = true ->
  exists post', after_quit (pre ++ Decided d :: post) = Some post'
                /\ (post' = post \/ In (Decided d) post').
Proof.
  intros Hq. induction pre as [|e pre IH]; simpl.
  - rewrite Hq. eauto.
  - destruct IH as (post' & Hafter & Hpost).
    destruct e; eauto.
    destruct (is_quit d0); eauto.
    eexists. split; [reflexivity|]. right. apply in_or_app. right. simpl. auto.
Qed.

Section Workflow.
Variable World : Type.
Variable agents : Agents World.
Variable console : nat -> option string.

Local Notation Machine := (Machine World).
Local Notation run := (run World agents console).
Local Notation main_loop := (main_loop World agents console).
Local Notation loop_body := (loop_body World agents console).
Local Notation conclude := (conclude World agents).
Local Notation human_review_step := (human_review_step World console).
Local Notation ask := (ask World console).

(** A line that reads "q" or "quit", in any case and with blanks around
    it, makes the gate return the quit decision. *)
Lemma ask_quit (fuel : nat) (m : Machine) (line : string) :
  console (cursor m) = Some line -> says_quit line = true ->
  ask (S fuel) m
    = (Val (mkHumanDecision "quit" None), advance m, [Prompted (Some line)]).
Proof.
  intros Hline Hq. rewrite ask_S, Hline. cbv zeta.
  unfold says_quit in Hq.
  destruct (mem_inv _ _ _ Hq) as [-> | ->]; reflexivity.
Qed.

Lemma human_review_step_quit (fuel current_iteration : nat) (m m' : Machine) r t :
  human_review_step fuel current_iteration m = (r, m', t) ->
  match after_quit t with
  | Some post =>
      r = Val None /\ post = [Stored (state m')]
      /\ response (state m') = aborted_by_human
  | None => r <> Val None
  end.
Proof.
  intros H. review_cases H;
    cbn [after_quit]; rewrite ?after_quit_app, ?after_quit_prompts by assumption;
    cbn [after_quit is_quit action String.eqb Ascii.eqb Bool.eqb state store];
    try discriminate; auto.
Qed.

Lemma loop_body_quit (fuel current_iteration : nat) (m m' : Machine) r t :
  loop_body fuel current_iteration m = (r, m', t) ->
  match after_quit t with
  | Some post =>
      r = Val None /\ post = [Stored (state m')]
      /\ response (state m') = aborted_by_human
  | None => r <> Val None
  end.
Proof.
  rewrite loop_body_eq.
  destruct (force_on_empty_plan World m) as [[r1 m1] t1] eqn:Hforce.
  apply force_on_empty_plan_inv in Hforce as (_ & _ & _ & _ & _ & _ & Ha1).
  destruct (executor_step World agents m1) as [[r2 m2] t2] eqn:Hexec.
  pose proof (executor_step_response _ _ _ _ _ _ Hexec) as (_ & _ & _ & Ha2).
  destruct r2 as [[]|e|];
    try (intros H; inversion H; subst; cbn [after_quit];
         rewrite after_quit_auto by (rewrite forallb_app, Ha1, Ha2; reflexivity);
         discriminate).
  destruct (replan_step World agents m2) as [[r3 m3] t3] eqn:Hreplan.
  pose proof (replan_step_inv _ _ _ _ _ _ Hreplan) as (_ & _ & _ & Ha3).
  destruct r3 as [[]|e|];
    try (intros H; inversion H; subst; cbn [after_quit];
         rewrite after_quit_auto
           by (rewrite !forallb_app, Ha1, Ha2, Ha3; reflexivity);
         discriminate).
  destruct (human_review_step fuel _ m3) as [[r4 m4] t4] eqn:Hrev.
  apply human_review_step_quit in Hrev.
  intros H; inversion H; subst. cbn [after_quit].
  rewrite !after_quit_app, !after_quit_auto by assumption. exact Hrev.
Qed.

Lemma main_loop_quit (fuel : nat) :
  forall (current_iteration : nat) (m m' : Machine) r t post,
    main_loop fuel current_iteration m = (r, m', t) ->
    after_quit t = Some post ->
    r = Val tt /\ post = [Stored (state m')]
    /\ response (state m') = aborted_by_human.
Proof.
  induction fuel as [|fuel IH]; intros c m m' r t post H Hafter;
    rewrite main_loop_eq in H;
    destruct (open_ended (state m) && (c <? max_iterations));
    try (inversion H; subst; discriminate).
  destruct (loop_body fuel c m) as [[rb mb] tb] eqn:Hbody.
  apply loop_body_quit in Hbody.
  destruct rb as [[next|]|e|].
  - destruct (main_loop fuel next mb) as [[r2 m2] t2] eqn:Hloop.
    inversion H; subst. rewrite after_quit_app in Hafter.
    destruct (after_quit tb) as [p|].
    + destruct Hbody as (E & _). discriminate.
    + eapply IH; eauto.
  - inversion H; subst. rewrite Hafter in Hbody.
    destruct Hbody as (_ & Hp & Hr). auto.
  - inversion H; subst. rewrite Hafter in Hbody.
    destruct Hbody as (E & _). discriminate.
  - inversion H; subst. rewrite Hafter in Hbody.
    destruct Hbody as (E & _). discriminate.
Qed.

Lemma conclude_auto (m m' : Machine) r t :
  conclude m = (r, m', t) -> forallb is_auto t = true.
Proof.
  rewrite conclude_eq.
  destruct (ready_for_synthesis (state m) && negb (truthy (response (state m)))).
  - destruct (synthesize_response World agents (state m) (world m)) as [[out|e] w];
      intros H; inversion H; reflexivity.
  - destruct (negb (truthy (response (state m)))); intros H; inversion H; reflexivity.
Qed.

Lemma run_quit (fuel : nat) (initial_query : string) (w : World)
      (m : Machine) r t post :
  run fuel initial_query w = (r, m, t) ->
  after_quit t = Some post ->
  r = Val aborted_by_human /\ post = [Stored (state m)]
  /\ response (state m) = aborted_by_human.
Proof.
  rewrite run_eq. cbv zeta.
  destruct (create_plan World agents _ w) as [[out|e] w1];
    [|intros H; inversion H; subst; discriminate].
  destruct (truthy_list _); [|intros H; inversion H; subst; discriminate].
  destruct (main_loop fuel 0 _) as [[rl ml] tl] eqn:Hloop.
  pose proof (fun post => main_loop_quit _ _ _ _ _ _ post Hloop) as Hq.
  destruct rl as [[]|e|].
  - destruct (conclude ml) as [[r3 m3] t3] eqn:Hconc.
    intros H Hafter. inversion H; subst. cbn [app after_quit] in Hafter.
    rewrite after_quit_app in Hafter.
    destruct (after_quit tl) as [p|].
    + destruct (Hq p eq_refl) as (_ & -> & Hresp).
      rewrite conclude_eq, Hresp in Hconc.
      rewrite andb_false_r in Hconc. cbn in Hconc.
      inversion Hconc; subst. inversion Hafter; subst.
      rewrite Hresp. auto.
    + apply conclude_auto in Hconc. rewrite after_quit_auto in Hafter by assumption.
      discriminate.
  - intros H Hafter. inversion H; subst. cbn [app after_quit] in Hafter.
    destruct (Hq _ Hafter) as (E & _). discriminate.
  - intros H Hafter. inversion H; subst. cbn [app after_quit] in Hafter.
    destruct (Hq _ Hafter) as (E & _). discriminate.
Qed.

(** C5.  Wherever in a run the Human Review Gate returns the quit
    decision, the run returns exactly "Workflow aborted by human.": after
    that decision the only thing that happens is the assignment of this
    text to [response]; the loop is left at once, and no agent (Executor,
    Replanner, Synthesizer) is called and no prompt shown any more. *)
Theorem quit_aborts_run
  (fuel : nat) (initial_query : string) (w : World) (m : Machine) r
  (pre post : list Event) (d : HumanDecision) :
  run fuel initial_query w = (r, m, pre ++ Decided d :: post) ->
  action d = "quit" ->
  r = Val "Workflow aborted by human."
  /\ response (state m) = "Workflow aborted by human."
  /\ post = [Stored (state m)]
  /\ agent_calls post = [] /\ iterations post = [] /\ prompts post = 0.
Proof.
  intros Hrun Hd.
  assert (Hq : is_quit d = true) by (unfold is_quit; rewrite Hd; reflexivity).
  destruct (after_quit_found pre post d Hq) as (post' & Hafter & Hpost).
  destruct (run_quit _ _ _ _ _ _ _ Hrun Hafter) as (-> & -> & Hresp).
  assert (E : post = [Stored (state m)]).
  { destruct Hpost as [E | [E | []]]; [auto | discriminate]. }
  subst post. repeat split; auto.
Qed.

End Workflow.

(** The theorem at work: the human continues once and then types "Quit". *)
Lemma quit_aborts_run_witness :
  exists m pre post,
    run unit (Scenarios.crew ["SCADA: pressure"] Scenarios.one_more (Some "final answer"))
      (Scenarios.script ["c"; " Quit "]) 10 "why is the pressure low?" tt
    = (Val "Workflow aborted by human.", m, pre ++ Decided (mkHumanDecision "quit" None) :: post)
    /\ post = [Stored (state m)]
    /\ agent_calls post = [].
Proof.
  pose (t := snd (run unit (Scenarios.crew ["SCADA: pressure"] Scenarios.one_more
                              (Some "final answer"))
                    (Scenarios.script ["c"; " Quit "]) 10 "why is the pressure low?" tt)).
  pose (m := snd (fst (run unit (Scenarios.crew ["SCADA: pressure"] Scenarios.one_more
                                   (Some "final answer"))
                         (Scenarios.script ["c"; " Quit "]) 10
                         "why is the pressure low?" tt))).
  exists m, (removelast (removelast t)), [Stored (state m)].
  assert (Hrun :
    run unit (Scenarios.crew ["SCADA: pressure"] Scenarios.one_more (Some "final answer"))
      (Scenarios.script ["c"; " Quit "]) 10 "why is the pressure low?" tt
    = (Val "Workflow aborted by human.", m,
       removelast (removelast t)
         ++ Decided (mkHumanDecision "quit" None) :: [Stored (state m)])).
  { vm_compute. reflexivity. }
  destruct (quit_aborts_run unit _ _ _ _ _ _ _ _ _ _ Hrun eq_refl)
    as (_ & _ & Hpost & Hcalls & _).
  split; [exact Hrun | split; [reflexivity | exact Hcalls]].
Defined.

End QuitFacts.

(* ===================================================================== *)
(** ** [past_steps] only grows *)
(* ===================================================================== *)

Module HistoryFacts.
Import PyStr Orchestrator Trace Claims OrchestratorFacts ReplanFacts.

Lemma is_prefix_refl {A : Type} (l : list A) : is_prefix l l.
Proof. exists []. symmetry. apply app_nil_r. Qed.

Lemma is_prefix_trans {A : Type} (l1 l2 l3 : list A) :
  is_prefix l1 l2 -> is_prefix l2 l3 -> is_prefix l1 l3.
Proof.
  intros [r1 ->] [r2 ->]. exists (r1 ++ r2). symmetry. apply app_assoc.
Qed.

Lemma last_cons_default {A : Type} (l : list A) (y d d' : A) :
  last (y :: l) d = last (y :: l) d'.
Proof.
  revert y. induction l as [|z l IH]; intros y; [reflexivity|].
  change (last (z :: l) d = last (z :: l) d'). apply IH.
Qed.

Lemma append_only_app {A : Type} (p : list A) (l1 l2 : list (list A)) :
  append_only p l1 -> append_only (last l1 p) l2 -> append_only p (l1 ++ l2).
Proof.
  revert p. induction l1 as [|x l1 IH]; intros p H1 H2.
  - exact H2.
  - destruct H1 as [Hp H1]. split; [exact Hp|].
    apply IH; [exact H1|].
    destruct l1 as [|y l1]; [exact H2|].
    rewrite (last_cons_default l1 y x p). exact H2.
Qed.

Lemma last_app_default {A : Type} (l1 l2 : list A) (d : A) :
  last (l1 ++ l2) d = last l2 (last l1 d).
Proof.
  destruct l2 as [|y l2].
  - rewrite app_nil_r. reflexivity.
  - rewrite (last_cons_default l2 y (last l1 d) d).
    induction l1 as [|x l1 IH]; [reflexivity|].
    rewrite <- app_comm_cons.
    destruct l1 as [|z l1]; [reflexivity | exact IH].
Qed.

(** Along a chain, every element is a prefix of every later one. *)
Lemma append_only_pairs {A : Type} (l : list (list A)) :
  forall (p : list A) (i j : nat) (x y : list A),
    append_only p l -> i <= j ->
    nth_error l i = Some x -> nth_error l j = Some y ->
    is_prefix p x /\ is_prefix x y.
Proof.
  induction l as [|z l IH]; intros p i j x y Hchain Hle Hi Hj.
  - destruct i; discriminate.
  - destruct Hchain as [Hpz Hchain].
    destruct i as [|i].
    + inversion Hi; subst. split; [exact Hpz|].
      destruct j as [|j].
      * inversion Hj; subst. apply is_prefix_refl.
      * simpl in Hj.
        destruct (IH x j j y y Hchain (le_n j) Hj Hj) as [H _]. exact H.
    + destruct j as [|j]; [lia|]. simpl in Hi, Hj.
      destruct (IH z i j x y Hchain ltac:(lia) Hi Hj) as [Hzx Hxy].
      split; [eapply is_prefix_trans; eauto | exact Hxy].
Qed.

Lemma grows_nil (p : list (string * string)) : grows p [] p.
Proof. split; simpl; auto. Qed.

Lemma grows_app (p p1 p2 : list (string * string)) (t1 t2 : list Event) :
  grows p t1 p1 -> grows p1 t2 p2 -> grows p (t1 ++ t2) p2.
Proof.
  intros [H1 ->] [H2 ->]. split.
  - rewrite observed_past_steps_app. now apply append_only_app.
  - rewrite observed_past_steps_app. symmetry. apply last_app_default.
Qed.

(** Events that show [past_steps] unchanged. *)
Lemma grows_same (p : list (string * string)) (t : list Event) :
  Forall (fun q => q = p) (observed_past_steps t) -> grows p t p.
Proof.
  unfold grows. induction (observed_past_steps t) as [|x l IH]; intros H.
  - simpl; auto.
  - inversion H; subst. destruct (IH H3) as [Hc Hl]. split.
    + split; [apply is_prefix_refl | exact Hc].
    + destruct l; [reflexivity | exact Hl].
Qed.

Lemma observed_prompts_then (tp t : list Event) :
  forallb is_prompt tp = true ->
  observed_past_steps (tp ++ t) = observed_past_steps t.
Proof.
  intros Hp. rewrite observed_past_steps_app.
  destruct (prompts_only _ Hp) as (_ & _ & _ & -> & _). reflexivity.
Qed.

Section Workflow.
Variable World : Type.
Variable agents : Agents World.
Variable console : nat -> option string.

Local Notation Machine := (Machine World).
Local Notation run := (run World agents console).
Local Notation main_loop := (main_loop World agents console).
Local Notation loop_body := (loop_body World agents console).
Local Notation conclude := (conclude World agents).
Local Notation executor_step := (executor_step World agents).
Local Notation replan_step := (replan_step World agents).
Local Notation force_on_empty_plan := (force_on_empty_plan World).
Local Notation human_review_step := (human_review_step World console).

Local Notation past m := (past_steps (state m)).

Lemma force_on_empty_plan_grows (m m' : Machine) r t :
  force_on_empty_plan m = (r, m', t) -> grows (past m) t (past m').
Proof.
  rewrite force_on_empty_plan_eq.
  destruct (truthy_list (plan (state m))); intros H; inversion H; subst.
  - apply grows_nil.
  - apply grows_same. simpl. auto.
Qed.

Lemma executor_step_grows (m m' : Machine) r t :
  executor_step m = (r, m', t) -> grows (past m) t (past m').
Proof.
  rewrite executor_step_eq.
  destruct (truthy_list (plan (state m))).
  - destruct (execute_step World agents (state m) (world m)) as [[out|e] w];
      intros H; inversion H; subst.
    + unfold grows. simpl. repeat split;
        try apply is_prefix_refl. eexists; reflexivity.
    + apply grows_same. simpl. auto.
  - intros H; inversion H; subst. apply grows_nil.
Qed.

Lemma merge_events_same (out : ReplanOutput) (st : DiagnosticState) :
  Forall (fun q => q = past_steps st) (observed_past_steps (merge_events out st)).
Proof.
  unfold merge_events, merged, merged_plan, merged_response, merged_ready.
  destruct out as [[b|] [r|] [[|step steps]|]]; simpl; auto;
    match goal with
    | |- context [if ?c then _ else _] => destruct c; simpl; auto
    end.
Qed.

Lemma replan_step_grows (m m' : Machine) r t :
  replan_step m = (r, m', t) -> grows (past m) t (past m').
Proof.
  intros H. destruct (replan_step_inv _ _ _ _ _ _ H) as (Hpast & _).
  rewrite Hpast. rewrite replan_step_eq in H.
  destruct (decide_next_action World agents (state m) (world m)) as [[out|e] w];
    inversion H; subst; apply grows_same; simpl; auto.
  constructor; [reflexivity | apply merge_events_same].
Qed.

Lemma human_review_step_grows (fuel current_iteration : nat) (m m' : Machine) r t :
  human_review_step fuel current_iteration m = (r, m', t) ->
  grows (past m) t (past m').
Proof.
  intros H.
  destruct (human_review_step_inv _ _ _ _ _ _ _ _ H) as (Hpast & _).
  rewrite Hpast.
  review_cases H; apply grows_same;
    cbn [observed_past_steps]; rewrite ?observed_prompts_then by assumption;
    try (destruct (prompts_only _ Hp) as (_ & _ & _ & -> & _));
    cbn [observed_past_steps state store with_response with_plan
         with_ready_for_synthesis past_steps];
    rewrite ?Hst; auto.
Qed.

Lemma loop_body_grows (fuel current_iteration : nat) (m m' : Machine) r t :
  loop_body fuel current_iteration m = (r, m', t) -> grows (past m) t (past m').
Proof.
  rewrite loop_body_eq.
  destruct (force_on_empty_plan m) as [[r1 m1] t1] eqn:H1.
  apply force_on_empty_plan_grows in H1.
  destruct (executor_step m1) as [[r2 m2] t2] eqn:H2.
  apply executor_step_grows in H2.
  pose proof (grows_app _ _ _ _ _ H1 H2) as H12.
  change (Iteration (current_iteration + 1) :: ?l)
    with ([Iteration (current_iteration + 1)] ++ l).
  destruct r2 as [[]|e|];
    try (intros H; inversion H; subst;
         apply (grows_app _ _ _ [Iteration _] _ (grows_nil _)); exact H12).
  destruct (replan_step m2) as [[r3 m3] t3] eqn:H3.
  apply replan_step_grows in H3.
  pose proof (grows_app _ _ _ _ _ H2 H3) as H23.
  pose proof (grows_app _ _ _ _ _ H1 H23) as H123.
  destruct r3 as [[]|e|];
    try (intros H; inversion H; subst;
         apply (grows_app _ _ _ [Iteration _] _ (grows_nil _)); exact H123).
  destruct (human_review_step fuel _ m3) as [[r4 m4] t4] eqn:H4.
  apply human_review_step_grows in H4.
  intros H; inversion H; subst.
  apply (grows_app _ _ _ [Iteration _] _ (grows_nil _)).
  apply (grows_app _ _ _ _ _ H1).
  apply (grows_app _ _ _ _ _ H2).
  apply (grows_app _ _ _ _ _ H3). exact H4.
Qed.

Lemma main_loop_grows (fuel : nat) :
  forall (current_iteration : nat) (m m' : Machine) r t,
    main_loop fuel current_iteration m = (r, m', t) -> grows (past m) t (past m').
Proof.
  induction fuel as [|fuel IH]; intros c m m' r t H;
    rewrite main_loop_eq in H;
    destruct (open_ended (state m) && (c <? max_iterations));
    try (inversion H; subst; apply grows_nil).
  destruct (loop_body fuel c m) as [[rb mb] tb] eqn:Hbody.
  apply loop_body_grows in Hbody.
  destruct rb as [[next|]|e|]; try (inversion H; subst; exact Hbody).
  destruct (main_loop fuel next mb) as [[r2 m2] t2] eqn:Hloop.
  apply IH in Hloop. inversion H; subst.
  eapply grows_app; eauto.
Qed.

Lemma conclude_grows (m m' : Machine) r t :
  conclude m = (r, m', t) -> grows (past m) t (past m').
Proof.
  rewrite conclude_eq.
  destruct (ready_for_synthesis (state m) && negb (truthy (response (state m)))).
  - destruct (synthesize_response World agents (state m) (world m)) as [[out|e] w];
      intros H; inversion H; subst; apply grows_same; simpl; auto.
  - destruct (negb (truthy (response (state m)))); intros H; inversion H; subst.
    + apply grows_same; simpl; auto.
    + apply grows_nil.
Qed.

Lemma run_grows (fuel : nat) (initial_query : string) (w : World)
      (m : Machine) r t :
  run fuel initial_query w = (r, m, t) -> grows [] t (past m).
Proof.
  rewrite run_eq. cbv zeta.
  destruct (create_plan World agents _ w) as [[out|e] w1].
  2:{ intros H; inversion H; subst. apply grows_same; simpl; auto. }
  destruct (truthy_list _).
  2:{ intros H; inversion H; subst. apply grows_same; simpl; auto. }
  destruct (main_loop fuel 0 _) as [[rl ml] tl] eqn:Hloop.
  apply main_loop_grows in Hloop. cbn [state past_steps with_plan initial_state] in Hloop.
  assert (Hhead : grows []
                    [Stored (initial_state initial_query);
                     Called Planner (initial_state initial_query);
                     Stored (with_plan (initial_state initial_query)
                               (get_or (planner_plan out) []))] []).
  { apply grows_same; simpl; auto. }
  destruct rl as [[]|e|].
  - destruct (conclude ml) as [[r3 m3] t3] eqn:Hconc.
    apply conclude_grows in Hconc.
    intros H; inversion H; subst.
    apply (grows_app _ _ _ _ _ Hhead). eapply grows_app; eauto.
  - intros H; inversion H; subst. exact (grows_app _ _ _ _ _ Hhead Hloop).
  - intros H; inversion H; subst. exact (grows_app _ _ _ _ _ Hhead Hloop).
Qed.

(** C4.  Through a whole run, however it ends, [past_steps] is
    append-only.  Take the observation points of the run in order (every
    assignment to the state by the Orchestrator, every hand-over of the
    state to an agent or to the gate): the value of [past_steps] at each
    point is a prefix of its value at the next, hence at every later one,
    and of the value the run ends with.  Nothing is removed, replaced or
    reordered. *)
Theorem past_steps_append_only
  (fuel : nat) (initial_query : string) (w : World) (m : Machine) r t :
  run fuel initial_query w = (r, m, t) ->
  append_only [] (observed_past_steps t)
  /\ (forall i j earlier later,
        i <= j ->
        nth_error (observed_past_steps t) i = Some earlier ->
        nth_error (observed_past_steps t) j = Some later ->
        is_prefix earlier later)
  /\ (forall i earlier,
        nth_error (observed_past_steps t) i = Some earlier ->
        is_prefix earlier (past_steps (state m))).
Proof.
  intros Hrun. apply run_grows in Hrun as [Hchain Hlast].
  split; [exact Hchain|]. split.
  - intros i j x y Hle Hi Hj.
    destruct (append_only_pairs _ _ _ _ _ _ Hchain Hle Hi Hj) as [_ H]. exact H.
  - intros i x Hi. rewrite Hlast.
    assert (Hn : observed_past_steps t <> []).
    { intros E. rewrite E in Hi. destruct i; discriminate. }
    destruct (exists_last Hn) as (l' & y & E).
    assert (Hj : nth_error (observed_past_steps t) (length l') = Some y).
    { rewrite E, nth_error_app2, Nat.sub_diag by lia. reflexivity. }
    assert (Hle : i <= length l').
    { assert (Hlt : i < length (observed_past_steps t))
        by (apply nth_error_Some; congruence).
      rewrite E, length_app in Hlt. simpl in Hlt. lia. }
    destruct (append_only_pairs _ _ _ _ _ _ Hchain Hle Hi Hj) as [_ H].
    rewrite E, last_last. exact H.
Qed.

End Workflow.

(** The theorem at work: two steps executed, then the human quits. *)
Lemma past_steps_append_only_witness :
  append_only []
    (observed_past_steps
       (snd (run unit (Scenarios.crew ["SCADA: pressure"] Scenarios.one_more
                         (Some "final answer"))
               (Scenarios.script ["c"; "q"]) 10 "why is the pressure low?" tt))).
Proof.
  destruct (run unit (Scenarios.crew ["SCADA: pressure"] Scenarios.one_more
                        (Some "final answer"))
              (Scenarios.script ["c"; "q"]) 10 "why is the pressure low?" tt)
    as [[r m] t] eqn:Hrun.
  exact (proj1 (past_steps_append_only unit _ _ _ _ _ _ _ _ Hrun)).
Defined.

End HistoryFacts.

(* ===================================================================== *)
(** ** Every run returns a text *)
(* ===================================================================== *)

Module TerminationFacts.
Import PyStr Orchestrator Trace Claims OrchestratorFacts ReplanFacts FuelFacts.

(** The console is closed (the program runs without a terminal, its
    input at end of file) while the agents keep their contract: the first
    prompt of the gate raises [EOFError], nothing in the Orchestrator
    catches it, and it leaves [run_diagnostic_workflow]. *)
Lemma closed_console_lets_eof_escape :
  ~ always_returns_text
  /\ (let '(r, _, t) :=
        run unit (Scenarios.crew ["SCADA: pressure"] Scenarios.one_more
                    (Some "final answer"))
            (Scenarios.script []) 10 "why is the pressure low?" tt in
      r = Exc EOFError /\ iterations t = [1] /\ prompts t = 1).
Proof.
  split; [|vm_compute; auto].
  intros H.
  destruct (H unit (Scenarios.crew ["SCADA: pressure"] Scenarios.one_more
                      (Some "final answer"))
              (Scenarios.script []) "q" tt)
    as (fuel & s & m & t & Hrun).
  - repeat split; intros st w; eexists; eexists; reflexivity.
  - intros st w out w' E. inversion E. discriminate.
  - assert (H10 : exists m' t',
               run unit (Scenarios.crew ["SCADA: pressure"] Scenarios.one_more
                           (Some "final answer"))
                 (Scenarios.script []) 10 "q" tt = (Exc EOFError, m', t')).
    { eexists. eexists. vm_compute. reflexivity. }
    destruct H10 as (m' & t' & H10).
    apply (run_more_fuel _ _ _ _ (fuel + 10)) in Hrun; [|lia|discriminate].
    apply (run_more_fuel _ _ _ _ (fuel + 10)) in H10; [|lia|discriminate].
    rewrite Hrun in H10. inversion H10.
Qed.

(** Without the contract of the agents there is no such guarantee either:
    an exception of the Executor leaves the run, and an empty response of
    the Synthesizer is returned as it is. *)
Lemma agents_outside_contract :
  (let '(r, _, _) :=
     run unit (Scenarios.broken_crew ["SCADA: pressure"])
         (Scenarios.always "c") 10 "why is the pressure low?" tt in
   r = Exc (Raised "tool crashed"))
  /\ (let '(r, _, _) :=
        run unit (Scenarios.crew ["SCADA: pressure"] Scenarios.empty_update
                    (Some EmptyString))
            (Scenarios.always "c") 10 "why is the pressure low?" tt in
      r = Val EmptyString).
Proof. vm_compute. auto. Qed.

Section Workflow.
Variable World : Type.
Variable agents : Agents World.
Variable console : nat -> option string.

Local Notation Machine := (Machine World).
Local Notation run := (run World agents console).
Local Notation main_loop := (main_loop World agents console).
Local Notation loop_body := (loop_body World agents console).
Local Notation conclude := (conclude World agents).
Local Notation executor_step := (executor_step World agents).
Local Notation replan_step := (replan_step World agents).
Local Notation force_on_empty_plan := (force_on_empty_plan World).
Local Notation human_review_step := (human_review_step World console).
Local Notation ask := (ask World console).

(** *** The budget, whatever the agents and the human do *)

Lemma loop_body_budget (fuel current_iteration : nat) (m m' : Machine) r t :
  loop_body fuel current_iteration m = (r, m', t) ->
  iterations t = [current_iteration + 1]
  /\ edits t <= 1
  /\ (forall next, r = Val (Some next) ->
        (next = current_iteration + 1 /\ edits t = 0) \/ (next = 0 /\ edits t = 1)).
Proof.
  rewrite loop_body_eq.
  destruct (force_on_empty_plan m) as [[r1 m1] t1] eqn:H1.
  apply force_on_empty_plan_inv in H1 as (_ & _ & _ & _ & _ & _ & Ha1).
  destruct (executor_step m1) as [[r2 m2] t2] eqn:H2.
  pose proof (executor_step_response _ _ _ _ _ _ H2) as (_ & _ & _ & Ha2).
  apply auto_only in Ha1 as (Hi1 & He1 & _).
  apply auto_only in Ha2 as (Hi2 & He2 & _).
  destruct r2 as [[]|e|];
    try (intros H; inversion H; subst; cbn [iterations edits];
         rewrite iterations_app, edits_app, Hi1, Hi2, He1, He2;
         repeat split; auto; discriminate).
  destruct (replan_step m2) as [[r3 m3] t3] eqn:H3.
  pose proof (replan_step_inv _ _ _ _ _ _ H3) as (_ & _ & _ & Ha3).
  apply auto_only in Ha3 as (Hi3 & He3 & _).
  destruct r3 as [[]|e|];
    try (intros H; inversion H; subst; cbn [iterations edits];
         rewrite !iterations_app, !edits_app, Hi1, Hi2, Hi3, He1, He2, He3;
         repeat split; auto; discriminate).
  destruct (human_review_step fuel _ m3) as [[r4 m4] t4] eqn:H4.
  apply human_review_step_inv in H4 as (_ & _ & _ & _ & Hi4 & He4 & Hnext).
  intros H; inversion H; subst. cbn [iterations edits].
  rewrite !iterations_app, !edits_app, Hi1, Hi2, Hi3, Hi4, He1, He2, He3.
  repeat split; auto.
Qed.

Lemma main_loop_budget (fuel : nat) :
  forall (current_iteration : nat) (m m' : Machine) r t,
    current_iteration <= max_iterations ->
    main_loop fuel current_iteration m = (r, m', t) ->
    within_budget t
    /\ length (iterations t) + current_iteration <= max_iterations * (1 + edits t).
Proof.
  unfold within_budget.
  assert (Hstop : forall c (m : Machine), c <= max_iterations ->
            Forall (fun n => 1 <= n <= max_iterations) (iterations [])
            /\ length (iterations []) + c <= max_iterations * (1 + edits [])).
  { intros c m Hc. cbn [iterations edits length]. split; [constructor | lia]. }
  induction fuel as [|fuel IH]; intros c m m' r t Hc H;
    rewrite main_loop_eq in H;
    (destruct (open_ended (state m)); cbn [andb] in H;
     [|inversion H; subst; now apply Hstop]);
    (destruct (Nat.ltb_spec c max_iterations) as [Hlt | Hge];
     [|inversion H; subst; now apply Hstop]).
  - inversion H; subst. now apply Hstop.
  - destruct (loop_body fuel c m) as [[rb mb] tb] eqn:Hbody.
    apply loop_body_budget in Hbody as (Hi & He & Hnext).
    assert (Hone : Forall (fun n => 1 <= n <= max_iterations) (iterations tb)).
    { rewrite Hi. constructor; [lia | constructor]. }
    assert (Hlen : length (iterations tb) + c <= max_iterations * (1 + edits tb)).
    { rewrite Hi. cbn [length]. lia. }
    destruct rb as [[next|]|e|];
      try (inversion H; subst; split; [exact Hone | exact Hlen]).
    destruct (main_loop fuel next mb) as [[r2 m2] t2] eqn:Hloop.
    inversion H; subst.
    rewrite iterations_app, edits_app, length_app, Hi. cbn [length app].
    destruct (Hnext next eq_refl) as [[-> He0] | [-> He1]].
    + assert (Hc1 : c + 1 <= max_iterations) by lia.
      destruct (IH _ _ _ _ _ Hc1 Hloop) as [Hb Hl].
      split; [constructor; [lia | exact Hb] | lia].
    + assert (Hc0 : 0 <= max_iterations) by lia.
      destruct (IH _ _ _ _ _ Hc0 Hloop) as [Hb Hl].
      split; [constructor; [lia | exact Hb] | lia].
Qed.

Lemma conclude_quiet (m m' : Machine) r t :
  conclude m = (r, m', t) -> iterations t = [] /\ edits t = 0.
Proof.
  intros H. apply QuitFacts.conclude_auto in H. apply auto_only in H. tauto.
Qed.

(** The loop never announces a pass beyond [max_iterations], and the
    passes of a run number at most [max_iterations] for the start and for
    each edit of the human. *)
Lemma run_within_budget (fuel : nat) (initial_query : string) (w : World)
      (m : Machine) r t :
  run fuel initial_query w = (r, m, t) ->
  within_budget t
  /\ length (iterations t) <= max_iterations * (1 + edits t).
Proof.
  rewrite run_eq. cbv zeta.
  destruct (create_plan World agents _ w) as [[out|e] w1].
  2:{ intros H; inversion H; subst. unfold within_budget. simpl.
      split; [constructor | lia]. }
  destruct (truthy_list _).
  2:{ intros H; inversion H; subst. unfold within_budget. simpl.
      split; [constructor | lia]. }
  destruct (main_loop fuel 0 _) as [[rl ml] tl] eqn:Hloop.
  apply main_loop_budget in Hloop as [Hb Hl]; [|unfold max_iterations; lia].
  unfold within_budget in *.
  destruct rl as [[]|e|].
  - destruct (conclude ml) as [[r3 m3] t3] eqn:Hconc.
    apply conclude_quiet in Hconc as [Hi3 He3].
    intros H; inversion H; subst. cbn [app iterations edits].
    rewrite iterations_app, edits_app, Hi3, He3, app_nil_r.
    split; [exact Hb | lia].
  - intros H; inversion H; subst. cbn [app iterations edits].
    split; [exact Hb | lia].
  - intros H; inversion H; subst. cbn [app iterations edits].
    split; [exact Hb | lia].
Qed.

(** *** Termination, when the agents answer and the human settles *)

Variable settle_point : nat.
Hypothesis Hagents : agents_answer agents.
Hypothesis Hspeaks : synthesizer_speaks agents.
Hypothesis Hhuman : human_settles console settle_point.

Lemma ask_settles (fuel : nat) :
  forall m : Machine,
    settle_point - cursor m < fuel ->
    exists d m' t,
      ask fuel m = (Val d, m', t)
      /\ cursor m < cursor m'
      /\ (settle_point <= cursor m -> is_edit d = false).
Proof.
  induction fuel as [|fuel IH]; intros m Hfuel; [lia|].
  rewrite ask_S.
  destruct (Hhuman (cursor m)) as (line & Hline & Hsettled).
  rewrite Hline. cbv zeta. unfold settled in Hsettled.
  destruct (mem _ ["c"; "continue"]) eqn:Hc.
  { eexists. eexists. eexists. split; [reflexivity|]. simpl. split; [lia | auto]. }
  destruct (mem _ ["s"; "synthesize"]) eqn:Hs.
  { eexists. eexists. eexists. split; [reflexivity|]. simpl. split; [lia | auto]. }
  destruct (mem _ ["e"; "edit"]) eqn:He.
  { destruct (Hhuman (S (cursor m))) as (line2 & Hline2 & _). rewrite Hline2.
    eexists. eexists. eexists. split; [reflexivity|]. simpl. split; [lia|].
    intros Hle. specialize (Hsettled Hle). simpl in Hsettled.
    destruct (mem_inv _ _ _ He) as [E | E]; rewrite E in Hsettled; discriminate. }
  destruct (mem _ ["q"; "quit"]) eqn:Hq.
  { eexists. eexists. eexists. split; [reflexivity|]. simpl. split; [lia | auto]. }
  assert (Hbefore : cursor m < settle_point).
  { destruct (Nat.ltb_spec (cursor m) settle_point) as [H | H]; [exact H|].
    specialize (Hsettled H). discriminate. }
  destruct (IH (advance m)) as (d & m' & t & Hask & Hcur & Hedit).
  { simpl. lia. }
  rewrite Hask. eexists. eexists. eexists. split; [reflexivity|].
  simpl in Hcur. split; [lia|]. intros Hle. lia.
Qed.

Lemma human_review_step_settles (fuel current_iteration : nat) (m : Machine) :
  settle_point - cursor m < fuel ->
  exists next m' t,
    human_review_step fuel current_iteration m = (Val next, m', t)
    /\ cursor m <= cursor m'
    /\ (next = Some current_iteration \/ next = None
        \/ (next = Some 0 /\ cursor m < settle_point /\ cursor m < cursor m')).
Proof.
  intros Hfuel. rewrite human_review_step_eq.
  destruct (open_ended (state m)).
  2:{ eexists. eexists. eexists. split; [reflexivity|]. auto. }
  destruct (ask_settles fuel m Hfuel) as (d & m' & t & Hask & Hcur & Hedit).
  pose proof (ask_inv _ _ _ _ _ _ _ Hask) as (_ & _ & _ & _ & Hd).
  rewrite Hask.
  destruct (Hd d eq_refl) as [[->|[->|[[edited ->]| ->]]] _];
    cbn [action new_plan String.eqb Ascii.eqb Bool.eqb];
    eexists; eexists; eexists; (split; [reflexivity|]);
    cbn [store cursor]; (split; [lia|]); auto.
  right. right. split; [reflexivity|]. split; [|lia].
  destruct (Nat.ltb_spec (cursor m) settle_point) as [H | H]; [exact H|].
  specialize (Hedit H). discriminate.
Qed.

Lemma loop_body_settles (fuel current_iteration : nat) (m : Machine) :
  settle_point - cursor m < fuel ->
  exists next m' t,
    loop_body fuel current_iteration m = (Val next, m', t)
    /\ cursor m <= cursor m'
    /\ (next = Some (current_iteration + 1) \/ next = None
        \/ (next = Some 0 /\ cursor m < settle_point /\ cursor m < cursor m')).
Proof.
  intros Hfuel. destruct Hagents as (_ & Hexecutor & Hreplanner & _).
  rewrite loop_body_eq.
  destruct (force_on_empty_plan m) as [[r1 m1] t1] eqn:H1.
  apply force_on_empty_plan_inv in H1 as (_ & _ & _ & _ & Hc1 & _).
  assert (H2 : exists m2 t2, executor_step m1 = (Val tt, m2, t2) /\ cursor m2 = cursor m1).
  { rewrite executor_step_eq. destruct (truthy_list (plan (state m1))).
    - destruct (Hexecutor (state m1) (world m1)) as (out & w' & ->). eauto.
    - eauto. }
  destruct H2 as (m2 & t2 & -> & Hc2).
  assert (H3 : exists m3 t3, replan_step m2 = (Val tt, m3, t3) /\ cursor m3 = cursor m2).
  { rewrite replan_step_eq.
    destruct (Hreplanner (state m2) (world m2)) as (out & w' & ->). eauto. }
  destruct H3 as (m3 & t3 & -> & Hc3).
  destruct (human_review_step_settles fuel (current_iteration + 1) m3)
    as (next & m4 & t4 & -> & Hc4 & Hnext).
  { lia. }
  eexists. eexists. eexists. split; [reflexivity|].
  split; [lia|].
  destruct Hnext as [-> | [-> | (-> & Hlt & Hlt')]]; auto.
  right. right. split; [reflexivity | lia].
Qed.

Lemma main_loop_settles (fuel : nat) :
  forall (current_iteration : nat) (m : Machine),
    6 * (settle_point - cursor m) + (max_iterations - current_iteration) < fuel ->
    exists m' t, main_loop fuel current_iteration m = (Val tt, m', t).
Proof.
  induction fuel as [|fuel IH]; intros c m Hfuel; [lia|].
  rewrite main_loop_eq.
  destruct (open_ended (state m)); cbn [andb]; [|eauto].
  destruct (Nat.ltb_spec c max_iterations) as [Hlt | Hge]; [|eauto].
  destruct (loop_body_settles fuel c m) as (next & m1 & t1 & -> & Hcur & Hnext).
  { unfold max_iterations in *. lia. }
  destruct Hnext as [-> | [-> | (-> & Hb & Hb')]].
  - destruct (IH (c + 1) m1) as (m2 & t2 & ->); [|eauto].
    unfold max_iterations in *. lia.
  - eauto.
  - destruct (IH 0 m1) as (m2 & t2 & ->); [|eauto].
    unfold max_iterations in *. lia.
Qed.

Lemma conclude_speaks (m : Machine) :
  exists s m' t, conclude m = (Val s, m', t) /\ s <> EmptyString.
Proof.
  destruct Hagents as (_ & _ & _ & Hsynthesizer).
  rewrite conclude_eq.
  destruct (ready_for_synthesis (state m) && negb (truthy (response (state m)))).
  - destruct (Hsynthesizer (state m) (world m)) as (out & w' & Hs). rewrite Hs.
    eexists. eexists. eexists. split; [reflexivity|].
    pose proof (Hspeaks _ _ _ _ Hs) as Hne.
    destruct (synthesizer_response out) as [s|]; simpl; [congruence | discriminate].
  - destruct (response (state m)) eqn:E; simpl.
    + eexists. eexists. eexists. split; [reflexivity | discriminate].
    + eexists. eexists. eexists. split; [reflexivity | discriminate].
Qed.

(** With the console open and the agents keeping their contract, the
    workflow of module [Orchestrator] returns a text that is not empty,
    within the budget. *)
Lemma workflow_returns_text (initial_query : string) (w : World) :
  exists fuel0, forall fuel, fuel0 <= fuel ->
    exists s m t,
      run fuel initial_query w = (Val s, m, t)
      /\ s <> EmptyString
      /\ within_budget t
      /\ length (iterations t) <= max_iterations * (1 + edits t).
Proof.
  exists (6 * settle_point + max_iterations + 1). intros fuel Hfuel.
  assert (Hrun : exists s m t,
             run fuel initial_query w = (Val s, m, t) /\ s <> EmptyString).
  { destruct Hagents as (Hplanner & _).
    rewrite run_eq. cbv zeta.
    destruct (Hplanner (initial_state initial_query) w) as (out & w1 & ->).
    destruct (truthy_list _).
    - destruct (main_loop_settles fuel 0
                  (mkMachine (with_plan (initial_state initial_query)
                                (get_or (planner_plan out) [])) w1 0))
        as (m2 & t2 & ->).
      { cbn [cursor]. lia. }
      destruct (conclude_speaks m2) as (s & m3 & t3 & -> & Hs). eauto.
    - eexists. eexists. eexists. split; [reflexivity | discriminate]. }
  destruct Hrun as (s & m & t & Hrun & Hs).
  destruct (run_within_budget _ _ _ _ _ _ Hrun) as [Hb Hl].
  exists s, m, t. auto.
Qed.

End Workflow.

End TerminationFacts.

(* ===================================================================== *)
(** ** The workflow on its terminal *)
(* ===================================================================== *)

Module TerminalFacts.
Import PyStr Orchestrator Trace Claims Console OrchestratorFacts.

(** *** With a quiet terminal the two models agree *)

Section Quiet.
Variable World : Type.
Variable agents : Agents World.
Variable stdin : nat -> outcome string.
Variable stdout : Output -> option exn.
Variable console : nat -> option string.

Hypothesis Hout : Terminal.prints_succeed stdout.
Hypothesis Hin :
  forall i, stdin i = match console i with
                      | Some line => Ok line
                      | None => Raise EOFError
                      end.

Local Notation Machine := (Machine World).
Local Notation M := (M World).
Local Notation print := (Terminal.print World stdout).

Lemma bind_congr {A B : Type} (c c' : M A) (k k' : A -> M B) (m : Machine) :
  c m = c' m -> (forall a m1, k a m1 = k' a m1) ->
  bind c k m = bind c' k' m.
Proof.
  intros Hc Hk. unfold bind. rewrite Hc.
  destruct (c' m) as [[[a|e|] m1] t1]; try reflexivity.
  rewrite Hk. reflexivity.
Qed.

Lemma bind_print {B : Type} (line : nat) (values : list Value) (k : unit -> M B)
      (m : Machine) :
  bind (print line values) k m = k tt m.
Proof.
  unfold bind, Terminal.print. rewrite Hout.
  destruct (k tt m) as [[r m2] t2]. reflexivity.
Qed.

Lemma bind_then_print (line : nat) (values : unit -> list Value) (c : M unit)
      (m : Machine) :
  bind c (fun x => print line (values x)) m = c m.
Proof.
  unfold bind, Terminal.print.
  destruct (c m) as [[[[]|e|] m1] t1]; try reflexivity.
  rewrite Hout, app_nil_r. reflexivity.
Qed.

Lemma print_same (line : nat) (values : list Value) (m : Machine) :
  print line values m = ret tt m.
Proof. unfold Terminal.print, ret. rewrite Hout. reflexivity. Qed.

Lemma input_line_same (m : Machine) :
  Terminal.input_line World stdin m = input_line World console m.
Proof.
  unfold Terminal.input_line, input_line. rewrite Hin.
  destruct (console (cursor m)); reflexivity.
Qed.

Lemma print_past_steps_same (past : list (string * string)) :
  forall i m, Terminal.print_past_steps World stdout i past m = ret tt m.
Proof.
  induction past as [|[step result] rest IH]; intros i m; [reflexivity|].
  cbn [Terminal.print_past_steps]. rewrite !bind_print. apply IH.
Qed.

Lemma print_plan_same (steps : list string) :
  forall i m, Terminal.print_plan World stdout i steps m = ret tt m.
Proof.
  induction steps as [|step rest IH]; intros i m; [reflexivity|].
  cbn [Terminal.print_plan]. rewrite !bind_print. apply IH.
Qed.

Lemma bind_ret_tt {B : Type} (c : M unit) (k : unit -> M B) (m : Machine) :
  (forall m, c m = ret tt m) -> bind c k m = k tt m.
Proof.
  intros Hc. unfold bind. rewrite Hc. unfold ret.
  destruct (k tt m) as [[r m2] t2]. reflexivity.
Qed.

Lemma print_overview_same (st : DiagnosticState) (m : Machine) :
  Terminal.print_overview World stdout st m = ret tt m.
Proof.
  unfold Terminal.print_overview. rewrite !bind_print.
  rewrite bind_ret_tt.
  2:{ intros m0. destruct (truthy_list (past_steps st));
        [apply print_past_steps_same | apply print_same]. }
  rewrite bind_print, bind_ret_tt.
  2:{ intros m0. destruct (truthy_list (plan st));
        [apply print_plan_same | apply print_same]. }
  rewrite !bind_print. apply print_same.
Qed.

Lemma ask_same (fuel : nat) :
  forall m, Terminal.ask World stdin stdout fuel m = ask World console fuel m.
Proof.
  induction fuel as [|fuel IH]; intros m; [reflexivity|].
  cbn [Terminal.ask ask].
  apply bind_congr; [apply input_line_same|].
  intros choice_raw m1. cbv zeta.
  destruct (mem _ ["c"; "continue"]); [reflexivity|].
  destruct (mem _ ["s"; "synthesize"]); [reflexivity|].
  destruct (mem _ ["e"; "edit"]).
  { rewrite bind_print. apply bind_congr; [apply input_line_same | reflexivity]. }
  destruct (mem _ ["q"; "quit"]); [reflexivity|].
  rewrite bind_print. apply IH.
Qed.

Lemma review_same (fuel : nat) (st : DiagnosticState) (m : Machine) :
  Terminal._human_in_the_loop_review World stdin stdout fuel st m
  = _human_in_the_loop_review World console fuel st m.
Proof.
  unfold Terminal._human_in_the_loop_review, _human_in_the_loop_review.
  apply bind_congr; [reflexivity|]. intros [] m1.
  rewrite bind_ret_tt by apply print_overview_same.
  apply bind_congr; [apply ask_same | reflexivity].
Qed.

Lemma force_on_empty_plan_same (m : Machine) :
  Terminal.force_on_empty_plan World stdout m = force_on_empty_plan World m.
Proof.
  unfold Terminal.force_on_empty_plan, force_on_empty_plan.
  apply bind_congr; [reflexivity|]. intros st m1.
  destruct (negb (truthy_list (plan st))); [|reflexivity].
  apply bind_print.
Qed.

Lemma executor_step_same (m : Machine) :
  Terminal.executor_step World agents stdout m = executor_step World agents m.
Proof.
  unfold Terminal.executor_step, executor_step.
  apply bind_congr; [reflexivity|]. intros st m1.
  destruct (truthy_list (plan st)); [|reflexivity].
  rewrite bind_print.
  apply bind_congr; [reflexivity|]. intros out m2.
  apply bind_congr; [reflexivity|]. intros [] m3.
  unfold bind, assign, get_state, Terminal.print. cbn.
  rewrite Hout. rewrite ?app_nil_r. reflexivity.
Qed.

Lemma replan_step_same (m : Machine) :
  Terminal.replan_step World agents stdout m = replan_step World agents m.
Proof.
  unfold Terminal.replan_step, replan_step.
  rewrite bind_print.
  apply bind_congr; [reflexivity|]. intros out m1.
  apply bind_congr; [reflexivity|]. intros [] m2.
  apply bind_congr; [reflexivity|]. intros [] m3.
  apply bind_congr; [reflexivity|]. intros st m4.
  destruct (replan_plan out) as [[|step steps]|]; try reflexivity.
  - destruct (negb (ready_for_synthesis st) && negb (truthy (response st)));
      [|reflexivity].
    apply bind_print.
  - unfold bind, assign, get_state, Terminal.print.
    rewrite Hout. reflexivity.
Qed.

Lemma human_review_step_same (fuel current_iteration : nat) (m : Machine) :
  Terminal.human_review_step World stdin stdout fuel current_iteration m
  = human_review_step World console fuel current_iteration m.
Proof.
  unfold Terminal.human_review_step, human_review_step.
  apply bind_congr; [reflexivity|]. intros st m1.
  destruct (negb (ready_for_synthesis st) && negb (truthy (response st)));
    [|reflexivity].
  apply bind_congr; [apply review_same|]. intros d m2.
  destruct (action d =? "quit")%string.
  { apply bind_congr; [reflexivity|]. intros [] m3. apply bind_print. }
  destruct (action d =? "synthesize")%string.
  { apply bind_congr; [reflexivity|]. intros [] m3. apply bind_print. }
  destruct (action d =? "edit")%string; [|reflexivity].
  apply bind_congr; [reflexivity|]. intros edited m3.
  apply bind_congr; [reflexivity|]. intros [] m4.
  unfold bind, get_state, Terminal.print, ret. rewrite Hout. reflexivity.
Qed.

Lemma loop_body_same (fuel current_iteration : nat) (m : Machine) :
  Terminal.loop_body World agents stdin stdout fuel current_iteration m
  = loop_body World agents console fuel current_iteration m.
Proof.
  unfold Terminal.loop_body, loop_body. cbv zeta.
  apply bind_congr; [reflexivity|]. intros [] m1.
  rewrite bind_print.
  apply bind_congr; [apply force_on_empty_plan_same|]. intros [] m2.
  apply bind_congr; [apply executor_step_same|]. intros [] m3.
  apply bind_congr; [apply replan_step_same|]. intros [] m4.
  apply human_review_step_same.
Qed.

Lemma main_loop_same (fuel : nat) :
  forall current_iteration m,
    Terminal.main_loop World agents stdin stdout fuel current_iteration m
    = main_loop World agents console fuel current_iteration m.
Proof.
  induction fuel as [|fuel IH]; intros c m; [reflexivity|].
  cbn [Terminal.main_loop main_loop].
  apply bind_congr; [reflexivity|]. intros st m1.
  destruct (negb (ready_for_synthesis st) && negb (truthy (response st))
            && (c <? max_iterations)); [|reflexivity].
  apply bind_congr; [apply loop_body_same|]. intros [next|] m2; [apply IH | reflexivity].
Qed.

Lemma conclude_same (m : Machine) :
  Terminal.conclude World agents stdout m = conclude World agents m.
Proof.
  unfold Terminal.conclude, conclude.
  apply bind_congr; [reflexivity|]. intros st m1.
  apply bind_congr.
  - destruct (ready_for_synthesis st && negb (truthy (response st))).
    + rewrite bind_print. apply bind_congr; [reflexivity|]. intros out m2.
      apply (bind_then_print 174 (fun _ => [])).
    + destruct (negb (truthy (response st))); [|reflexivity].
      apply (bind_then_print 177 (fun _ => [])).
  - intros [] m2. apply bind_print.
Qed.

(** With a terminal on which every [print] succeeds and an [input] that
    fails only at the end of the input, the workflow with its console
    output runs exactly as the workflow of module [Orchestrator]. *)
Lemma run_on_quiet_terminal (fuel : nat) (initial_query : string) (w : World) :
  Terminal.run World agents stdin stdout fuel initial_query w
  = run World agents console fuel initial_query w.
Proof.
  unfold Terminal.run, run, Terminal.run_diagnostic_workflow, run_diagnostic_workflow.
  apply bind_congr; [reflexivity|]. intros [] m1.
  rewrite !bind_print.
  apply bind_congr; [reflexivity|]. intros out m2.
  apply bind_congr; [reflexivity|]. intros [] m3.
  apply bind_congr; [reflexivity|]. intros st m4.
  destruct (negb (truthy_list (plan st))).
  - apply bind_congr; [reflexivity|]. intros [] m5. apply bind_print.
  - apply bind_congr; [apply main_loop_same|]. intros [] m5. apply conclude_same.
Qed.

End Quiet.

(** *** The run returns *)

Section Returns.
Variable World : Type.
Variable agents : Agents World.
Variable stdin : nat -> outcome string.
Variable stdout : Output -> option exn.

Local Notation run := (Terminal.run World agents stdin stdout).

Lemma open_console_reads (settle_point : nat) :
  human_settles (Terminal.console_of stdin) settle_point ->
  forall i, stdin i = match Terminal.console_of stdin i with
                      | Some line => Ok line
                      | None => Raise EOFError
                      end.
Proof.
  intros Hhuman i. destruct (Hhuman i) as (line & Hline & _).
  unfold Terminal.console_of in *. destruct (stdin i); [reflexivity | discriminate].
Qed.

(** C1, as the code has it.  Let the console stay open, so that every
    prompt of the gate is answered; let every [print] succeed; and let the
    agents keep their contract (a call answers with a dictionary instead of
    raising, and a response of the Synthesizer is not empty).  Once the
    human stops editing and types accepted directives, the run returns for
    every initial query, with enough fuel and with any more, a text and no
    exception; the text is not empty, whether or not the Planner produced
    a plan; in that run no pass is announced beyond [max_iterations], and
    the loop makes at most [max_iterations] passes for the start and for
    each edit of the human.  The workflow has no handler: when the
    [print] of the query at line 104 raises, that exception ends the run
    before any agent is called. *)
Theorem run_returns_text (initial_query : string) (w : World) :
  (forall settle_point,
     agents_answer agents -> synthesizer_speaks agents ->
     human_settles (Terminal.console_of stdin) settle_point ->
     Terminal.prints_succeed stdout ->
     exists fuel0, forall fuel, fuel0 <= fuel ->
       exists s m t,
         run fuel initial_query w = (Val s, m, t)
         /\ s <> EmptyString
         /\ within_budget t
         /\ length (iterations t) <= max_iterations * (1 + edits t))
  /\ (forall e fuel,
        stdout (mkOutput 104 [Text initial_query]) = Some e ->
        exists m t,
          run fuel initial_query w = (Exc e, m, t) /\ agent_calls t = []).
Proof.
  split.
  - intros settle_point Hagents Hspeaks Hhuman Hout.
    destruct (TerminationFacts.workflow_returns_text World agents
                (Terminal.console_of stdin) settle_point Hagents Hspeaks Hhuman
                initial_query w) as (fuel0 & H).
    exists fuel0. intros fuel Hfuel.
    rewrite (run_on_quiet_terminal World agents stdin stdout
               (Terminal.console_of stdin) Hout
               (open_console_reads settle_point Hhuman)).
    exact (H fuel Hfuel).
  - intros e fuel Hprint.
    unfold Terminal.run, Terminal.run_diagnostic_workflow.
    unfold bind at 1. unfold assign at 1.
    unfold bind at 1. unfold Terminal.print at 1. rewrite Hprint.
    eexists. eexists. split; reflexivity.
Qed.

End Returns.

(** The theorem at work: the human edits the plan once, mistypes once,
    and then continues; everything can be printed. *)
Lemma run_returns_text_witness :
  exists fuel0, forall fuel, fuel0 <= fuel ->
    exists s m t,
      Terminal.run unit
        (Scenarios.crew ["SCADA: pressure"] Scenarios.one_more (Some "final answer"))
        (Terminal.typed_then ["e"; "SCADA: flow, MANUAL: pump"; "what?"] "c")
        Terminal.quiet fuel "why is the pressure low?" tt = (Val s, m, t)
      /\ s <> EmptyString.
Proof.
  destruct (proj1 (run_returns_text unit
              (Scenarios.crew ["SCADA: pressure"] Scenarios.one_more (Some "final answer"))
              (Terminal.typed_then ["e"; "SCADA: flow, MANUAL: pump"; "what?"] "c")
              Terminal.quiet "why is the pressure low?" tt) 3)
    as (fuel0 & H).
  - repeat split; intros st w; eexists; eexists; reflexivity.
  - intros st w out w' E. inversion E. discriminate.
  - intros i. destruct i as [|[|[|i]]].
    + eexists. split; [reflexivity|]. intros Hle. lia.
    + eexists. split; [reflexivity|]. intros Hle. lia.
    + eexists. split; [reflexivity|]. intros Hle. lia.
    + exists "c". split; [destruct i; reflexivity | reflexivity].
  - intros o. reflexivity.
  - exists fuel0. intros fuel Hfuel.
    destruct (H fuel Hfuel) as (s & m & t & Hrun & Hs & _). eauto.
Defined.

(** *** Where an exception comes from *)

Section Causes.
Variable World : Type.
Variable agents : Agents World.
Variable stdin : nat -> outcome string.
Variable stdout : Output -> option exn.

Local Notation Machine := (Machine World).
Local Notation M := (M World).
Local Notation print := (Terminal.print World stdout).
Local Notation caused := (Terminal.caused World agents stdin stdout).
Local Notation explained := (Terminal.explained World agents stdin stdout).
Local Notation returns := (Terminal.returns World).

Lemma caused_app (e : exn) (m : Machine) (t1 t2 : list Event) :
  caused e m t2 -> caused e m (t1 ++ t2).
Proof.
  intros [H | [H | (t0 & a & st & w & -> & H)]].
  - left. exact H.
  - right. left. exact H.
  - right. right. exists (t1 ++ t0), a, st, w. rewrite app_assoc. auto.
Qed.

Lemma explained_bind_returns {A B : Type} (c : M A) (k : A -> M B) (Q : A -> Prop) :
  explained c -> returns c Q -> (forall a, Q a -> explained (k a)) ->
  explained (bind c k).
Proof.
  intros Hc HQ Hk m e m' t. unfold bind.
  destruct (c m) as [[[a|e1|] m1] t1] eqn:Hcm.
  - destruct (k a m1) as [[r m2] t2] eqn:Hkm. intros H. inversion H; subst.
    apply caused_app. eapply Hk; [|exact Hkm]. eapply HQ. exact Hcm.
  - intros H. inversion H; subst. eapply Hc. exact Hcm.
  - discriminate.
Qed.

Lemma explained_bind {A B : Type} (c : M A) (k : A -> M B) :
  explained c -> (forall a, explained (k a)) -> explained (bind c k).
Proof.
  intros Hc Hk. apply (explained_bind_returns c k (fun _ => True)); auto.
  intros m a m' t _. exact I.
Qed.

Lemma returns_bind {A B : Type} (c : M A) (k : A -> M B) (Q : B -> Prop) :
  (forall a, returns (k a) Q) -> returns (bind c k) Q.
Proof.
  intros Hk m b m' t. unfold bind.
  destruct (c m) as [[[a|e1|] m1] t1]; try discriminate.
  destruct (k a m1) as [[r m2] t2] eqn:Hkm. intros H. inversion H; subst.
  eapply Hk. exact Hkm.
Qed.

Lemma returns_ret {A : Type} (a : A) (Q : A -> Prop) : Q a -> returns (ret a) Q.
Proof. intros H m b m' t E. inversion E; subst. exact H. Qed.

Lemma explained_ret {A : Type} (a : A) : explained (ret a).
Proof. intros m e m' t H. discriminate. Qed.

Lemma explained_timeout {A : Type} : explained (@timeout World A).
Proof. intros m e m' t H. discriminate. Qed.

Lemma explained_get_state : explained get_state.
Proof. intros m e m' t H. discriminate. Qed.

Lemma explained_assign f : explained (assign f).
Proof. intros m e m' t H. discriminate. Qed.

Lemma explained_emit ev : explained (emit ev).
Proof. intros m e m' t H. discriminate. Qed.

Lemma explained_print (line : nat) (values : list Value) :
  explained (print line values).
Proof.
  intros m e m' t. unfold Terminal.print.
  destruct (stdout _) as [e'|] eqn:H; [|discriminate].
  intros E. inversion E; subst. right. left. eauto.
Qed.

Lemma explained_input_line : explained (Terminal.input_line World stdin).
Proof.
  intros m e m' t. unfold Terminal.input_line.
  destruct (stdin (cursor m)) as [line|e'] eqn:H; [discriminate|].
  intros E. inversion E; subst. left. exists (cursor m). auto.
Qed.

Lemma explained_call_planner : explained (call Planner (create_plan World agents)).
Proof.
  intros m e m' t. unfold call.
  destruct (create_plan World agents (state m) (world m)) as [[out|e'] w] eqn:H;
    [discriminate|].
  intros E. inversion E; subst. right. right.
  exists [], Planner, (state m), (world m). split; [reflexivity | exact H].
Qed.

Lemma explained_call_executor : explained (call Executor (execute_step World agents)).
Proof.
  intros m e m' t. unfold call.
  destruct (execute_step World agents (state m) (world m)) as [[out|e'] w] eqn:H;
    [discriminate|].
  intros E. inversion E; subst. right. right.
  exists [], Executor, (state m), (world m). split; [reflexivity | exact H].
Qed.

Lemma explained_call_replanner :
  explained (call Replanner (decide_next_action World agents)).
Proof.
  intros m e m' t. unfold call.
  destruct (decide_next_action World agents (state m) (world m)) as [[out|e'] w] eqn:H;
    [discriminate|].
  intros E. inversion E; subst. right. right.
  exists [], Replanner, (state m), (world m). split; [reflexivity | exact H].
Qed.

Lemma explained_call_synthesizer :
  explained (call Synthesizer (synthesize_response World agents)).
Proof.
  intros m e m' t. unfold call.
  destruct (synthesize_response World agents (state m) (world m)) as [[out|e'] w] eqn:H;
    [discriminate|].
  intros E. inversion E; subst. right. right.
  exists [], Synthesizer, (state m), (world m). split; [reflexivity | exact H].
Qed.

Create HintDb explained discriminated.
#[local] Hint Resolve explained_ret explained_timeout explained_get_state
  explained_assign explained_emit explained_print explained_input_line
  explained_call_planner explained_call_executor explained_call_replanner
  explained_call_synthesizer : explained.

Ltac explain :=
  repeat first
    [ solve [auto with explained]
    | apply explained_bind; [|intros ?]
    | match goal with
      | |- Terminal.explained _ _ _ _ (if ?c then _ else _) => destruct c
      | |- Terminal.explained _ _ _ _ (match ?o with _ => _ end) => destruct o
      end ].

Lemma explained_print_past_steps (past : list (string * string)) :
  forall i, explained (Terminal.print_past_steps World stdout i past).
Proof.
  induction past as [|[step result] rest IH]; intros i;
    cbn [Terminal.print_past_steps]; explain.
Qed.

Lemma explained_print_plan (steps : list string) :
  forall i, explained (Terminal.print_plan World stdout i steps).
Proof.
  induction steps as [|step rest IH]; intros i;
    cbn [Terminal.print_plan]; explain.
Qed.

#[local] Hint Resolve explained_print_past_steps explained_print_plan : explained.

Lemma explained_print_overview (st : DiagnosticState) :
  explained (Terminal.print_overview World stdout st).
Proof. unfold Terminal.print_overview. explain. Qed.

Lemma explained_ask (fuel : nat) : explained (Terminal.ask World stdin stdout fuel).
Proof.
  induction fuel as [|fuel IH]; cbn [Terminal.ask]; explain.
Qed.

Lemma ask_returns (fuel : nat) :
  returns (Terminal.ask World stdin stdout fuel) well_formed.
Proof.
  induction fuel as [|fuel IH]; cbn [Terminal.ask].
  - intros m a m' t H. discriminate.
  - apply returns_bind. intros choice_raw. cbv zeta.
    destruct (mem _ ["c"; "continue"]).
    { apply returns_ret. unfold well_formed. auto. }
    destruct (mem _ ["s"; "synthesize"]).
    { apply returns_ret. unfold well_formed. auto. }
    destruct (mem _ ["e"; "edit"]).
    { apply returns_bind. intros []. apply returns_bind. intros line.
      apply returns_ret. unfold well_formed. eauto 6. }
    destruct (mem _ ["q"; "quit"]).
    { apply returns_ret. unfold well_formed. auto. }
    apply returns_bind. intros []. exact IH.
Qed.

#[local] Hint Resolve explained_print_overview explained_ask : explained.

Lemma explained_review (fuel : nat) (st : DiagnosticState) :
  explained (Terminal._human_in_the_loop_review World stdin stdout fuel st).
Proof. unfold Terminal._human_in_the_loop_review. explain. Qed.

Lemma review_returns (fuel : nat) (st : DiagnosticState) :
  returns (Terminal._human_in_the_loop_review World stdin stdout fuel st) well_formed.
Proof.
  unfold Terminal._human_in_the_loop_review.
  apply returns_bind. intros []. apply returns_bind. intros [].
  intros m d m' t. unfold bind.
  destruct (Terminal.ask World stdin stdout fuel m) as [[[d'|e|] m1] t1] eqn:Hask;
    try discriminate.
  cbn. intros H. inversion H; subst. eapply ask_returns. exact Hask.
Qed.

Lemma explained_human_review_step (fuel current_iteration : nat) :
  explained (Terminal.human_review_step World stdin stdout fuel current_iteration).
Proof.
  unfold Terminal.human_review_step.
  apply explained_bind; [auto with explained|]. intros st.
  destruct (negb (ready_for_synthesis st) && negb (truthy (response st)));
    [|auto with explained].
  apply (explained_bind_returns _ _ well_formed);
    [apply explained_review | apply review_returns|].
  intros d [->|[->|[[edited ->]| ->]]];
    cbn [action new_plan String.eqb Ascii.eqb Bool.eqb lookup]; explain.
Qed.

#[local] Hint Resolve explained_human_review_step : explained.

Lemma explained_loop_body (fuel current_iteration : nat) :
  explained (Terminal.loop_body World agents stdin stdout fuel current_iteration).
Proof.
  unfold Terminal.loop_body, Terminal.force_on_empty_plan, Terminal.executor_step,
    Terminal.replan_step. cbv zeta. explain.
Qed.

#[local] Hint Resolve explained_loop_body : explained.

Lemma explained_main_loop (fuel : nat) :
  forall current_iteration,
    explained (Terminal.main_loop World agents stdin stdout fuel current_iteration).
Proof.
  induction fuel as [|fuel IH]; intros c; cbn [Terminal.main_loop]; explain.
Qed.

Lemma explained_conclude : explained (Terminal.conclude World agents stdout).
Proof. unfold Terminal.conclude. explain. Qed.

#[local] Hint Resolve explained_main_loop explained_conclude : explained.


End Causes.


End TerminalFacts.

(* ===================================================================== *)
(** ** More about the manual search tool and the Manual Agent *)
(* ===================================================================== *)

Module ManualExtras.
Import PyStr PyText PyStrFacts ManualSearchTool ManualSearchToolFacts Console.

(** *** Lower case *)

Lemma lower_char_idempotent (c : ascii) : lower_char (lower_char c) = lower_char c.
Proof. destruct c as [[] [] [] [] [] [] [] []]; reflexivity. Qed.

Lemma lower_idempotent (s : string) : lower (lower s) = lower s.
Proof.
  induction s as [|c r IH]; simpl; [reflexivity|].
  rewrite lower_char_idempotent, IH. reflexivity.
Qed.

Lemma sub_scan_lower (word repl : string) (s : string) :
  lower repl = repl ->
  forall prev skip, lower s = s ->
    lower (sub_scan word repl prev skip s) = sub_scan word repl prev skip s.
Proof.
  intros Hrepl. induction s as [|c r IH]; intros prev skip Hs; [reflexivity|].
  simpl in Hs. inversion Hs as [[Hc Hr]]. rewrite Hc, Hr.
  cbn [sub_scan]. destruct skip as [|k].
  - destruct (match_word_here word prev (String c r)).
    + rewrite lower_append, Hrepl, IH by assumption. reflexivity.
    + cbn [lower]. rewrite Hc, IH by assumption. reflexivity.
  - apply IH. assumption.
Qed.

Lemma apply_mapping_lower (mapping : list (string * string)) :
  Forall (fun rule => lower (snd rule) = snd rule) mapping ->
  forall s, lower s = s -> lower (apply_mapping mapping s) = apply_mapping mapping s.
Proof.
  unfold apply_mapping.
  induction mapping as [|rule mapping IH]; intros Hall s Hs; [exact Hs|].
  inversion Hall; subst. cbn [fold_left]. apply IH; [assumption|].
  unfold re_sub_word. now apply sub_scan_lower.
Qed.

(** The normalised query is in lower case, whatever was typed: lowering
    it again changes nothing. *)
Theorem preprocessed_query_is_lower_case (query : string) :
  lower (_preprocess_query query) = _preprocess_query query.
Proof.
  unfold _preprocess_query. apply apply_mapping_lower.
  - unfold query_mapping. repeat constructor.
  - apply lower_idempotent.
Qed.

(** *** Queries without abbreviations *)

Lemma sub_scan_without_word (word repl : string) (s : string) :
  forall prev, contains word s = false -> sub_scan word repl prev 0 s = s.
Proof.
  induction s as [|c r IH]; intros prev H; [reflexivity|].
  cbn [contains] in H.
  destruct (prefix word (String c r)) eqn:Hp; [discriminate|].
  cbn [sub_scan]. unfold match_word_here. rewrite Hp, andb_false_r. cbn [andb].
  f_equal. apply IH. exact H.
Qed.

(** A query in which none of the abbreviations occurs, not even inside a
    longer word, is only put in lower case. *)
Theorem query_without_abbreviations_is_lowered (query : string) :
  (forall rule, In rule query_mapping -> contains (fst rule) (lower query) = false) ->
  _preprocess_query query = lower query.
Proof.
  unfold _preprocess_query, apply_mapping.
  generalize (lower query) as s. generalize query_mapping as mapping.
  induction mapping as [|rule mapping IH]; intros s H; [reflexivity|].
  cbn [fold_left].
  assert (E : re_sub_word (fst rule) (snd rule) s = s).
  { unfold re_sub_word. apply sub_scan_without_word. apply H. left. reflexivity. }
  rewrite E. apply IH. intros r Hr. apply H. right. exact Hr.
Qed.

Lemma query_without_abbreviations_is_lowered_witness :
  _preprocess_query "Check the Pump" = "check the pump".
Proof.
  apply (query_without_abbreviations_is_lowered "Check the Pump").
  intros rule Hin. unfold query_mapping in Hin. simpl in Hin.
  repeat (destruct Hin as [<-|Hin]; [reflexivity|]). contradiction.
Defined.

(** Each abbreviation of the dictionary, typed on its own in any case, is
    replaced by exactly its full form: no rule rewrites what another rule
    has produced. *)
Theorem abbreviation_alone_becomes_full_form (rule : string * string) (query : string) :
  In rule query_mapping -> lower query = fst rule ->
  _preprocess_query query = snd rule.
Proof.
  intros Hin Hq. unfold _preprocess_query. rewrite Hq. clear Hq.
  unfold query_mapping in Hin. simpl in Hin.
  repeat (destruct Hin as [<-|Hin]; [vm_compute; reflexivity|]). contradiction.
Qed.

Lemma abbreviation_alone_becomes_full_form_witness :
  _preprocess_query "RPM" = "rotations per minute".
Proof.
  apply (abbreviation_alone_becomes_full_form ("rpm", "rotations per minute") "RPM").
  - simpl. auto.
  - reflexivity.
Defined.

(** *** The results of a search *)

Section Search.
Variable Score : Type.
Variable one_minus : Score -> Score.
Variable Filter : Type.
Variable filter_truthy : Filter -> bool.
Variable similarity_search_with_score :
  string -> nat -> option Filter -> outcome (list (Document * Score)).

Local Notation search :=
  (search Score one_minus Filter filter_truthy similarity_search_with_score).
Local Notation passed_filter := (passed_filter Filter filter_truthy).
Local Notation format_results := (format_results Score one_minus).

Lemma format_results_length (i : nat) (results : list (Document * Score)) :
  length (format_results i results) = length results.
Proof.
  revert i. induction results as [|[doc score] rest IH]; intros i; simpl; auto.
Qed.

Lemma format_results_nth (results : list (Document * Score)) :
  forall (start i : nat) (doc : Document) (score : Score),
    nth_error results i = Some (doc, score) ->
    nth_error (format_results start results) i
    = Some (mkSearchResult Score (page_content doc)
              (get_or (source_file doc) "Unknown")
              (get_or (page_number doc) "Unknown")
              (one_minus score) (start + i + 1)).
Proof.
  induction results as [|[d s] rest IH]; intros start i doc score H.
  - destruct i; discriminate.
  - destruct i as [|i]; simpl in H |- *.
    + inversion H; subst. rewrite Nat.add_0_r. reflexivity.
    + rewrite (IH (S start) i doc score H). do 2 f_equal. lia.
Qed.

(** For a query with text in it, [search] asks the store once, with the
    filter it was given, or with no filter when it was given none or an
    empty dictionary, and hands back one result per document the store
    finds, in the order of the store: the result at position [i] (from 0)
    has rank [i + 1], the text of the document, the relevance [1 - score],
    and "Unknown" for a source file or a page number the document does not
    name. *)
Theorem search_results_follow_the_store
  (query : string) (top_k : nat) (filter : option Filter)
  (documents : list (Document * Score)) :
  blank query = false ->
  similarity_search_with_score (_preprocess_query query) top_k (passed_filter filter)
    = Ok documents ->
  exists results,
    search query top_k filter
    = (Ok results,
       [Preprocessed Filter query;
        SimilaritySearch Filter (_preprocess_query query) top_k (passed_filter filter)])
    /\ (forall f, filter = Some f -> filter_truthy f = false -> passed_filter filter = None)
    /\ length results = length documents
    /\ forall i doc score,
         nth_error documents i = Some (doc, score) ->
         nth_error results i
         = Some (mkSearchResult Score (page_content doc)
                   (get_or (source_file doc) "Unknown")
                   (get_or (page_number doc) "Unknown")
                   (one_minus score) (i + 1)).
Proof.
  intros Hb Hstore. unfold ManualSearchTool.search.
  rewrite strip_truthy, Hb. cbn [negb]. cbv zeta. rewrite Hstore.
  eexists. split; [reflexivity|]. split; [|split].
  - intros f -> Hf. unfold ManualSearchTool.passed_filter. rewrite Hf. reflexivity.
  - apply format_results_length.
  - intros i doc score H. apply (format_results_nth documents 0 i doc score H).
Qed.

(** [search] has no handler of its own: a failure of the vector store
    leaves it as the exception it is. *)
Lemma search_lets_store_failure_through
  (query : string) (top_k : nat) (filter : option Filter) (e : exn) :
  blank query = false ->
  similarity_search_with_score (_preprocess_query query) top_k (passed_filter filter)
    = Raise e ->
  fst (search query top_k filter) = Raise e.
Proof.
  intros Hb Hstore. unfold ManualSearchTool.search.
  rewrite strip_truthy, Hb. cbn [negb]. cbv zeta. rewrite Hstore. reflexivity.
Qed.

End Search.

(** The theorem at work: an empty dictionary as filter, and a store that
    answers only when it is asked without a filter. *)
Lemma search_results_follow_the_store_witness :
  exists results,
    fst (ManualSearchTool.search nat (fun score => 1 - score)
           ManualQueries.Filter ManualQueries.filter_truthy
           (fun _ _ filter =>
              match filter with
              | None => Ok [(mkDocument "Open valve V2." (Some "pump.pdf") None, 0)]
              | Some _ => Raise (Raised "bad filter")
              end)
           "temp" 5 (Some [])) = Ok results
    /\ length results = 1.
Proof.
  destruct (search_results_follow_the_store nat (fun score => 1 - score)
              ManualQueries.Filter ManualQueries.filter_truthy
              (fun _ _ filter =>
                 match filter with
                 | None => Ok [(mkDocument "Open valve V2." (Some "pump.pdf") None, 0)]
                 | Some _ => Raise (Raised "bad filter")
                 end)
              "temp" 5 (Some [])
              [(mkDocument "Open valve V2." (Some "pump.pdf") None, 0)]
              eq_refl eq_refl) as (results & Hsearch & _ & Hlen & _).
  exists results. rewrite Hsearch. split; [reflexivity | exact Hlen].
Defined.

(** *** The specialised searches *)

Lemma blank_append (s t : string) : blank (s ++ t) = blank s && blank t.
Proof.
  induction s as [|c r IH]; simpl; [reflexivity|].
  rewrite IH. apply andb_assoc.
Qed.

Section Queries.
Variable Score : Type.
Variable one_minus : Score -> Score.
Variable similarity_search_with_score :
  string -> nat -> option ManualQueries.Filter -> outcome (list (Document * Score)).

Local Notation search_by_error_code :=
  (ManualQueries.search_by_error_code Score one_minus similarity_search_with_score).
Local Notation get_procedure_steps :=
  (ManualQueries.get_procedure_steps Score one_minus similarity_search_with_score).
Local Notation get_safety_information :=
  (ManualQueries.get_safety_information Score one_minus similarity_search_with_score).
Local Notation get_specifications :=
  (ManualQueries.get_specifications Score one_minus similarity_search_with_score).

(** The four searches that build their query around the argument never
    stop at the empty-query guard: whatever the argument, the empty
    string included, the query is preprocessed and the store is asked,
    without a metadata filter. *)
Theorem specialised_searches_always_ask_the_store
  (argument spec_type : string) (top_k : nat) :
  snd (search_by_error_code argument top_k)
  = [Preprocessed ManualQueries.Filter (ManualQueries.error_code_query argument);
     SimilaritySearch ManualQueries.Filter
       (_preprocess_query (ManualQueries.error_code_query argument)) top_k None]
  /\ snd (get_procedure_steps argument top_k)
     = [Preprocessed ManualQueries.Filter (ManualQueries.procedure_query argument);
        SimilaritySearch ManualQueries.Filter
          (_preprocess_query (ManualQueries.procedure_query argument)) top_k None]
  /\ snd (get_safety_information argument top_k)
     = [Preprocessed ManualQueries.Filter (ManualQueries.safety_query argument);
        SimilaritySearch ManualQueries.Filter
          (_preprocess_query (ManualQueries.safety_query argument)) top_k None]
  /\ snd (get_specifications argument spec_type top_k)
     = [Preprocessed ManualQueries.Filter
          (ManualQueries.specification_query argument spec_type);
        SimilaritySearch ManualQueries.Filter
          (_preprocess_query (ManualQueries.specification_query argument spec_type))
          top_k None].
Proof.
  repeat split;
    apply search_text_query;
    unfold ManualQueries.error_code_query, ManualQueries.procedure_query,
      ManualQueries.safety_query, ManualQueries.specification_query;
    rewrite ?blank_append; cbn [blank]; rewrite ?andb_false_r; reflexivity.
Qed.

End Queries.

(** *** The Manual Agent *)

Lemma take_length (n : nat) (s : string) :
  String.length (take n s) = Nat.min n (String.length s).
Proof.
  revert s. induction n as [|n IH]; intros s; [reflexivity|].
  destruct s as [|c r]; simpl; [reflexivity | now rewrite IH].
Qed.

Lemma append_length (s t : string) :
  String.length (s ++ t) = String.length s + String.length t.
Proof. induction s as [|c r IH]; simpl; [reflexivity | now rewrite IH]. Qed.

Lemma take_prefix (n : nat) (s : string) : prefix (take n s) s = true.
Proof.
  revert s. induction n as [|n IH]; intros s.
  - destruct s; reflexivity.
  - destruct s as [|c r]; [reflexivity|]. simpl.
    destruct (ascii_dec c c) as [_|Hne]; [apply IH | congruence].
Qed.

(** The preview of a result is the content itself when that has at most
    200 characters; otherwise it is the first 200 characters followed by
    three dots.  It is never longer than 203 characters. *)
Theorem content_preview_is_bounded (content : string) :
  String.length (ManualAgent.content_preview content) <= 203
  /\ (String.length content <= 200 -> ManualAgent.content_preview content = content)
  /\ (200 < String.length content ->
        ManualAgent.content_preview content = (take 200 content ++ "...")%string
        /\ String.length (ManualAgent.content_preview content) = 203
        /\ prefix (take 200 content) content = true).
Proof.
  unfold ManualAgent.content_preview.
  destruct (Nat.ltb_spec 200 (String.length content)) as [Hlong | Hshort].
  - assert (Hlen : String.length (take 200 content ++ "...") = 203).
    { rewrite append_length, take_length. simpl String.length. lia. }
    repeat split; try lia; auto using take_prefix.
  - repeat split; try lia; auto.
Qed.

Lemma content_preview_is_bounded_witness :
  ManualAgent.content_preview "Open valve V2." = "Open valve V2.".
Proof.
  apply (proj1 (proj2 (content_preview_is_bounded "Open valve V2."))).
  simpl. lia.
Defined.

Section Agent.
Variable Score : Type.
Variable one_minus : Score -> Score.
Variable similarity_search_with_score :
  string -> nat -> option ManualQueries.Filter -> outcome (list (Document * Score)).

Variable stdout : Console.Output -> option exn.

Local Notation agent_search :=
  (ManualAgent.search Score one_minus similarity_search_with_score).
Local Notation agent_search_printing :=
  (ManualAgent.search_printing Score one_minus similarity_search_with_score stdout).
Local Notation format_entries := (ManualAgent.format_entries Score).


Lemma format_entries_length (i : nat) (results : list (SearchResult Score)) :
  length (format_entries i results) = length results.
Proof.
  revert i. induction results as [|res rest IH]; intros i; simpl; auto.
Qed.

Lemma format_entries_nth (results : list (SearchResult Score)) :
  forall (start i : nat) (res : SearchResult Score),
    nth_error results i = Some res ->
    nth_error (format_entries start results) i
    = Some (ManualAgent.format_entry Score (start + i) res).
Proof.
  induction results as [|r rest IH]; intros start i res H.
  - destruct i; discriminate.
  - destruct i as [|i]; simpl in H |- *.
    + inversion H; subst. rewrite Nat.add_0_r. reflexivity.
    + rewrite (IH (S start) i res H). do 2 f_equal. lia.
Qed.

(** When the store finds documents, the answer of the Manual Agent is
    one entry per document, joined by line breaks, in the order of the
    store and numbered from 1: the number, a dot, the preview of the
    text, and the source file of the document ("Unknown" if it names
    none). *)
Theorem manual_agent_lists_the_documents
  (user_query : string) (top_k : nat)
  (doc : Document) (score : Score) (documents : list (Document * Score)) :
  blank user_query = false ->
  similarity_search_with_score (_preprocess_query user_query) top_k None
    = Ok ((doc, score) :: documents) ->
  exists entries,
    fst (agent_search user_query top_k) = join newline entries
    /\ length entries = S (length documents)
    /\ forall i d s,
         nth_error ((doc, score) :: documents) i = Some (d, s) ->
         nth_error entries i
         = Some (str_nat (i + 1) ++ ". "
                   ++ ManualAgent.content_preview (page_content d)
                   ++ " (Source: " ++ get_or (source_file d) "Unknown" ++ ")")%string.
Proof.
  intros Hb Hstore.
  unfold ManualAgent.search, ManualQueries.search, ManualSearchTool.search.
  rewrite strip_truthy, Hb. cbv zeta. cbn [negb ManualSearchTool.passed_filter].
  rewrite Hstore. cbn [fst].
  set (results := ManualSearchTool.format_results Score one_minus 0
                    ((doc, score) :: documents)).
  exists (format_entries 1 results). split; [|split].
  - unfold results. reflexivity.
  - rewrite format_entries_length. unfold results.
    rewrite format_results_length. reflexivity.
  - intros i d s H.
    pose proof (format_results_nth Score one_minus _ 0 i d s H) as Hres.
    fold results in Hres.
    rewrite (format_entries_nth results 1 i _ Hres).
    unfold ManualAgent.format_entry. cbn [content source].
    replace (1 + i) with (i + 1) by lia. reflexivity.
Qed.

End Agent.


Lemma manual_agent_lists_the_documents_witness :
  exists entries,
    fst (ManualAgent.search nat (fun score => 1 - score)
           (fun _ _ _ => Ok [(mkDocument "Open valve V2." (Some "pump.pdf") None, 0);
                             (mkDocument "Close valve V3." None None, 0)])
           "pump temp" 3) = join newline entries
    /\ length entries = 2.
Proof.
  destruct (manual_agent_lists_the_documents nat (fun score => 1 - score)
              (fun _ _ _ => Ok [(mkDocument "Open valve V2." (Some "pump.pdf") None, 0);
                                (mkDocument "Close valve V3." None None, 0)])
              "pump temp" 3
              (mkDocument "Open valve V2." (Some "pump.pdf") None) 0
              [(mkDocument "Close valve V3." None None, 0)] eq_refl eq_refl)
    as (entries & Hsearch & Hlen & _).
  exists entries. split; assumption.
Defined.

End ManualExtras.

(* ===================================================================== *)
(** ** More about the SCADA query tool *)
(* ===================================================================== *)

Module ScadaExtras.
Import PyStr ScadaQueryTool ScadaStatements.

Lemma first_month_spec (months : list (string * string)) (q : string) :
  match first_month months q with
  | None => forall name num, In (name, num) months -> contains name q = false
  | Some num =>
      exists before name after,
        months = before ++ (name, num) :: after
        /\ contains name q = true
        /\ forall name' num', In (name', num') before -> contains name' q = false
  end.
Proof.
  induction months as [|[name num] rest IH]; simpl.
  - intros name num [].
  - destruct (contains name q) eqn:Hc.
    + exists [], name, rest. repeat split; auto. intros ? ? [].
    + destruct (first_month rest q) as [found|].
      * destruct IH as (before & name' & after & -> & Hfound & Hbefore).
        exists ((name, num) :: before), name', after. repeat split; auto.
        intros n c [E | Hin]; [inversion E; subst; exact Hc | eauto].
      * intros n c [E | Hin]; [inversion E; subst; exact Hc | eauto].
Qed.

(** [extract_month] finds a month wherever its name occurs in the
    question, also inside a longer word, and of several months it takes
    the earliest of the year, not the first one mentioned; it finds none
    exactly when no name of a month occurs. *)
Theorem extract_month_takes_the_earliest (q : string) :
  (extract_month q = None <->
     forall name num, In (name, num) month_map -> contains name q = false)
  /\ (forall num,
        extract_month q = Some num ->
        exists before name after,
          month_map = before ++ (name, num) :: after
          /\ contains name q = true
          /\ forall name' num', In (name', num') before -> contains name' q = false).
Proof.
  unfold extract_month. pose proof (first_month_spec month_map q) as H.
  destruct (first_month month_map q) as [found|].
  - split.
    + split; [discriminate|]. intros Hnone.
      destruct H as (before & name & after & E & Hc & _).
      rewrite (Hnone name found) in Hc; [discriminate|].
      rewrite E. apply in_or_app. right. left. reflexivity.
    + intros num E. inversion E; subst. exact H.
  - split; [tauto | discriminate].
Qed.

Lemma extract_month_takes_the_earliest_witness :
  extract_month "compare may with march" = Some "03"
  /\ exists before name after,
       month_map = before ++ (name, "03") :: after
       /\ contains name "compare may with march" = true.
Proof.
  split; [reflexivity|].
  destruct (proj2 (extract_month_takes_the_earliest "compare may with march")
              "03" eq_refl) as (before & name & after & E & Hc & _).
  exists before, name, after. split; assumption.
Defined.

Lemma select_query_known (q base : string) :
  select_query q = Some base -> In base metric_statements.
Proof.
  unfold select_query, metric_statements, aggregate_statement.
  repeat match goal with
         | |- context [if ?c then _ else _] => destruct c
         end;
    intros H; inversion H; subst; simpl; auto 10.
Qed.

Lemma first_month_known (months : list (string * string)) (q : string) :
  In (first_month months q) (None :: map (fun entry => Some (snd entry)) months).
Proof.
  induction months as [|[name num] rest IH]; simpl; [auto|].
  destruct (contains name q); [auto|].
  destruct IH as [E | Hin]; [left; exact E | right; right; exact Hin].
Qed.

Lemma statement_known (q base : string) :
  select_query q = Some base ->
  In (complete_query base (extract_month q)) all_statements.
Proof.
  intros H. unfold all_statements. apply in_flat_map.
  exists base. split; [eapply select_query_known; eauto|].
  apply in_map. apply first_month_known.
Qed.

Section Query.
Variable DataFrame : Type.
Variable df_empty : DataFrame -> bool.
Variable df_to_string : DataFrame -> string.
Variable post : ChatRequest -> outcome Response.

(** The text of the question never reaches the database.  [query_scada]
    reads the database only through the 78 fixed statements (six metrics,
    each without a month or with one of twelve): two databases that agree
    on these statements give the same answer to every question. *)
Theorem question_text_never_enters_sql
  (read_sql read_sql' : string -> outcome DataFrame) (nl_question : string) :
  (forall sql, In sql all_statements -> read_sql sql = read_sql' sql) ->
  query_scada DataFrame df_empty df_to_string read_sql post nl_question
  = query_scada DataFrame df_empty df_to_string read_sql' post nl_question.
Proof.
  intros Hagree. unfold query_scada.
  destruct (select_query (lower nl_question)) as [base|] eqn:Hselect; [|reflexivity].
  rewrite (Hagree _ (statement_known _ _ Hselect)). reflexivity.
Qed.

End Query.

Lemma question_text_never_enters_sql_witness :
  length all_statements = 78
  /\ query_scada unit (fun _ => true) (fun _ => EmptyString)
       (fun _ => Raise (Raised "locked"))
       (fun _ => Raise (Raised "offline")) "pressure'; DROP TABLE scada_logs; --"
     = query_scada unit (fun _ => true) (fun _ => EmptyString)
         (fun sql => if existsb (String.eqb sql) all_statements
                     then Raise (Raised "locked") else Ok tt)
         (fun _ => Raise (Raised "offline")) "pressure'; DROP TABLE scada_logs; --".
Proof.
  split; [reflexivity|].
  apply (question_text_never_enters_sql unit (fun _ => true) (fun _ => EmptyString)
           (fun _ => Raise (Raised "offline"))
           (fun _ => Raise (Raised "locked"))
           (fun sql => if existsb (String.eqb sql) all_statements
                       then Raise (Raised "locked") else Ok tt)).
  intros sql Hin.
  assert (E : existsb (String.eqb sql) all_statements = true).
  { apply existsb_exists. exists sql. split; [exact Hin | apply String.eqb_refl]. }
  rewrite E. reflexivity.
Defined.

Lemma statements_closed :
  forallb (fun base =>
             forallb (fun month =>
                        (complete_query base month =? closed_statement base month)%string)
                     known_months)
          metric_statements = true.
Proof. vm_compute. reflexivity. Qed.

(** Every statement is closed as its kind requires, whatever the month:
    the statements of the five metrics that list rows end with
    " ORDER BY timestamp DESC LIMIT 10;", so that at most the ten newest
    rows are read, and the average of the load ends with ";" alone.  The
    month, when the question names one, stands before that ending. *)
Theorem statements_are_limited (q base : string) :
  select_query q = Some base ->
  complete_query base (extract_month q) = closed_statement base (extract_month q)
  /\ (base <> aggregate_statement ->
        complete_query base (extract_month q)
        = (base ++ month_clause (extract_month q)
             ++ " ORDER BY timestamp DESC LIMIT 10;")%string)
  /\ (base = aggregate_statement ->
        complete_query base (extract_month q)
        = (base ++ month_clause (extract_month q) ++ ";")%string).
Proof.
  intros Hselect.
  assert (E : complete_query base (extract_month q)
              = closed_statement base (extract_month q)).
  { pose proof statements_closed as Hall.
    rewrite forallb_forall in Hall.
    specialize (Hall base (select_query_known _ _ Hselect)).
    rewrite forallb_forall in Hall.
    apply String.eqb_eq. apply Hall. apply first_month_known. }
  split; [exact E|]. rewrite E. unfold closed_statement.
  split; intros Hbase.
  - apply String.eqb_neq in Hbase. rewrite Hbase. reflexivity.
  - subst base. rewrite String.eqb_refl. reflexivity.
Qed.

Lemma statements_are_limited_witness :
  complete_query "SELECT * FROM scada_logs WHERE metric_name='rpm'"
    (extract_month "shaft speed in june")
  = "SELECT * FROM scada_logs WHERE metric_name='rpm' AND strftime('%m', timestamp) = '06' ORDER BY timestamp DESC LIMIT 10;".
Proof.
  apply (proj1 (proj2 (statements_are_limited "shaft speed in june"
                         "SELECT * FROM scada_logs WHERE metric_name='rpm'" eq_refl))).
  discriminate.
Defined.

End ScadaExtras.

(* ===================================================================== *)
(** ** The plan typed at the gate *)
(* ===================================================================== *)

Module PlanTextFacts.
Import PyStr PyText PyStrFacts Orchestrator WorkflowSpec.

Lemma lstrip_lacks (c : ascii) (s : string) :
  lacks c s = true -> lacks c (lstrip s) = true.
Proof.
  induction s as [|a r IH]; simpl; intros H; [reflexivity|].
  apply andb_true_iff in H as [Ha Hr].
  destruct (isspace a); [auto | simpl; now rewrite Ha, Hr].
Qed.

Lemma rstrip_lacks (c : ascii) (s : string) :
  lacks c s = true -> lacks c (rstrip s) = true.
Proof.
  induction s as [|a r IH]; simpl; intros H; [reflexivity|].
  apply andb_true_iff in H as [Ha Hr]. specialize (IH Hr).
  destruct (rstrip r) as [|b r'].
  - destruct (isspace a); simpl; [reflexivity | now rewrite Ha].
  - cbn [lacks]. rewrite Ha. exact IH.
Qed.

Lemma strip_lacks (c : ascii) (s : string) :
  lacks c s = true -> lacks c (strip s) = true.
Proof. intros H. unfold strip. now apply rstrip_lacks, lstrip_lacks. Qed.

Lemma split_not_nil (sep : ascii) (s : string) : split sep s <> [].
Proof.
  induction s as [|a r IH]; simpl; [discriminate|].
  destruct (Ascii.eqb a sep); [discriminate|].
  destruct (split sep r); [congruence | discriminate].
Qed.

(** No piece of a split holds the separator. *)
Lemma split_lacks (sep : ascii) (s : string) :
  Forall (fun piece => lacks sep piece = true) (split sep s).
Proof.
  induction s as [|a r IH]; simpl.
  - constructor; [reflexivity | constructor].
  - destruct (Ascii.eqb a sep) eqn:E.
    + constructor; [reflexivity | exact IH].
    + destruct (split sep r) as [|h t]; [constructor; [|constructor]|].
      * simpl. rewrite E. reflexivity.
      * inversion IH; subst. constructor; [|assumption].
        simpl. rewrite E. assumption.
Qed.

Lemma rstrip_idempotent (s : string) : rstrip (rstrip s) = rstrip s.
Proof.
  induction s as [|a r IH]; [reflexivity|].
  cbn [rstrip]. destruct (rstrip r) as [|b r'] eqn:E.
  - destruct (isspace a) eqn:Ha; [reflexivity|].
    cbn [rstrip]. rewrite Ha. reflexivity.
  - cbn [rstrip]. cbn [rstrip] in IH.
    change (match rstrip r' with
            | EmptyString => if isspace b then EmptyString else String b EmptyString
            | String a0 s0 => String b (String a0 s0)
            end) with (rstrip (String b r')) in *.
    rewrite IH. reflexivity.
Qed.

Lemma lstrip_starts_with_text (s : string) :
  lstrip s = EmptyString
  \/ exists c r, lstrip s = String c r /\ isspace c = false.
Proof.
  induction s as [|a r IH]; simpl; [auto|].
  destruct (isspace a) eqn:Ha; [exact IH|]. right. eauto.
Qed.

Lemma rstrip_keeps_head (c : ascii) (r : string) :
  isspace c = false -> exists r', rstrip (String c r) = String c r'.
Proof.
  intros Hc. cbn [rstrip]. rewrite Hc. destruct (rstrip r); eauto.
Qed.

(** Stripping twice is stripping once. *)
Lemma strip_idempotent (s : string) : strip (strip s) = strip s.
Proof.
  unfold strip.
  destruct (lstrip_starts_with_text s) as [E | (c & r & E & Hc)]; rewrite E.
  - reflexivity.
  - destruct (rstrip_keeps_head c r Hc) as (r' & Er).
    assert (El : lstrip (rstrip (String c r)) = rstrip (String c r)).
    { rewrite Er. cbn [lstrip]. rewrite Hc. reflexivity. }
    rewrite El. apply rstrip_idempotent.
Qed.

(** Whatever is typed after "edit", every step of the new plan is a
    piece of text: it is not empty, it has no blank at either end, and it
    holds no comma. *)
Theorem parsed_steps_are_clean (new_plan_str : string) :
  Forall (fun step => clean step = true) (parse_plan new_plan_str).
Proof.
  unfold parse_plan. apply Forall_forall. intros step Hin.
  apply in_map_iff in Hin as (piece & <- & Hpiece).
  apply filter_In in Hpiece as [Hsplit Htrue].
  pose proof (split_lacks "," new_plan_str) as Hall.
  rewrite Forall_forall in Hall. specialize (Hall piece Hsplit).
  unfold clean. rewrite Htrue, strip_idempotent, String.eqb_refl.
  rewrite (strip_lacks _ _ Hall). reflexivity.
Qed.

(** *** Typing the steps back *)

Lemma split_single (sep : ascii) (p : string) :
  lacks sep p = true -> split sep p = [p].
Proof.
  induction p as [|a r IH]; simpl; intros H; [reflexivity|].
  apply andb_true_iff in H as [Ha Hr]. apply negb_true_iff in Ha.
  rewrite Ha, (IH Hr). reflexivity.
Qed.

Lemma split_append_separator (sep : ascii) (p x : string) :
  lacks sep p = true ->
  split sep (p ++ String sep x) = p :: split sep x.
Proof.
  induction p as [|a r IH]; simpl; intros H.
  - rewrite Ascii.eqb_refl. reflexivity.
  - apply andb_true_iff in H as [Ha Hr]. apply negb_true_iff in Ha.
    rewrite Ha, (IH Hr). reflexivity.
Qed.

Lemma split_joined (steps : list string) :
  Forall (fun step => lacks "," step = true) steps ->
  split "," (join ", " steps)
  = match steps with
    | [] => [EmptyString]
    | p :: rest => p :: map spaced rest
    end.
Proof.
  induction steps as [|p rest IH]; intros Hall; [reflexivity|].
  inversion Hall as [|? ? Hp Hrest]; subst.
  destruct rest as [|q rest].
  - simpl. now apply split_single.
  - change (join ", " (p :: q :: rest))
      with (p ++ String "," (String " " (join ", " (q :: rest))))%string.
    rewrite split_append_separator by assumption.
    cbn [split]. change (Ascii.eqb " " ",") with false. cbv iota.
    rewrite (IH Hrest). reflexivity.
Qed.

Lemma clean_inv (step : string) :
  clean step = true ->
  truthy step = true /\ strip step = step /\ lacks "," step = true.
Proof.
  unfold clean. intros H.
  apply andb_true_iff in H as [H Hl]. apply andb_true_iff in H as [Ht Hs].
  apply String.eqb_eq in Hs. auto.
Qed.

Lemma strip_spaced (step : string) : strip (spaced step) = strip step.
Proof. reflexivity. Qed.

Lemma parse_pieces (rest : list string) :
  Forall (fun step => clean step = true) rest ->
  map strip (filter (fun step => truthy (strip step)) (map spaced rest)) = rest.
Proof.
  induction rest as [|q rest IH]; intros Hall; [reflexivity|].
  inversion Hall as [|? ? Hq Hrest]; subst.
  destruct (clean_inv q Hq) as (Ht & Hs & _).
  cbn [map filter]. rewrite strip_spaced, Hs, Ht. cbn [map].
  rewrite strip_spaced, Hs, (IH Hrest). reflexivity.
Qed.

Lemma parse_plan_joined (steps : list string) :
  Forall (fun step => clean step = true) steps ->
  parse_plan (join ", " steps) = steps.
Proof.
  intros Hall. unfold parse_plan.
  rewrite split_joined.
  2:{ eapply Forall_impl; [|exact Hall]. intros s Hs. now apply clean_inv in Hs. }
  destruct steps as [|p rest]; [reflexivity|].
  inversion Hall as [|? ? Hp Hrest]; subst.
  destruct (clean_inv p Hp) as (Ht & Hs & _).
  cbn [filter]. rewrite Hs, Ht. cbn [map]. rewrite Hs.
  f_equal. now apply parse_pieces.
Qed.

Lemma rstrip_append (a b : string) :
  truthy (rstrip b) = true -> rstrip (a ++ b) = (a ++ rstrip b)%string.
Proof.
  intros Hb. induction a as [|c r IH]; [reflexivity|].
  cbn [append rstrip]. rewrite IH.
  destruct (r ++ rstrip b)%string eqn:E; [|reflexivity].
  exfalso. destruct r; [|discriminate]. simpl in E. rewrite E in Hb. discriminate.
Qed.

Lemma clean_rstrip (step : string) :
  clean step = true -> rstrip step = step /\ truthy (rstrip step) = true.
Proof.
  intros H. destruct (clean_inv step H) as (Ht & Hs & _).
  assert (E : rstrip step = step).
  { rewrite <- Hs at 1. unfold strip. rewrite rstrip_idempotent. exact Hs. }
  rewrite E. auto.
Qed.

Lemma rstrip_joined (steps : list string) :
  Forall (fun step => clean step = true) steps ->
  rstrip (join ", " steps) = join ", " steps
  /\ (steps <> [] -> truthy (rstrip (join ", " steps)) = true).
Proof.
  induction steps as [|p rest IH]; intros Hall; [split; [reflexivity | congruence]|].
  inversion Hall as [|? ? Hp Hrest]; subst.
  destruct rest as [|q rest].
  - destruct (clean_rstrip p Hp) as [E Ht]. simpl. rewrite E. split; auto.
    intros _. destruct (clean_inv p Hp) as (Hp' & _). exact Hp'.
  - destruct (IH Hrest) as [E Ht].
    specialize (Ht ltac:(discriminate)).
    change (join ", " (p :: q :: rest))
      with (p ++ (", " ++ join ", " (q :: rest)))%string.
    assert (Htail : rstrip (", " ++ join ", " (q :: rest))
                    = (", " ++ join ", " (q :: rest))%string).
    { rewrite (rstrip_append ", " _ Ht), E. reflexivity. }
    assert (Htail' : truthy (rstrip (", " ++ join ", " (q :: rest))) = true).
    { rewrite Htail. reflexivity. }
    rewrite (rstrip_append p _ Htail'), Htail. split; [reflexivity|].
    intros _. destruct p; reflexivity.
Qed.

Lemma clean_lstrip (step : string) : clean step = true -> lstrip step = step.
Proof.
  intros H. destruct (clean_inv step H) as (Ht & Hs & _).
  destruct step as [|c r]; [discriminate|].
  cbn [lstrip]. destruct (isspace c) eqn:Hc; [|reflexivity].
  exfalso.
  assert (Hlen : forall s, String.length (rstrip s) <= String.length s).
  { induction s as [|a s IH]; [simpl; lia|].
    cbn [rstrip]. destruct (rstrip s) as [|b s'].
    - destruct (isspace a); simpl; lia.
    - simpl in *. lia. }
  assert (Hlen' : forall s, String.length (lstrip s) <= String.length s).
  { induction s as [|a s IH]; [simpl; lia|].
    cbn [lstrip]. destruct (isspace a); simpl in *; lia. }
  assert (Hbad : String.length (strip (String c r)) <= String.length r).
  { unfold strip. cbn [lstrip]. rewrite Hc.
    etransitivity; [apply Hlen | apply Hlen']. }
  rewrite Hs in Hbad. simpl in Hbad. lia.
Qed.

Lemma lstrip_joined (steps : list string) :
  Forall (fun step => clean step = true) steps ->
  lstrip (join ", " steps) = join ", " steps.
Proof.
  intros Hall. destruct steps as [|p rest]; [reflexivity|].
  inversion Hall as [|? ? Hp Hrest]; subst.
  pose proof (clean_lstrip p Hp) as E.
  destruct (clean_inv p Hp) as (Ht & _).
  destruct p as [|c r]; [discriminate|].
  assert (Hc : isspace c = false).
  { cbn [lstrip] in E. destruct (isspace c) eqn:Hc; [|reflexivity].
    exfalso.
    assert (Hlen' : forall s, String.length (lstrip s) <= String.length s).
    { induction s as [|a s IH]; [simpl; lia|].
      cbn [lstrip]. destruct (isspace a); simpl in *; lia. }
    pose proof (Hlen' r) as Hle. rewrite E in Hle. simpl in Hle. lia. }
  destruct rest as [|q rest]; cbn [join append lstrip]; rewrite Hc; reflexivity.
Qed.

(** Typing the steps back.  If the steps are pieces of text (not empty,
    no blank at either end, no comma) and the human types them separated
    by a comma and a blank, the plan the gate makes of that line is
    exactly the list of these steps, in their order. *)
Theorem typed_steps_become_the_plan (steps : list string) :
  Forall (fun step => clean step = true) steps ->
  parse_plan (strip (join ", " steps)) = steps.
Proof.
  intros Hall. unfold strip.
  rewrite (lstrip_joined steps Hall).
  destruct (rstrip_joined steps Hall) as [E _]. rewrite E.
  now apply parse_plan_joined.
Qed.

Lemma typed_steps_become_the_plan_witness :
  parse_plan (strip "SCADA: x, MANUAL: y") = ["SCADA: x"; "MANUAL: y"].
Proof.
  apply (typed_steps_become_the_plan ["SCADA: x"; "MANUAL: y"]).
  repeat constructor.
Defined.

End PlanTextFacts.

(* ===================================================================== *)
(** ** More about the Human Review Gate *)
(* ===================================================================== *)

Module GateExtras.
Import PyStr Orchestrator Trace Claims WorkflowSpec OrchestratorFacts.

Section Gate.
Variable World : Type.
Variable agents : Agents World.
Variable console : nat -> option string.

Local Notation Machine := (Machine World).
Local Notation main_loop := (main_loop World agents console).
Local Notation conclude := (conclude World agents).
Local Notation human_review_step := (human_review_step World console).
Local Notation ask := (ask World console).

Lemma rejected_inv (line : string) :
  rejected line = true ->
  mem (lower (strip line)) ["c"; "continue"] = false
  /\ mem (lower (strip line)) ["s"; "synthesize"] = false
  /\ mem (lower (strip line)) ["e"; "edit"] = false
  /\ mem (lower (strip line)) ["q"; "quit"] = false.
Proof.
  unfold rejected. intros H. apply negb_true_iff in H.
  apply orb_false_iff in H as [H Hq].
  apply orb_false_iff in H as [H He].
  apply orb_false_iff in H as [Hc Hs].
  repeat split; assumption.
Qed.

(** A line that is none of the directives changes nothing: the gate asks
    again.  After any number of such lines the gate is where it would
    have been without them, with the state and the world untouched and
    only the prompts of these lines in between. *)
Theorem rejected_lines_are_skipped (count : nat) :
  forall (fuel : nat) (m : Machine),
    (forall i, i < count ->
       exists line, console (cursor m + i) = Some line /\ rejected line = true) ->
    ask (count + fuel) m
    = let '(r, m', t) := ask fuel (mkMachine (state m) (world m) (cursor m + count)) in
      (r, m', prompted console (cursor m) count ++ t).
Proof.
  induction count as [|count IH]; intros fuel m Hlines.
  - destruct m as [st w c]. cbn [state world cursor plus]. rewrite Nat.add_0_r.
    destruct (ask fuel _) as [[r m'] t]. reflexivity.
  - cbn [plus]. rewrite ask_S.
    destruct (Hlines 0 ltac:(lia)) as (line & Hline & Hrej).
    rewrite Nat.add_0_r in Hline. rewrite Hline. cbv zeta.
    destruct (rejected_inv line Hrej) as (-> & -> & -> & ->).
    rewrite (IH fuel (advance m)).
    + cbn [advance state world cursor].
      replace (S (cursor m) + count) with (cursor m + S count) by lia.
      destruct (ask fuel _) as [[r m'] t].
      unfold prompted. cbn [seq map app]. rewrite Hline. reflexivity.
    + intros i Hi. cbn [advance cursor].
      destruct (Hlines (S i) ltac:(lia)) as (l & Hl & Hr).
      exists l. split; [|exact Hr].
      replace (S (cursor m) + i) with (cursor m + S i) by lia. exact Hl.
Qed.

(** After "e" or "edit" (in any case, with blanks around it) the next
    line is taken as the new plan: the review step replaces the plan
    wholesale by the steps parsed from that line, leaves every other field
    of the state as it was, and hands back 0 as the iteration counter to
    go on with. *)
Theorem edit_replaces_the_plan_and_resets_the_counter
  (fuel current_iteration : nat) (m : Machine) (line text : string) :
  open_ended (state m) = true ->
  console (cursor m) = Some line -> says_edit line = true ->
  console (S (cursor m)) = Some text ->
  human_review_step (S fuel) current_iteration m
  = (Val (Some 0),
     mkMachine (with_plan (state m) (parse_plan (strip text))) (world m)
       (S (S (cursor m))),
     [Review (state m); Prompted (Some line); Prompted (Some text);
      Decided (mkHumanDecision "edit" (Some (parse_plan (strip text))));
      Stored (with_plan (state m) (parse_plan (strip text)))]).
Proof.
  intros Hopen Hline Hedit Htext.
  rewrite human_review_step_eq, Hopen, ask_S, Hline. cbv zeta.
  unfold says_edit in Hedit.
  assert (Hc : mem (lower (strip line)) ["c"; "continue"] = false)
    by (destruct (mem_inv _ _ _ Hedit) as [-> | ->]; reflexivity).
  assert (Hs : mem (lower (strip line)) ["s"; "synthesize"] = false)
    by (destruct (mem_inv _ _ _ Hedit) as [-> | ->]; reflexivity).
  rewrite Hc, Hs, Hedit, Htext. reflexivity.
Qed.

(** After "s" or "synthesize" the loop is over: the flag
    [ready_for_synthesis] is set, no further pass starts, and the
    Synthesizer is what runs next.  Its response is returned; when its
    answer has no key [response], the fixed text
    "An error occurred during final synthesis." is returned instead. *)
Theorem synthesize_directive_goes_to_the_synthesizer
  (fuel fuel' current_iteration : nat) (m : Machine) (line : string)
  (out : SynthesizerOutput) (w' : World) :
  open_ended (state m) = true ->
  console (cursor m) = Some line -> says_synthesize line = true ->
  synthesize_response World agents (with_ready_for_synthesis (state m) true) (world m)
    = (Ok out, w') ->
  exists m1 t1 m2 t2,
    human_review_step (S fuel) current_iteration m = (Val (Some current_iteration), m1, t1)
    /\ state m1 = with_ready_for_synthesis (state m) true
    /\ main_loop fuel' current_iteration m1 = (Val tt, m1, [])
    /\ conclude m1
       = (Val (get_or (synthesizer_response out)
                 "An error occurred during final synthesis."), m2, t2)
    /\ agent_calls t2 = [Synthesizer].
Proof.
  intros Hopen Hline Hsyn Hout.
  assert (Hresp : response (state m) = EmptyString).
  { unfold open_ended in Hopen. apply andb_true_iff in Hopen as [_ H].
    destruct (response (state m)); [reflexivity | discriminate]. }
  rewrite human_review_step_eq, Hopen, ask_S, Hline. cbv zeta.
  unfold says_synthesize in Hsyn.
  assert (Hc : mem (lower (strip line)) ["c"; "continue"] = false)
    by (destruct (mem_inv _ _ _ Hsyn) as [-> | ->]; reflexivity).
  rewrite Hc, Hsyn. cbn [action String.eqb Ascii.eqb Bool.eqb].
  set (m1 := mkMachine (with_ready_for_synthesis (state m) true) (world m)
               (S (cursor m))).
  assert (Hready1 : ready_for_synthesis (state m1) = true) by reflexivity.
  assert (Hresp1 : response (state m1) = EmptyString) by exact Hresp.
  exists m1. eexists.
  exists (mkMachine (with_response (state m1)
                       (get_or (synthesizer_response out) synthesis_error))
            w' (cursor m1)).
  exists [Called Synthesizer (state m1);
          Stored (with_response (state m1)
                    (get_or (synthesizer_response out) synthesis_error))].
  split; [reflexivity|]. split; [reflexivity|]. split; [|split].
  - rewrite main_loop_eq. unfold open_ended. rewrite Hready1. reflexivity.
  - rewrite conclude_eq, Hready1, Hresp1. cbn [truthy negb andb].
    change (state m1) with (with_ready_for_synthesis (state m) true).
    change (world m1) with (world m). rewrite Hout. reflexivity.
  - reflexivity.
Qed.

End Gate.

Lemma rejected_lines_are_skipped_witness :
  ask unit (Scenarios.script ["maybe"; ""; "C"]) (2 + 1)
    (mkMachine (initial_state "q") tt 0)
  = (Val (mkHumanDecision "continue" None), mkMachine (initial_state "q") tt 3,
     [Prompted (Some "maybe"); Prompted (Some ""); Prompted (Some "C")]).
Proof.
  rewrite (rejected_lines_are_skipped unit (Scenarios.script ["maybe"; ""; "C"]) 2 1
             (mkMachine (initial_state "q") tt 0)).
  - reflexivity.
  - intros i Hi. destruct i as [|[|i]]; [| |lia]; eexists; split; reflexivity.
Defined.

Lemma edit_replaces_the_plan_and_resets_the_counter_witness :
  human_review_step unit (Scenarios.script ["E"; "SCADA: x, MANUAL: y"]) 1 3
    (mkMachine (mkState "q" ["MANUAL: old"] [] "" false) tt 0)
  = (Val (Some 0),
     mkMachine (mkState "q" ["SCADA: x"; "MANUAL: y"] [] "" false) tt 2,
     [Review (mkState "q" ["MANUAL: old"] [] "" false);
      Prompted (Some "E"); Prompted (Some "SCADA: x, MANUAL: y");
      Decided (mkHumanDecision "edit" (Some ["SCADA: x"; "MANUAL: y"]));
      Stored (mkState "q" ["SCADA: x"; "MANUAL: y"] [] "" false)]).
Proof.
  apply (edit_replaces_the_plan_and_resets_the_counter unit
           (Scenarios.script ["E"; "SCADA: x, MANUAL: y"]) 0 3
           (mkMachine (mkState "q" ["MANUAL: old"] [] "" false) tt 0)
           "E" "SCADA: x, MANUAL: y"); reflexivity.
Defined.

Lemma synthesize_directive_goes_to_the_synthesizer_witness :
  exists m1 t1 m2 t2,
    human_review_step unit (Scenarios.always " S ") 1 2
      (mkMachine (mkState "q" ["MANUAL: valve"] [] "" false) tt 0)
    = (Val (Some 2), m1, t1)
    /\ conclude unit (Scenarios.crew [] Scenarios.silent None) m1
       = (Val "An error occurred during final synthesis.", m2, t2).
Proof.
  destruct (synthesize_directive_goes_to_the_synthesizer unit
              (Scenarios.crew [] Scenarios.silent None) (Scenarios.always " S ")
              0 0 2 (mkMachine (mkState "q" ["MANUAL: valve"] [] "" false) tt 0)
              " S " (mkSynthesizerOutput None) tt
              eq_refl eq_refl eq_refl eq_refl)
    as (m1 & t1 & m2 & t2 & Hstep & _ & _ & Hconc & _).
  exists m1, t1, m2, t2. split; assumption.
Defined.

End GateExtras.

(* ===================================================================== *)
(** ** More about a loop pass *)
(* ===================================================================== *)

Module PassExtras.
Import PyStr Orchestrator Trace Claims WorkflowSpec OrchestratorFacts ReplanFacts.

Section Pass.
Variable World : Type.
Variable agents : Agents World.
Variable console : nat -> option string.

Local Notation Machine := (Machine World).
Local Notation main_loop := (main_loop World agents console).
Local Notation loop_body := (loop_body World agents console).
Local Notation conclude := (conclude World agents).
Local Notation executor_step := (executor_step World agents).
Local Notation replan_step := (replan_step World agents).
Local Notation force_on_empty_plan := (force_on_empty_plan World).
Local Notation human_review_step := (human_review_step World console).
Local Notation ask := (ask World console).

(** A pass that starts with an empty plan sets [ready_for_synthesis] and
    calls no Executor, but it does not end there: the Replanner is still
    consulted, on the state with the flag already set.  No other agent is
    called in the pass, and [past_steps] stays as it is. *)
Theorem pass_with_empty_plan_still_asks_the_replanner
  (fuel current_iteration : nat) (m : Machine) :
  plan (state m) = [] ->
  exists r m' t',
    loop_body fuel current_iteration m
    = (r, m',
       Iteration (current_iteration + 1)
         :: Stored (with_ready_for_synthesis (state m) true)
         :: Called Replanner (with_ready_for_synthesis (state m) true)
         :: t')
    /\ agent_calls t' = []
    /\ past_steps (state m') = past_steps (state m).
Proof.
  intros Hplan.
  rewrite loop_body_eq, force_on_empty_plan_eq, Hplan. cbn [truthy_list].
  rewrite executor_step_eq. cbn [store state plan with_ready_for_synthesis].
  rewrite Hplan. cbn [truthy_list].
  set (m1 := store (fun st => with_ready_for_synthesis st true) m).
  rewrite replan_step_eq.
  change (state m1) with (with_ready_for_synthesis (state m) true).
  destruct (decide_next_action World agents _ (world m1)) as [[out|e] w2].
  - destruct (human_review_step fuel _ _) as [[r m4] t4] eqn:Hrev.
    apply human_review_step_inv in Hrev as (Hpast & _ & _ & Hcalls & _).
    destruct (merge_events_auto out (with_ready_for_synthesis (state m) true))
      as [_ Hmerge].
    eexists. eexists. eexists. split; [reflexivity|]. split.
    + rewrite agent_calls_app, Hmerge, Hcalls. reflexivity.
    + rewrite Hpast. cbn [state]. rewrite past_steps_merged. reflexivity.
  - eexists. eexists. eexists. split; [reflexivity|]. split; reflexivity.
Qed.


(** A response of the Replanner ends the run with that response.  In the
    pass in which the Replanner answers with a response that is not
    empty, the human is not asked, the loop stops after the pass, and the
    text returned is this response as it is; the Synthesizer is not
    called, even when the flag [ready_for_synthesis] is set as well. *)
Theorem replanner_response_is_returned
  (fuel current_iteration : nat) (m m1 : Machine) (t1 : list Event)
  (out : ReplanOutput) (w2 : World) (answer : string) :
  bind force_on_empty_plan (fun _ => executor_step) m = (Val tt, m1, t1) ->
  decide_next_action World agents (state m1) (world m1) = (Ok out, w2) ->
  replan_response out = Some answer -> truthy answer = true ->
  exists m2 t,
    loop_body fuel current_iteration m = (Val (Some (current_iteration + 1)), m2, t)
    /\ response (state m2) = answer
    /\ prompts t = 0
    /\ (forall fuel', main_loop fuel' (current_iteration + 1) m2 = (Val tt, m2, []))
    /\ conclude m2 = (Val answer, m2, []).
Proof.
  intros Hpre Hdecide Hanswer Htruthy.
  apply bind_inv in Hpre
    as [(a & m0 & t0 & t0' & Hforce & Hexec & ->) | [(e & _ & E) | [_ E]]];
    try discriminate.
  destruct (force_on_empty_plan_inv _ _ _ _ _ Hforce) as (_ & _ & _ & _ & _ & _ & Ha0).
  destruct (executor_step_response _ _ _ _ _ _ Hexec) as (_ & _ & _ & Ha1).
  set (m2 := mkMachine (merged out (state m1)) w2 (cursor m1)).
  assert (Hresp : response (state m2) = answer).
  { unfold m2, merged, merged_plan, merged_response, merged_ready.
    cbn [state]. rewrite Hanswer.
    destruct answer as [|c answer]; [discriminate|].
    destruct (replan_plan out) as [[|s l]|];
      destruct (replan_ready_for_synthesis out) as [[]|]; cbn;
      rewrite ?andb_false_r; reflexivity. }
  assert (Hclosed : open_ended (state m2) = false).
  { unfold open_ended. rewrite Hresp, Htruthy. apply andb_false_r. }
  exists m2, (Iteration (current_iteration + 1)
                :: t0 ++ t0'
                     ++ (Called Replanner (state m1) :: merge_events out (state m1))
                     ++ []).
  split; [|split; [exact Hresp | split; [|split]]].
  - rewrite loop_body_eq, Hforce, Hexec, replan_step_eq, Hdecide.
    fold m2. rewrite human_review_step_eq, Hclosed. reflexivity.
  - destruct (merge_events_auto out (state m1)) as [Hm _].
    assert (Hauto : forallb is_auto
                      (t0 ++ t0' ++ (Called Replanner (state m1)
                                       :: merge_events out (state m1)) ++ []) = true).
    { rewrite !forallb_app, Ha0, Ha1. simpl. rewrite Hm. reflexivity. }
    simpl. apply auto_only in Hauto. tauto.
  - intros fuel'. rewrite main_loop_eq, Hclosed. reflexivity.
  - rewrite conclude_eq, Hresp, Htruthy. rewrite andb_false_r. reflexivity.
Qed.

End Pass.

Lemma pass_with_empty_plan_still_asks_the_replanner_witness :
  exists r m' t',
    loop_body unit (Scenarios.crew [] Scenarios.one_more None) (Scenarios.always "c") 2 0
      (mkMachine (mkState "q" [] [("SCADA: x", "done")] "" false) tt 0)
    = (r, m',
       Iteration 1
         :: Stored (mkState "q" [] [("SCADA: x", "done")] "" true)
         :: Called Replanner (mkState "q" [] [("SCADA: x", "done")] "" true)
         :: t')
    /\ agent_calls t' = [].
Proof.
  destruct (pass_with_empty_plan_still_asks_the_replanner unit
              (Scenarios.crew [] Scenarios.one_more None) (Scenarios.always "c") 2 0
              (mkMachine (mkState "q" [] [("SCADA: x", "done")] "" false) tt 0)
              eq_refl) as (r & m' & t' & Hrun & Hcalls & _).
  exists r, m', t'. split; assumption.
Defined.


Lemma replanner_response_is_returned_witness :
  exists m2 t,
    loop_body unit
      (Scenarios.crew [] (mkReplanOutput (Some true) (Some "Valve V2 is stuck.") None)
         (Some "final answer"))
      (Scenarios.always "c") 1 0
      (mkMachine (mkState "q" ["SCADA: pressure"] [] "" false) tt 0)
    = (Val (Some 1), m2, t)
    /\ conclude unit
         (Scenarios.crew [] (mkReplanOutput (Some true) (Some "Valve V2 is stuck.") None)
            (Some "final answer")) m2
       = (Val "Valve V2 is stuck.", m2, []).
Proof.
  destruct (replanner_response_is_returned unit
              (Scenarios.crew [] (mkReplanOutput (Some true) (Some "Valve V2 is stuck.")
                                    None) (Some "final answer"))
              (Scenarios.always "c") 1 0
              (mkMachine (mkState "q" ["SCADA: pressure"] [] "" false) tt 0)
              (mkMachine (mkState "q" [] [("SCADA: pressure", "done")] "" false) tt 0)
              [Called Executor (mkState "q" ["SCADA: pressure"] [] "" false);
               Stored (mkState "q" ["SCADA: pressure"] [("SCADA: pressure", "done")] "" false);
               Stored (mkState "q" [] [("SCADA: pressure", "done")] "" false)]
              (mkReplanOutput (Some true) (Some "Valve V2 is stuck.") None) tt
              "Valve V2 is stuck." eq_refl eq_refl eq_refl eq_refl)
    as (m2 & t & Hrun & _ & _ & _ & Hconc).
  exists m2, t. split; assumption.
Defined.

End PassExtras.

(* ===================================================================== *)
(** ** More about a whole run *)
(* ===================================================================== *)

Module RunExtras.
Import PyStr Orchestrator Trace Claims WorkflowSpec OrchestratorFacts ReplanFacts.

Lemma calls_to_app (a : Agent) (t1 t2 : list Event) :
  calls_to a (t1 ++ t2) = calls_to a t1 + calls_to a t2.
Proof.
  unfold calls_to. rewrite agent_calls_app, filter_app, length_app. reflexivity.
Qed.

Lemma calls_to_none (a : Agent) (t : list Event) :
  agent_calls t = [] -> calls_to a t = 0.
Proof. unfold calls_to. intros ->. reflexivity. Qed.

Section Run.
Variable World : Type.
Variable agents : Agents World.
Variable console : nat -> option string.

Local Notation Machine := (Machine World).
Local Notation run := (run World agents console).
Local Notation main_loop := (main_loop World agents console).
Local Notation loop_body := (loop_body World agents console).
Local Notation conclude := (conclude World agents).
Local Notation executor_step := (executor_step World agents).
Local Notation replan_step := (replan_step World agents).
Local Notation force_on_empty_plan := (force_on_empty_plan World).
Local Notation human_review_step := (human_review_step World console).
Local Notation ask := (ask World console).

(** *** The order of the calls *)

Lemma loop_body_calls (fuel current_iteration : nat) (m m' : Machine) r t :
  loop_body fuel current_iteration m = (r, m', t) ->
  agent_calls t = [Executor] \/ agent_calls t = [Replanner]
  \/ agent_calls t = [Executor; Replanner].
Proof.
  rewrite loop_body_eq.
  destruct (force_on_empty_plan m) as [[r1 m1] t1] eqn:H1.
  apply force_on_empty_plan_inv in H1 as (_ & _ & _ & _ & _ & Hc1 & _).
  assert (H2 : forall r2 m2 t2, executor_step m1 = (r2, m2, t2) ->
            (agent_calls t2 = [] /\ r2 = Val tt)
            \/ (agent_calls t2 = [Executor] /\ r2 = Val tt)
            \/ (agent_calls t2 = [Executor] /\ exists e, r2 = Exc e)).
  { intros r2 m2 t2. rewrite executor_step_eq.
    destruct (truthy_list (plan (state m1))).
    - destruct (execute_step World agents (state m1) (world m1)) as [[eo|e] w1];
        intros H; inversion H; subst; simpl; eauto.
    - intros H; inversion H; subst; simpl; eauto. }
  destruct (executor_step m1) as [[r2 m2] t2].
  specialize (H2 _ _ _ eq_refl).
  destruct H2 as [[Hc2 ->] | [[Hc2 ->] | [Hc2 [e ->]]]].
  - destruct (replan_step m2) as [[r3 m3] t3] eqn:H3.
    apply replan_step_inv in H3 as (_ & _ & Hc3 & _).
    destruct r3 as [[]|e|];
      try (intros H; inversion H; subst; cbn [agent_calls];
           rewrite !agent_calls_app, Hc1, Hc2, Hc3; auto).
    destruct (human_review_step fuel _ m3) as [[r4 m4] t4] eqn:H4.
    apply human_review_step_inv in H4 as (_ & _ & _ & Hc4 & _).
    intros H; inversion H; subst; cbn [agent_calls].
    rewrite !agent_calls_app, Hc1, Hc2, Hc3, Hc4. auto.
  - destruct (replan_step m2) as [[r3 m3] t3] eqn:H3.
    apply replan_step_inv in H3 as (_ & _ & Hc3 & _).
    destruct r3 as [[]|e|];
      try (intros H; inversion H; subst; cbn [agent_calls];
           rewrite !agent_calls_app, Hc1, Hc2, Hc3; auto).
    destruct (human_review_step fuel _ m3) as [[r4 m4] t4] eqn:H4.
    apply human_review_step_inv in H4 as (_ & _ & _ & Hc4 & _).
    intros H; inversion H; subst; cbn [agent_calls].
    rewrite !agent_calls_app, Hc1, Hc2, Hc3, Hc4. auto.
  - intros H; inversion H; subst; cbn [agent_calls].
    rewrite !agent_calls_app, Hc1, Hc2. auto.
Qed.

Lemma main_loop_calls (fuel : nat) :
  forall (current_iteration : nat) (m m' : Machine) r t,
    main_loop fuel current_iteration m = (r, m', t) ->
    calls_to Planner t = 0 /\ calls_to Synthesizer t = 0
    /\ calls_to Executor t <= length (iterations t)
    /\ calls_to Replanner t <= length (iterations t).
Proof.
  induction fuel as [|fuel IH]; intros c m m' r t H;
    rewrite main_loop_eq in H;
    destruct (open_ended (state m) && (c <? max_iterations));
    try (inversion H; subst; cbn; repeat split; lia).
  destruct (loop_body fuel c m) as [[rb mb] tb] eqn:Hbody.
  pose proof (loop_body_calls _ _ _ _ _ _ Hbody) as Hcalls.
  apply TerminationFacts.loop_body_budget in Hbody as (Hi & _ & _).
  assert (Hone : calls_to Planner tb = 0 /\ calls_to Synthesizer tb = 0
                 /\ calls_to Executor tb <= 1 /\ calls_to Replanner tb <= 1).
  { unfold calls_to.
    destruct Hcalls as [-> | [-> | ->]]; cbn; repeat split; lia. }
  destruct Hone as (Hp & Hs & He & Hr).
  destruct rb as [[next|]|e|];
    try (inversion H; subst; rewrite Hi; cbn [length]; repeat split; lia).
  destruct (main_loop fuel next mb) as [[r2 m2] t2] eqn:Hloop.
  apply IH in Hloop as (Hp2 & Hs2 & He2 & Hr2).
  inversion H; subst.
  rewrite !calls_to_app, iterations_app, length_app, Hi. cbn [length].
  repeat split; lia.
Qed.

(** Who is called, and how often.  In every run, however it ends, the
    Planner is called exactly once and before every other agent; the
    Synthesizer is called at most once, and then it is the last call; and
    neither the Executor nor the Replanner is called more often than there
    are loop passes. *)
Theorem agents_are_called_in_order
  (fuel : nat) (initial_query : string) (w : World) (m : Machine) r t :
  run fuel initial_query w = (r, m, t) ->
  exists rest,
    agent_calls t = Planner :: rest
    /\ calls_to Planner t = 1
    /\ calls_to Synthesizer t <= 1
    /\ (In Synthesizer rest -> exists before, rest = before ++ [Synthesizer])
    /\ calls_to Executor t <= length (iterations t)
    /\ calls_to Replanner t <= length (iterations t).
Proof.
  rewrite run_eq. cbv zeta.
  destruct (create_plan World agents _ w) as [[out|e0] w1].
  2:{ intros H; inversion H; subst. exists []. cbn.
      split; [reflexivity|]. split; [reflexivity|]. split; [lia|].
      split; [intros []|]. split; lia. }
  destruct (truthy_list _).
  2:{ intros H; inversion H; subst. exists []. cbn.
      split; [reflexivity|]. split; [reflexivity|]. split; [lia|].
      split; [intros []|]. split; lia. }
  destruct (main_loop fuel 0 _) as [[rl ml] tl] eqn:Hloop.
  apply main_loop_calls in Hloop as (Hp & Hs & He & Hr).
  assert (Hnosyn : ~ In Synthesizer (agent_calls tl)).
  { intros Hin. unfold calls_to in Hs.
    assert (Hf : In Synthesizer (filter (agent_eqb Synthesizer) (agent_calls tl))).
    { apply filter_In. split; [exact Hin | reflexivity]. }
    destruct (filter (agent_eqb Synthesizer) (agent_calls tl)); [destruct Hf | discriminate]. }
  assert (Hhead : forall tail,
            agent_calls (Stored (initial_state initial_query)
                         :: Called Planner (initial_state initial_query)
                         :: Stored (with_plan (initial_state initial_query)
                                      (get_or (planner_plan out) []))
                         :: tail)
            = Planner :: agent_calls tail) by reflexivity.
  assert (Hcount : forall a tail,
            calls_to a (Stored (initial_state initial_query)
                         :: Called Planner (initial_state initial_query)
                         :: Stored (with_plan (initial_state initial_query)
                                      (get_or (planner_plan out) []))
                         :: tail)
            = (if agent_eqb a Planner then 1 else 0) + calls_to a tail).
  { intros a tail. unfold calls_to. rewrite Hhead. cbn [filter].
    destruct a; reflexivity. }
  assert (Hiter : forall tail,
            iterations (Stored (initial_state initial_query)
                         :: Called Planner (initial_state initial_query)
                         :: Stored (with_plan (initial_state initial_query)
                                      (get_or (planner_plan out) []))
                         :: tail)
            = iterations tail) by reflexivity.
  destruct rl as [[]|e|].
  - destruct (conclude ml) as [[r3 m3] t3] eqn:Hconc.
    assert (Hc3 : (agent_calls t3 = [] \/ agent_calls t3 = [Synthesizer])
                  /\ iterations t3 = []).
    { rewrite conclude_eq in Hconc.
      destruct (ready_for_synthesis (state ml) && negb (truthy (response (state ml)))).
      - destruct (synthesize_response World agents (state ml) (world ml))
          as [[so|e2] w2]; inversion Hconc; subst; auto.
      - destruct (negb (truthy (response (state ml))));
          inversion Hconc; subst; auto. }
    destruct Hc3 as [Hc3 Hi3].
    intros H; inversion H; subst.
    exists (agent_calls (tl ++ t3)).
    rewrite Hhead, !Hcount, Hiter, !calls_to_app, iterations_app, length_app, Hi3.
    cbn [agent_eqb length].
    assert (Hsyn3 : calls_to Synthesizer t3 <= 1 /\ calls_to Planner t3 = 0
                    /\ calls_to Executor t3 = 0 /\ calls_to Replanner t3 = 0).
    { unfold calls_to. destruct Hc3 as [-> | ->]; cbn; repeat split; lia. }
    destruct Hsyn3 as (Hs3 & Hp3 & He3 & Hr3).
    split; [reflexivity|]. split; [lia|]. split; [lia|].
    split; [|split; lia].
    intros Hin. rewrite agent_calls_app in Hin |- *.
    destruct Hc3 as [E | E]; rewrite E in Hin |- *.
    + rewrite app_nil_r in Hin. contradiction.
    + eauto.
  - intros H; inversion H; subst. exists (agent_calls tl).
    rewrite Hhead, !Hcount, Hiter. cbn [agent_eqb].
    split; [reflexivity|]. split; [lia|]. split; [lia|].
    split; [intros Hin; contradiction|]. split; lia.
  - intros H; inversion H; subst. exists (agent_calls tl).
    rewrite Hhead, !Hcount, Hiter. cbn [agent_eqb].
    split; [reflexivity|]. split; [lia|]. split; [lia|].
    split; [intros Hin; contradiction|]. split; lia.
Qed.

(** *** The query and the returned text *)

Lemma observed_inputs_app (t1 t2 : list Event) :
  observed_inputs (t1 ++ t2) = observed_inputs t1 ++ observed_inputs t2.
Proof.
  induction t1 as [|e t1 IH]; [reflexivity|].
  destruct e; cbn [app observed_inputs]; rewrite IH; reflexivity.
Qed.

Lemma observed_inputs_prompts (t : list Event) :
  forallb is_prompt t = true -> observed_inputs t = [].
Proof.
  induction t as [|e t IH]; [reflexivity|]. cbn [forallb]. intros H.
  apply andb_true_iff in H as [He Ht]. destruct e; try discriminate.
  cbn [observed_inputs]. auto.
Qed.

Lemma input_merged (out : ReplanOutput) (st : DiagnosticState) :
  input (merged out st) = input st
  /\ Forall (fun i => i = input st) (observed_inputs (merge_events out st)).
Proof.
  unfold merge_events, merged, merged_plan, merged_response, merged_ready.
  destruct out as [[b|] [r|] [[|step steps]|]]; simpl; auto;
    match goal with
    | |- context [if ?c then _ else _] => destruct c; simpl; auto
    end.
Qed.

Lemma force_on_empty_plan_input (m m' : Machine) r t :
  force_on_empty_plan m = (r, m', t) ->
  input (state m') = input (state m)
  /\ Forall (fun i => i = input (state m)) (observed_inputs t).
Proof.
  rewrite force_on_empty_plan_eq.
  destruct (truthy_list (plan (state m))); intros H; inversion H; subst;
    simpl; auto.
Qed.

Lemma executor_step_input (m m' : Machine) r t :
  executor_step m = (r, m', t) ->
  input (state m') = input (state m)
  /\ Forall (fun i => i = input (state m)) (observed_inputs t).
Proof.
  rewrite executor_step_eq.
  destruct (truthy_list (plan (state m))).
  - destruct (execute_step World agents (state m) (world m)) as [[out|e] w];
      intros H; inversion H; subst; simpl; auto.
  - intros H; inversion H; subst; simpl; auto.
Qed.

Lemma replan_step_input (m m' : Machine) r t :
  replan_step m = (r, m', t) ->
  input (state m') = input (state m)
  /\ Forall (fun i => i = input (state m)) (observed_inputs t).
Proof.
  rewrite replan_step_eq.
  destruct (decide_next_action World agents (state m) (world m)) as [[out|e] w];
    intros H; inversion H; subst; cbn [state returned observed_inputs].
  - destruct (input_merged out (state m)) as [Hi Hf]. auto.
  - auto.
Qed.

Lemma human_review_step_input (fuel current_iteration : nat) (m m' : Machine) r t :
  human_review_step fuel current_iteration m = (r, m', t) ->
  input (state m') = input (state m)
  /\ Forall (fun i => i = input (state m)) (observed_inputs t).
Proof.
  intros H. review_cases H;
    cbn [observed_inputs]; rewrite ?observed_inputs_app;
    rewrite ?(observed_inputs_prompts _ Hp);
    cbn [observed_inputs app state store with_response with_plan
         with_ready_for_synthesis input];
    rewrite ?Hst; auto.
Qed.

Lemma loop_body_input (fuel current_iteration : nat) (m m' : Machine) r t :
  loop_body fuel current_iteration m = (r, m', t) ->
  input (state m') = input (state m)
  /\ Forall (fun i => i = input (state m)) (observed_inputs t).
Proof.
  rewrite loop_body_eq.
  destruct (force_on_empty_plan m) as [[r1 m1] t1] eqn:H1.
  apply force_on_empty_plan_input in H1 as [E1 F1].
  destruct (executor_step m1) as [[r2 m2] t2] eqn:H2.
  apply executor_step_input in H2 as [E2 F2]. rewrite E1 in E2, F2.
  destruct r2 as [[]|e|];
    try (intros H; inversion H; subst; cbn [observed_inputs];
         rewrite !observed_inputs_app; split; [congruence|];
         repeat (apply Forall_app; split); assumption).
  destruct (replan_step m2) as [[r3 m3] t3] eqn:H3.
  apply replan_step_input in H3 as [E3 F3]. rewrite E2 in E3, F3.
  destruct r3 as [[]|e|];
    try (intros H; inversion H; subst; cbn [observed_inputs];
         rewrite !observed_inputs_app; split; [congruence|];
         repeat (apply Forall_app; split); assumption).
  destruct (human_review_step fuel _ m3) as [[r4 m4] t4] eqn:H4.
  apply human_review_step_input in H4 as [E4 F4]. rewrite E3 in E4, F4.
  intros H; inversion H; subst; cbn [observed_inputs].
  rewrite !observed_inputs_app. split; [congruence|].
  repeat (apply Forall_app; split); assumption.
Qed.

Lemma main_loop_input (fuel : nat) :
  forall (current_iteration : nat) (m m' : Machine) r t,
    main_loop fuel current_iteration m = (r, m', t) ->
    input (state m') = input (state m)
    /\ Forall (fun i => i = input (state m)) (observed_inputs t).
Proof.
  induction fuel as [|fuel IH]; intros c m m' r t H;
    rewrite main_loop_eq in H;
    destruct (open_ended (state m) && (c <? max_iterations));
    try (inversion H; subst; cbn; auto).
  destruct (loop_body fuel c m) as [[rb mb] tb] eqn:Hbody.
  apply loop_body_input in Hbody as [Eb Fb].
  destruct rb as [[next|]|e|]; try (inversion H; subst; auto).
  destruct (main_loop fuel next mb) as [[r2 m2] t2] eqn:Hloop.
  apply IH in Hloop as [E2 F2]. rewrite Eb in E2, F2.
  inversion H; subst. rewrite observed_inputs_app.
  split; [exact E2 | apply Forall_app; auto].
Qed.

Lemma conclude_input (m m' : Machine) r t :
  conclude m = (r, m', t) ->
  input (state m') = input (state m)
  /\ Forall (fun i => i = input (state m)) (observed_inputs t)
  /\ (forall s, r = Val s -> s = response (state m')).
Proof.
  rewrite conclude_eq.
  destruct (ready_for_synthesis (state m) && negb (truthy (response (state m)))).
  - destruct (synthesize_response World agents (state m) (world m)) as [[out|e] w];
      intros H; inversion H; subst; simpl; repeat split; auto;
      intros s E; inversion E; reflexivity || discriminate.
  - destruct (negb (truthy (response (state m)))); intros H; inversion H; subst;
      simpl; repeat split; auto; intros s E; inversion E; reflexivity.
Qed.

(** The Orchestrator never rewrites the question.  No assignment of the
    workflow touches [input]: in every run, however it ends, the state
    carries the initial query as its [input] each time the Orchestrator
    assigns to it, hands it to an agent or shows it to the human, and at
    the end; and a run that returns hands back the [response] of the state
    it ends with. *)
Theorem query_is_never_rewritten
  (fuel : nat) (initial_query : string) (w : World) (m : Machine) r t :
  run fuel initial_query w = (r, m, t) ->
  Forall (fun i => i = initial_query) (observed_inputs t)
  /\ input (state m) = initial_query
  /\ (forall s, r = Val s -> s = response (state m)).
Proof.
  rewrite run_eq. cbv zeta.
  destruct (create_plan World agents _ w) as [[out|e0] w1].
  2:{ intros H; inversion H; subst. cbn. repeat split; auto. discriminate. }
  destruct (truthy_list _).
  2:{ intros H; inversion H; subst. cbn. repeat split; auto.
      intros s E; inversion E; reflexivity. }
  destruct (main_loop fuel 0 _) as [[rl ml] tl] eqn:Hloop.
  apply main_loop_input in Hloop as [El Fl].
  cbn [state input with_plan initial_state] in El, Fl.
  destruct rl as [[]|e|].
  - destruct (conclude ml) as [[r3 m3] t3] eqn:Hconc.
    apply conclude_input in Hconc as (E3 & F3 & R3). rewrite El in E3, F3.
    intros H; inversion H; subst.
    cbn [app observed_inputs initial_state with_plan input].
    rewrite observed_inputs_app.
    split; [|split; [auto | exact R3]].
    repeat constructor. apply Forall_app; auto.
  - intros H; inversion H; subst.
    cbn [app observed_inputs initial_state with_plan input].
    split; [|split; [auto | discriminate]].
    repeat constructor. exact Fl.
  - intros H; inversion H; subst.
    cbn [app observed_inputs initial_state with_plan input].
    split; [|split; [auto | discriminate]].
    repeat constructor. exact Fl.
Qed.

(** *** One history entry for each step executed *)

Section Contract.
Hypothesis Hexecutor : executor_returns_one_pair agents.

Local Notation past m := (past_steps (state m)).

Lemma executor_step_counted (m m' : Machine) r t :
  executor_step m = (r, m', t) ->
  exists k,
    length (past m') + k = length (past m) + calls_to Executor t
    /\ k <= 1 /\ (k = 1 -> exists e, r = Exc e).
Proof.
  rewrite executor_step_eq.
  destruct (truthy_list (plan (state m))).
  - destruct (execute_step World agents (state m) (world m)) as [[out|e] w1] eqn:Hexec;
      intros H; inversion H; subst.
    + destruct (Hexecutor _ _ _ _ Hexec) as [pair Hpair].
      exists 0. unfold popped, recorded. rewrite Hpair.
      cbn [state past_steps with_plan with_past_steps get_or].
      rewrite length_app. cbn. split; [lia|]. split; [lia | discriminate].
    + exists 1. cbn. split; [lia|]. split; [lia | eauto].
  - intros H; inversion H; subst. exists 0. cbn. split; [lia|]. split; [lia | discriminate].
Qed.

Lemma loop_body_counted (fuel current_iteration : nat) (m m' : Machine) r t :
  loop_body fuel current_iteration m = (r, m', t) ->
  exists k,
    length (past m') + k = length (past m) + calls_to Executor t
    /\ k <= 1 /\ (k = 1 -> exists e, r = Exc e).
Proof.
  rewrite loop_body_eq.
  destruct (force_on_empty_plan m) as [[r1 m1] t1] eqn:H1.
  apply force_on_empty_plan_inv in H1 as (_ & _ & P1 & _ & _ & C1 & _).
  destruct (executor_step m1) as [[r2 m2] t2] eqn:H2.
  apply executor_step_counted in H2 as (k & Hk & Hle & Hexc).
  rewrite P1 in Hk.
  assert (Hhead : forall tail,
            calls_to Executor (Iteration (current_iteration + 1) :: t1 ++ tail)
            = calls_to Executor tail).
  { intros tail. unfold calls_to. cbn [agent_calls].
    rewrite agent_calls_app, C1. reflexivity. }
  destruct r2 as [[]|e|].
  - assert (k = 0) as ->.
    { destruct k as [|[|k]]; [reflexivity | | lia].
      destruct (Hexc eq_refl) as [e E]. discriminate. }
    destruct (replan_step m2) as [[r3 m3] t3] eqn:H3.
    apply replan_step_inv in H3 as (P3 & _ & C3 & _).
    assert (H03 : calls_to Executor t3 = 0).
    { unfold calls_to. rewrite C3. reflexivity. }
    destruct r3 as [[]|e|];
      try (intros H; inversion H; subst; exists 0;
           rewrite Hhead, calls_to_app, P3, H03;
           split; [lia|]; split; [lia | discriminate]).
    destruct (human_review_step fuel _ m3) as [[r4 m4] t4] eqn:H4.
    apply human_review_step_inv in H4 as (P4 & _ & _ & C4 & _).
    intros H; inversion H; subst. exists 0.
    rewrite Hhead, !calls_to_app, P4, P3, H03, (calls_to_none _ _ C4).
    split; [lia|]. split; [lia | discriminate].
  - intros H; inversion H; subst. exists k. rewrite Hhead.
    split; [lia|]. split; [lia | eauto].
  - intros H; inversion H; subst. exists k. rewrite Hhead.
    split; [lia|]. split; [lia|].
    intros Ek. destruct (Hexc Ek) as [e' E']. discriminate.
Qed.

Lemma main_loop_counted (fuel : nat) :
  forall (current_iteration : nat) (m m' : Machine) r t,
    main_loop fuel current_iteration m = (r, m', t) ->
    exists k,
      length (past m') + k = length (past m) + calls_to Executor t
      /\ k <= 1 /\ (k = 1 -> exists e, r = Exc e).
Proof.
  induction fuel as [|fuel IH]; intros c m m' r t H;
    rewrite main_loop_eq in H;
    destruct (open_ended (state m) && (c <? max_iterations));
    try (inversion H; subst; exists 0; cbn;
         split; [lia|]; split; [lia | discriminate]).
  destruct (loop_body fuel c m) as [[rb mb] tb] eqn:Hbody.
  apply loop_body_counted in Hbody as (k & Hk & Hle & Hexc).
  destruct rb as [[next|]|e|].
  - assert (k = 0) as ->.
    { destruct k as [|[|k]]; [reflexivity | | lia].
      destruct (Hexc eq_refl) as [e E]. discriminate. }
    destruct (main_loop fuel next mb) as [[r2 m2] t2] eqn:Hloop.
    apply IH in Hloop as (k2 & Hk2 & Hle2 & Hexc2).
    inversion H; subst. exists k2. rewrite calls_to_app.
    split; [lia|]. split; [lia | exact Hexc2].
  - assert (k = 0) as ->.
    { destruct k as [|[|k]]; [reflexivity | | lia].
      destruct (Hexc eq_refl) as [e E]. discriminate. }
    inversion H; subst. exists 0. split; [lia|]. split; [lia | discriminate].
  - inversion H; subst. exists k. split; [lia|]. split; [lia | eauto].
  - inversion H; subst. exists k. split; [lia|]. split; [lia|].
    intros Ek. destruct (Hexc Ek) as [e' E']. discriminate.
Qed.

(** With an Executor that answers with exactly one pair, the history
    counts the steps executed: at the end of a run [past_steps] has as many
    entries as the Executor was called, or one less; it can be one less
    only when the run ended in an exception. *)
Theorem history_counts_executor_calls
  (fuel : nat) (initial_query : string) (w : World) (m : Machine) r t :
  run fuel initial_query w = (r, m, t) ->
  length (past_steps (state m)) <= calls_to Executor t
  /\ calls_to Executor t <= length (past_steps (state m)) + 1
  /\ ((forall e, r <> Exc e) ->
      length (past_steps (state m)) = calls_to Executor t).
Proof.
  rewrite run_eq. cbv zeta.
  destruct (create_plan World agents _ w) as [[out|e0] w1].
  2:{ intros H; inversion H; subst. cbn. split; [lia|]. split; [lia | reflexivity]. }
  destruct (truthy_list _).
  2:{ intros H; inversion H; subst. cbn. split; [lia|]. split; [lia | reflexivity]. }
  destruct (main_loop fuel 0 _) as [[rl ml] tl] eqn:Hloop.
  apply main_loop_counted in Hloop as (k & Hk & Hle & Hexc).
  cbn [state past_steps with_plan initial_state length] in Hk.
  assert (Hhead : forall tail,
            calls_to Executor
              (Stored (initial_state initial_query)
               :: Called Planner (initial_state initial_query)
               :: Stored (with_plan (initial_state initial_query)
                            (get_or (planner_plan out) []))
               :: tail)
            = calls_to Executor tail) by reflexivity.
  destruct rl as [[]|e|].
  - assert (k = 0) as ->.
    { destruct k as [|[|k]]; [reflexivity | | lia].
      destruct (Hexc eq_refl) as [e E]. discriminate. }
    destruct (conclude ml) as [[r3 m3] t3] eqn:Hconc.
    assert (H3 : past_steps (state m3) = past_steps (state ml)
                 /\ calls_to Executor t3 = 0).
    { rewrite conclude_eq in Hconc.
      destruct (ready_for_synthesis (state ml) && negb (truthy (response (state ml)))).
      - destruct (synthesize_response World agents (state ml) (world ml))
          as [[so|e2] w2]; inversion Hconc; subst; auto.
      - destruct (negb (truthy (response (state ml))));
          inversion Hconc; subst; auto. }
    destruct H3 as [P3 C3].
    intros H; inversion H; subst. cbn [app].
    rewrite Hhead, calls_to_app, C3, P3.
    split; [lia|]. split; lia.
  - intros H; inversion H; subst. cbn [app]. rewrite Hhead.
    split; [lia|]. split; [lia|]. intros Hno. destruct (Hno e eq_refl).
  - intros H; inversion H; subst. cbn [app]. rewrite Hhead.
    assert (k = 0) as ->.
    { destruct k as [|[|k]]; [reflexivity | | lia].
      destruct (Hexc eq_refl) as [e E]. discriminate. }
    split; [lia|]. split; lia.
Qed.

End Contract.

(** *** The budget, for every run *)

(** The pass budget holds for every run, whatever the agents answer or
    raise, whatever the human types, and however the run ends: no pass is
    announced with a number outside 1..[max_iterations], and the loop makes
    at most [max_iterations] passes for the start and for each edit of the
    plan by the human. *)
Theorem budget_holds_in_every_run
  (fuel : nat) (initial_query : string) (w : World) (m : Machine) r t :
  run fuel initial_query w = (r, m, t) ->
  Forall (fun n => 1 <= n <= max_iterations) (iterations t)
  /\ length (iterations t) <= max_iterations * (1 + edits t).
Proof.
  intros Hrun.
  destruct (TerminationFacts.run_within_budget _ _ _ _ _ _ _ _ _ Hrun) as [Hb Hl].
  split; [exact Hb | exact Hl].
Qed.

End Run.

Lemma agents_are_called_in_order_witness :
  exists rest,
    agent_calls
      (snd (run unit (Scenarios.crew ["SCADA: pressure"] Scenarios.silent
                        (Some "final answer"))
              (Scenarios.always "c") 10 "why is the pressure low?" tt))
    = Planner :: rest.
Proof.
  destruct (run unit (Scenarios.crew ["SCADA: pressure"] Scenarios.silent
                        (Some "final answer"))
              (Scenarios.always "c") 10 "why is the pressure low?" tt)
    as [[r m] t] eqn:Hrun.
  destruct (agents_are_called_in_order unit _ _ _ _ _ _ _ _ Hrun)
    as (rest & Hcalls & _).
  exists rest. exact Hcalls.
Defined.

Lemma query_is_never_rewritten_witness :
  Forall (fun i => i = "why is the pressure low?")
    (observed_inputs
       (snd (run unit (Scenarios.crew ["SCADA: pressure"] Scenarios.one_more
                         (Some "final answer"))
               (Scenarios.script ["e"; "MANUAL: valve"; "c"; "q"]) 10
               "why is the pressure low?" tt))).
Proof.
  destruct (run unit (Scenarios.crew ["SCADA: pressure"] Scenarios.one_more
                        (Some "final answer"))
              (Scenarios.script ["e"; "MANUAL: valve"; "c"; "q"]) 10
              "why is the pressure low?" tt)
    as [[r m] t] eqn:Hrun.
  exact (proj1 (query_is_never_rewritten unit _ _ _ _ _ _ _ _ Hrun)).
Defined.

Lemma history_counts_executor_calls_witness :
  executor_returns_one_pair
    (Scenarios.crew ["SCADA: pressure"; "MANUAL: valve"] Scenarios.silent
       (Some "final answer"))
  /\ calls_to Executor
       (snd (run unit (Scenarios.crew ["SCADA: pressure"; "MANUAL: valve"]
                         Scenarios.silent (Some "final answer"))
               (Scenarios.always "c") 10 "why is the pressure low?" tt))
     <= 3.
Proof.
  assert (Hexecutor : executor_returns_one_pair
            (Scenarios.crew ["SCADA: pressure"; "MANUAL: valve"] Scenarios.silent
               (Some "final answer"))).
  { intros st w out w' H. cbn in H. unfold Scenarios.echo_executor in H.
    inversion H; subst. cbn. eauto. }
  split; [exact Hexecutor|].
  destruct (run unit (Scenarios.crew ["SCADA: pressure"; "MANUAL: valve"]
                        Scenarios.silent (Some "final answer"))
              (Scenarios.always "c") 10 "why is the pressure low?" tt)
    as [[r m] t] eqn:Hrun.
  destruct (history_counts_executor_calls unit _ _ Hexecutor _ _ _ _ _ _ Hrun)
    as (_ & Hupper & _).
  assert (Hlen : length (past_steps (state m)) = 2).
  { vm_compute in Hrun. inversion Hrun. reflexivity. }
  cbn [snd]. lia.
Defined.

Lemma budget_holds_in_every_run_witness :
  length
    (iterations
       (snd (run unit (Scenarios.crew ["SCADA: pressure"] Scenarios.one_more
                         (Some "final answer"))
               (Scenarios.script ["c"; "e"; "MANUAL: valve"; "c"]) 10
               "why is the pressure low?" tt)))
  <= max_iterations
     * (1 + edits
              (snd (run unit (Scenarios.crew ["SCADA: pressure"] Scenarios.one_more
                                (Some "final answer"))
                      (Scenarios.script ["c"; "e"; "MANUAL: valve"; "c"]) 10
                      "why is the pressure low?" tt))).
Proof.
  destruct (run unit (Scenarios.crew ["SCADA: pressure"] Scenarios.one_more
                        (Some "final answer"))
              (Scenarios.script ["c"; "e"; "MANUAL: valve"; "c"]) 10
              "why is the pressure low?" tt)
    as [[r m] t] eqn:Hrun.
  exact (proj2 (budget_holds_in_every_run unit _ _ _ _ _ _ _ _ Hrun)).
Defined.

End RunExtras.
